(** * Tarolas: the path-scoped storage engine

    A shallow embedding of the storage engine of the tarolas file server
    (package [server]: [prepareAbsolutePath], the directory engine of
    [directory.go] and the file engine of [file.go]) together with the
    parts of the Go standard library the engine calls: [path/filepath]
    on a Unix system, a tree-shaped file system behind package [os],
    and the streaming codec of [encoding/base64]. *)

From Stdlib Require Import List String Ascii Bool Arith ZArith Lia Permutation.
From Stdlib Require Import Strings.Byte DecimalString.
Import ListNotations.

Local Open Scope string_scope.
Local Open Scope list_scope.

(** ** Package [strings] *)

Module Strings.

(** [strings.HasPrefix]. *)
Fixpoint HasPrefix (s p : string) {struct p} : bool :=
  match p with
  | EmptyString => true
  | String a p' =>
      match s with
      | EmptyString => false
      | String b s' => Ascii.eqb a b && HasPrefix s' p'
      end
  end.

(** [s[n:]]. *)
Fixpoint from (n : nat) (s : string) : string :=
  match n, s with
  | S n', String _ s' => from n' s'
  | _, _ => s
  end.

(** [strings.TrimPrefix]: [s] without the leading [p], or [s] itself. *)
Definition TrimPrefix (s p : string) : string :=
  if HasPrefix s p then from (String.length p) s else s.

(** [strings.Split(s, "/")]: the fields between the separators, the
    empty ones included, so that the empty string has one field. *)
Fixpoint Split (s : string) : list string :=
  match s with
  | EmptyString => [EmptyString]
  | String c r =>
      if Ascii.eqb c "/" then EmptyString :: Split r
      else match Split r with
           | h :: t => String c h :: t
           | [] => [String c EmptyString]
           end
  end.

(** [strings.Join(elems, "/")]. *)
Fixpoint Join (elems : list string) : string :=
  match elems with
  | [] => EmptyString
  | [e] => e
  | e :: r => e ++ "/" ++ Join r
  end.

End Strings.

(** ** Package [path/filepath] (Unix: separator [/], no volume names) *)

Module Filepath.

(** [os.IsPathSeparator(path[0])] on a possibly empty string. *)
Definition rooted (path : string) : bool :=
  match path with
  | String c _ => Ascii.eqb c "/"
  | EmptyString => false
  end.

(** The output buffer of [Clean] is kept as the stack of the elements
    written so far, the last one first.  [dotdot] of the Go code marks
    the end of the leading [..] elements: the buffer can be backtracked
    exactly when its last element is a real one. *)
Definition can_backtrack (out : list string) : bool :=
  match out with
  | top :: _ => negb (String.eqb top "..")
  | [] => false
  end.

(** One round of the loop of [Clean], on the next element of the path. *)
Definition clean_step (is_rooted : bool) (out : list string) (elem : string)
  : list string :=
  if String.eqb elem "" then out            (* empty path element *)
  else if String.eqb elem "." then out      (* . element *)
  else if String.eqb elem ".." then         (* .. element *)
    if can_backtrack out then tl out        (*   remove to last separator *)
    else if negb is_rooted then ".." :: out (*   not rooted: append .. *)
    else out
  else elem :: out.                         (* real path element *)

(** The elements [Clean] leaves of a sequence of elements. *)
Definition clean_elems (is_rooted : bool) (elems : list string) : list string :=
  rev (fold_left (clean_step is_rooted) elems []).

(** What [Clean] returns once its buffer holds [elems]. *)
Definition render (is_rooted : bool) (elems : list string) : string :=
  if is_rooted then String "/" (Strings.Join elems)
  else match elems with
       | [] => "."
       | _ => Strings.Join elems
       end.

(** [filepath.Clean]: the shortest path name equivalent to [path] by
    purely lexical processing.  Multiple separators count as one,
    each [.] element is dropped, each inner [..] element is dropped
    along with the element before it, [..] elements that begin a
    rooted path are dropped, and the empty result is [.]. *)
Definition Clean (path : string) : string :=
  render (rooted path) (clean_elems (rooted path) (Strings.Split path)).

(** [filepath.Join]: the elements from the first non-empty one on,
    joined with the separator and cleaned; empty when all are empty. *)
Fixpoint Join (elem : list string) : string :=
  match elem with
  | [] => ""
  | e :: rest =>
      if String.eqb e "" then Join rest
      else Clean (Strings.Join elem)
  end.

(** [filepath.Base]: the last element of the path, trailing
    separators removed; [.] for the empty path and [/] for a path of
    separators only. *)
Definition Base (path : string) : string :=
  if String.eqb path "" then "."
  else match filter (fun e => negb (String.eqb e "")) (Strings.Split path) with
       | [] => "/"
       | e :: es => last es e
       end.

(** An element without a separator, and a real element: one that
    [Clean] copies as it is. *)
Fixpoint no_slash (s : string) : bool :=
  match s with
  | EmptyString => true
  | String c r => negb (Ascii.eqb c "/") && no_slash r
  end.

Definition real (e : string) : bool :=
  negb (String.eqb e "") && negb (String.eqb e ".") && negb (String.eqb e "..")
  && no_slash e.

Fixpoint starts_with (p l : list string) : bool :=
  match p, l with
  | [], _ => true
  | a :: p', b :: l' => String.eqb a b && starts_with p' l'
  | _ :: _, [] => false
  end.

(** [within root path]: [path] lies in the subtree of [root].  Both are
    compared as [Clean] reads them: they are rooted alike, the elements
    of [root] begin those of [path], and [path] does not step up with
    [..] below [root]. *)
Definition within (root path : string) : bool :=
  let re := clean_elems (rooted root) (Strings.Split root) in
  let pe := clean_elems (rooted path) (Strings.Split path) in
  Bool.eqb (rooted root) (rooted path)
  && starts_with re pe
  && forallb (fun e => negb (String.eqb e "..")) (skipn (List.length re) pe).

End Filepath.

(** The buffer of [Clean], last element first: real elements above
    the leading [..] elements, which a rooted path never has. *)
Definition stack_ok (r : bool) (st : list string) : Prop :=
  exists ns ds, st = ns ++ ds
    /\ Forall (fun e => Filepath.real e = true) ns
    /\ Forall (eq "..") ds
    /\ (r = true -> ds = []).

(** The elements of a cleaned path: the leading [..] elements, none
    when rooted, then real elements. *)
Definition canonical (r : bool) (es : list string) : Prop :=
  exists ds ns, es = ds ++ ns
    /\ Forall (eq "..") ds
    /\ Forall (fun e => Filepath.real e = true) ns
    /\ (r = true -> ds = []).

(** ** Go errors and results *)

(** The values of Go's [error] that the engine can meet: the [syscall]
    numbers of the file system calls, [io.EOF] and the
    [base64.CorruptInputError]. *)
Inductive error : Type :=
| ENOENT | ENOTDIR | EISDIR | EEXIST | ENOTEMPTY | EBUSY | EINVAL
| EOF | ErrUnexpectedEOF | CorruptInputError.

(** A value together with Go's [err]: [Ok v] when [err == nil]. *)
Inductive result (A : Type) : Type :=
| Ok (v : A)
| Err (e : error).
Arguments Ok {A} v.
Arguments Err {A} e.

(** ** Package [os] over a tree-shaped file system *)

Module Os.

(** A file system object: a regular file with its content or a
    directory with its named entries.  The whole file system is the
    node of the directory [/]. *)
#[warnings="-register-all"] Inductive node : Type :=
| File (data : list byte)
| Dir (entries : list (string * node)).

Definition filesystem : Type := node.

(** [os.IsNotExist] and [os.IsExist]. *)
Definition IsNotExist (e : error) : bool :=
  match e with ENOENT => true | _ => false end.

Definition IsExist (e : error) : bool :=
  match e with EEXIST | ENOTEMPTY => true | _ => false end.

(** The elements the kernel walks for a path.  The process runs with
    working directory [/], whose parent is [/] itself, and the tree
    has no symbolic links, so [.] and [..] are resolved on the names. *)
Definition elements (path : string) : list string :=
  Filepath.clean_elems true (Strings.Split path).

Fixpoint lookup (name : string) (es : list (string * node)) : option node :=
  match es with
  | [] => None
  | (n, c) :: r => if String.eqb n name then Some c else lookup name r
  end.

Fixpoint put (name : string) (c : node) (es : list (string * node))
  : list (string * node) :=
  match es with
  | [] => [(name, c)]
  | (n, d) :: r => if String.eqb n name then (name, c) :: r
                   else (n, d) :: put name c r
  end.

Definition drop (name : string) (es : list (string * node))
  : list (string * node) :=
  filter (fun e => negb (String.eqb (fst e) name)) es.

(** The names of a directory as a file system keeps them: real
    elements, each at most once. *)
Fixpoint distinct (l : list string) : bool :=
  match l with
  | [] => true
  | x :: r => negb (existsb (String.eqb x) r) && distinct r
  end.

Definition well_named (es : list (string * node)) : bool :=
  forallb (fun e => Filepath.real (fst e)) es && distinct (map fst es).

(** Path resolution: [ENOTDIR] when an element on the way is a
    regular file, [ENOENT] when an element is missing. *)
Fixpoint find_node (p : list string) (n : node) : result node :=
  match p with
  | [] => Ok n
  | e :: p' =>
      match n with
      | File _ => Err ENOTDIR
      | Dir es =>
          match lookup e es with
          | Some c => find_node p' c
          | None => Err ENOENT
          end
      end
  end.

(** A system call on the last element of a path: [f] sees the entry
    of that name in the parent directory, if any, and returns the new
    entry, none to unlink it, or the error of the call.  [/] itself
    has no parent entry and cannot be replaced. *)
Fixpoint alter (f : option node -> result (option node))
               (p : list string) (n : node) : result node :=
  match p with
  | [] => match f (Some n) with
          | Err x => Err x
          | Ok _ => Err EBUSY
          end
  | e :: p' =>
      match n with
      | File _ => Err ENOTDIR
      | Dir es =>
          match p' with
          | [] =>
              match f (lookup e es) with
              | Ok (Some c) => Ok (Dir (put e c es))
              | Ok None => Ok (Dir (drop e es))
              | Err x => Err x
              end
          | _ :: _ =>
              match lookup e es with
              | Some c =>
                  match alter f p' c with
                  | Ok c' => Ok (Dir (put e c' es))
                  | Err x => Err x
                  end
              | None => Err ENOENT
              end
          end
      end
  end.

(** The directory an entry of a path lives in, after the call. *)
Definition after (o : option node) (e : string) (es : list (string * node))
  : list (string * node) :=
  match o with
  | Some c => put e c es
  | None => drop e es
  end.

(** [os.FileInfo]: the three accessors the engine uses. *)
Record FileInfo : Type := mkFileInfo {
  Name : string;
  IsDir : bool;
  Size : Z
}.

(** The size [stat] reports: the length of a regular file; for a
    directory the size of one block, which the engine never reads. *)
Definition node_size (n : node) : Z :=
  match n with
  | File d => Z.of_nat (List.length d)
  | Dir _ => 4096
  end.

Definition node_is_dir (n : node) : bool :=
  match n with File _ => false | Dir _ => true end.

Definition info_of (name : string) (n : node) : FileInfo :=
  mkFileInfo name (node_is_dir n) (node_size n).

(** [os.Stat]. *)
Definition Stat (fs : filesystem) (name : string) : result FileInfo :=
  match find_node (elements name) fs with
  | Ok n => Ok (info_of (Filepath.Base name) n)
  | Err e => Err e
  end.

(** Directory entries are returned sorted by file name, as
    [os.ReadDir] and [ioutil.ReadDir] do. *)
Fixpoint insert_info (i : FileInfo) (l : list FileInfo) : list FileInfo :=
  match l with
  | [] => [i]
  | j :: r => if String.leb (Name i) (Name j) then i :: l
              else j :: insert_info i r
  end.

Definition sort_infos (l : list FileInfo) : list FileInfo :=
  fold_right insert_info [] l.

(** [os.ReadDir] / [ioutil.ReadDir], with the [Info()] of each entry. *)
Definition ReadDir (fs : filesystem) (name : string) : result (list FileInfo) :=
  match find_node (elements name) fs with
  | Ok (Dir es) => Ok (sort_infos (map (fun e => info_of (fst e) (snd e)) es))
  | Ok (File _) => Err ENOTDIR
  | Err e => Err e
  end.

(** [os.Remove]: unlinks a file or removes an empty directory. *)
Definition remove_entry (o : option node) : result (option node) :=
  match o with
  | None => Err ENOENT
  | Some (File _) => Ok None
  | Some (Dir []) => Ok None
  | Some (Dir (_ :: _)) => Err ENOTEMPTY
  end.

Definition Remove (fs : filesystem) (name : string) : filesystem * option error :=
  match alter remove_entry (elements name) fs with
  | Ok fs' => (fs', None)
  | Err e => (fs, Some e)
  end.

(** [os.RemoveAll]: removes the path and everything below it; a path
    that does not exist is no error. *)
Definition RemoveAll (fs : filesystem) (name : string) : filesystem * option error :=
  match alter (fun _ => Ok None) (elements name) fs with
  | Ok fs' => (fs', None)
  | Err ENOENT => (fs, None)
  | Err e => (fs, Some e)
  end.

(** [os.Mkdir]: the parent must exist and the name must be free. *)
Definition mkdir_entry (o : option node) : result (option node) :=
  match o with
  | None => Ok (Some (Dir []))
  | Some _ => Err EEXIST
  end.

Definition Mkdir (fs : filesystem) (name : string) : filesystem * option error :=
  match alter mkdir_entry (elements name) fs with
  | Ok fs' => (fs', None)
  | Err e => (fs, Some e)
  end.

(** [os.MkdirAll]: creates the missing directories on the way; fails
    with [ENOTDIR] on a regular file. *)
Fixpoint mkdir_all (p : list string) (n : node) : result node :=
  match p with
  | [] => match n with
          | Dir _ => Ok n
          | File _ => Err ENOTDIR
          end
  | e :: p' =>
      match n with
      | File _ => Err ENOTDIR
      | Dir es =>
          match mkdir_all p' (match lookup e es with
                              | Some c => c
                              | None => Dir []
                              end) with
          | Ok c' => Ok (Dir (put e c' es))
          | Err x => Err x
          end
      end
  end.

Definition MkdirAll (fs : filesystem) (name : string) : filesystem * option error :=
  match mkdir_all (elements name) fs with
  | Ok fs' => (fs', None)
  | Err e => (fs, Some e)
  end.

(** *** Open files *)

(** The flags of [os.OpenFile]. *)
Inductive flag : Type := O_RDONLY | O_WRONLY | O_APPEND | O_CREATE | O_TRUNC.

Definition flag_eqb (a b : flag) : bool :=
  match a, b with
  | O_RDONLY, O_RDONLY | O_WRONLY, O_WRONLY | O_APPEND, O_APPEND
  | O_CREATE, O_CREATE | O_TRUNC, O_TRUNC => true
  | _, _ => false
  end.

Definition has (f : flag) (flags : list flag) : bool :=
  existsb (flag_eqb f) flags.

(** An open [*os.File]: the object it designates, the name it was
    opened with, the offset of the next read or write and whether
    every write goes to the end of the file. *)
Record file : Type := mkfile {
  f_path : list string;
  f_name : string;
  f_pos : nat;
  f_append : bool
}.

(** [os.OpenFile(name, flags, perm)].  A regular file is truncated
    only under [O_TRUNC] and a missing one created only under
    [O_CREATE]; a directory cannot be opened for writing. *)
Definition OpenFile (fs : filesystem) (name : string) (flags : list flag)
  : filesystem * result file :=
  let p := elements name in
  let f := mkfile p name 0 (has O_APPEND flags) in
  match find_node p fs with
  | Ok (File _) =>
      if has O_TRUNC flags then
        match alter (fun _ => Ok (Some (File []))) p fs with
        | Ok fs' => (fs', Ok f)
        | Err e => (fs, Err e)
        end
      else (fs, Ok f)
  | Ok (Dir _) =>
      if has O_WRONLY flags then (fs, Err EISDIR) else (fs, Ok f)
  | Err ENOENT =>
      if has O_CREATE flags then
        match alter (fun _ => Ok (Some (File []))) p fs with
        | Ok fs' => (fs', Ok f)
        | Err e => (fs, Err e)
        end
      else (fs, Err ENOENT)
  | Err e => (fs, Err e)
  end.

(** [os.Open(name)] is [OpenFile(name, O_RDONLY, 0)]. *)
Definition Open (fs : filesystem) (name : string) : result file :=
  snd (OpenFile fs name [O_RDONLY]).

(** [File.Stat]. *)
Definition FStat (fs : filesystem) (f : file) : result FileInfo :=
  match find_node (f_path f) fs with
  | Ok n => Ok (info_of (Filepath.Base (f_name f)) n)
  | Err e => Err e
  end.

(** The content of a file after [data] is written at offset [pos]:
    the bytes before stay, the bytes under [data] are replaced, the
    bytes after stay (a gap is filled with zero bytes). *)
Definition overwrite (old : list byte) (pos : nat) (data : list byte) : list byte :=
  firstn pos old ++ repeat x00 (pos - List.length old) ++ data
    ++ skipn (pos + List.length data) old.

(** [File.Write]: at the end of the file under [O_APPEND], at the
    offset otherwise; the offset moves past the bytes written. *)
Definition Write (fs : filesystem) (f : file) (data : list byte)
  : filesystem * file * option error :=
  let store (o : option node) : result (option node) :=
    match o with
    | Some (File old) =>
        Ok (Some (File (if f_append f then old ++ data
                        else overwrite old (f_pos f) data)))
    | Some (Dir _) => Err EISDIR
    | None => Err ENOENT
    end in
  match alter store (f_path f) fs with
  | Ok fs' =>
      (fs', mkfile (f_path f) (f_name f) (f_pos f + List.length data) (f_append f),
       None)
  | Err e => (fs, f, Some e)
  end.

(** [File.Read] into a buffer of [n] bytes: the bytes available
    from the offset on, at most [n]; [io.EOF] when none is left. *)
Definition Read (fs : filesystem) (f : file) (n : nat)
  : file * result (list byte) :=
  match find_node (f_path f) fs with
  | Ok (File d) =>
      let got := firstn n (skipn (f_pos f) d) in
      match got, n with
      | [], S _ => (f, Err EOF)
      | _, _ => (mkfile (f_path f) (f_name f) (f_pos f + List.length got) (f_append f),
                 Ok got)
      end
  | Ok (Dir _) => (f, Err EISDIR)
  | Err e => (f, Err e)
  end.

(** [File.Seek(offset, io.SeekStart)]. *)
Definition Seek (f : file) (offset : Z) : result file :=
  if (offset <? 0)%Z then Err EINVAL
  else Ok (mkfile (f_path f) (f_name f) (Z.to_nat offset) (f_append f)).

(** An open file as the source of [io.Copy]: the bytes from its offset
    to its end. *)
Definition reader (fs : filesystem) (f : file) : list byte * option error :=
  match find_node (f_path f) fs with
  | Ok (File d) => (skipn (f_pos f) d, None)
  | Ok (Dir _) => ([], Some EISDIR)
  | Err e => ([], Some e)
  end.

(** An open file as the destination of [io.Copy]. *)
Definition writer (dst : filesystem * file) (data : list byte)
  : (filesystem * file) * option error :=
  let '(fs', f', err) := Write (fst dst) (snd dst) data in ((fs', f'), err).

(** *** [filepath.Walk] *)

(** The walk of the tree below [path]: [fn] is called on the path
    itself, then, for a directory, on its entries in the order of
    their names, each walked in turn; the first error [fn] returns
    ends the walk.  (In a tree at rest [lstat] and the directory
    reads inside the walk cannot fail.) *)
Fixpoint insert_entry (e : string * node) (l : list (string * node))
  : list (string * node) :=
  match l with
  | [] => [e]
  | f :: r => if String.leb (fst e) (fst f) then e :: l
              else f :: insert_entry e r
  end.

Definition sort_entries (l : list (string * node)) : list (string * node) :=
  fold_right insert_entry [] l.

(** The tree as the walk reads it: the entries of every directory in
    the order of their names ([readDirNames] sorts them). *)
Fixpoint sort_tree (n : node) : node :=
  match n with
  | File d => File d
  | Dir es => Dir (sort_entries (map (fun e => (fst e, sort_tree (snd e))) es))
  end.

Section Walk.
Context {S : Type}.
Variable fn : string -> FileInfo -> option error -> S -> S * option error.

Fixpoint walk (path name : string) (n : node) (s : S) : S * option error :=
  match fn path (info_of name n) None s with
  | (s1, Some e) => (s1, Some e)
  | (s1, None) =>
      match n with
      | File _ => (s1, None)
      | Dir es =>
          (fix names (es : list (string * node)) (s : S) : S * option error :=
             match es with
             | [] => (s, None)
             | (nm, c) :: rest =>
                 match walk (Filepath.Join [path; nm]) nm c s with
                 | (s2, Some e) => (s2, Some e)
                 | (s2, None) => names rest s2
                 end
             end) es s1
      end
  end.

(** [filepath.Walk(root, fn)]. *)
Definition Walk (fs : filesystem) (root : string) (s : S) : S * option error :=
  match find_node (elements root) fs with
  | Err e => fn root (mkFileInfo "" false 0) (Some e) s
  | Ok n => walk root (Filepath.Base root) (sort_tree n) s
  end.
End Walk.

(** The calls of the walk function in a walk that no call stops, in
    their order: the path, then the entries of a directory, one
    after the other, each with all that lies below it. *)
Fixpoint visits (path name : string) (n : node) : list (string * FileInfo) :=
  (path, info_of name n) ::
  match n with
  | File _ => []
  | Dir es =>
      flat_map (fun e => visits (Filepath.Join [path; fst e]) (fst e) (snd e)) es
  end.

(** A tree as a file system keeps it: the entries of every directory
    are well named. *)
Fixpoint wf_tree (n : node) : bool :=
  match n with
  | File _ => true
  | Dir es => well_named es && forallb (fun e => wf_tree (snd e)) es
  end.

(** The directories below a node, each as the elements that lead to it
    from the node: every entry that is a directory, followed by the
    directories below it, entry after entry. *)
Fixpoint dirs_below (n : node) : list (list string) :=
  match n with
  | File _ => []
  | Dir es =>
      flat_map (fun e => (if node_is_dir (snd e) then [[fst e]] else [])
                         ++ map (cons (fst e)) (dirs_below (snd e))) es
  end.

End Os.

(** ** Package [encoding/base64]: [StdEncoding] and its streaming codec *)

Module Base64.

(** Six bits, the most significant first. *)
Definition sextet : Type := (bool * bool * bool * bool * bool * bool)%type.

(** The alphabet of [StdEncoding] (RFC 4648) and its padding character. *)
Definition encodeStd : string :=
  "ABCDEFGHIJKLMNOPQRSTUVWXYZabcdefghijklmnopqrstuvwxyz0123456789+/".

Definition StdPadding : byte := x3d.

Definition index_of_sextet (s : sextet) : nat :=
  let '(b5, b4, b3, b2, b1, b0) := s in
  32 * Nat.b2n b5 + 16 * Nat.b2n b4 + 8 * Nat.b2n b3
  + 4 * Nat.b2n b2 + 2 * Nat.b2n b1 + Nat.b2n b0.

Definition sextet_of_index (n : nat) : sextet :=
  (Nat.testbit n 5, Nat.testbit n 4, Nat.testbit n 3,
   Nat.testbit n 2, Nat.testbit n 1, Nat.testbit n 0).

(** [enc.encode[v]]. *)
Definition encode_char (s : sextet) : byte :=
  match String.get (index_of_sextet s) encodeStd with
  | Some c => byte_of_ascii c
  | None => StdPadding
  end.

Fixpoint find_char (c : ascii) (s : string) (i : nat) : option nat :=
  match s with
  | EmptyString => None
  | String d r => if Ascii.eqb c d then Some i else find_char c r (S i)
  end.

(** [enc.decodeMap[c]], none for a byte outside the alphabet. *)
Definition decode_char (b : byte) : option sextet :=
  match find_char (ascii_of_byte b) encodeStd 0 with
  | Some i => Some (sextet_of_index i)
  | None => None
  end.

(** A full quantum: three bytes become four characters. *)
Definition encode_quantum (a b c : byte) : list byte :=
  let '(a0, (a1, (a2, (a3, (a4, (a5, (a6, a7))))))) := Byte.to_bits a in
  let '(b0, (b1, (b2, (b3, (b4, (b5, (b6, b7))))))) := Byte.to_bits b in
  let '(c0, (c1, (c2, (c3, (c4, (c5, (c6, c7))))))) := Byte.to_bits c in
  [encode_char (a7, a6, a5, a4, a3, a2);
   encode_char (a1, a0, b7, b6, b5, b4);
   encode_char (b3, b2, b1, b0, c7, c6);
   encode_char (c5, c4, c3, c2, c1, c0)].

(** The last, partial quantum of one or two bytes, padded. *)
Definition encode_tail (rest : list byte) : list byte :=
  match rest with
  | [a] =>
      let '(a0, (a1, (a2, (a3, (a4, (a5, (a6, a7))))))) := Byte.to_bits a in
      [encode_char (a7, a6, a5, a4, a3, a2);
       encode_char (a1, a0, false, false, false, false);
       StdPadding; StdPadding]
  | [a; b] =>
      let '(a0, (a1, (a2, (a3, (a4, (a5, (a6, a7))))))) := Byte.to_bits a in
      let '(b0, (b1, (b2, (b3, (b4, (b5, (b6, b7))))))) := Byte.to_bits b in
      [encode_char (a7, a6, a5, a4, a3, a2);
       encode_char (a1, a0, b7, b6, b5, b4);
       encode_char (b3, b2, b1, b0, false, false);
       StdPadding]
  | _ => []
  end.

(** The full quanta of [src], encoded, and the bytes left over. *)
Fixpoint encode_blocks (src : list byte) : list byte * list byte :=
  match src with
  | a :: b :: c :: r =>
      let (out, rest) := encode_blocks r in (encode_quantum a b c ++ out, rest)
  | _ => ([], src)
  end.

(** [enc.EncodeToString]: the quanta and the padded tail. *)
Definition EncodeToString (src : list byte) : list byte :=
  let (out, rest) := encode_blocks src in out ++ encode_tail rest.

(** The stream encoder of [base64.NewEncoder(enc, w)]: the writer [w]
    it feeds and the bytes of an incomplete quantum it holds back
    ([e.buf[:e.nbuf]], at most two). *)
Record encoder (W : Type) : Type := mkencoder {
  e_w : W;
  e_buf : list byte
}.
Arguments mkencoder {W} e_w e_buf.
Arguments e_w {W} e.
Arguments e_buf {W} e.

Definition NewEncoder {W : Type} (w : W) : encoder W := mkencoder w [].

Section Encoder.
Context {W : Type}.
Variable write : W -> list byte -> W * option error.

(** [(e *encoder) Write(p)]: the held bytes and [p] are encoded as far
    as they make full quanta, which go to [w]; the trailing fringe is
    held back for the next [Write] or for [Close]. *)
Definition Write (e : encoder W) (p : list byte) : encoder W * option error :=
  let (out, rest) := encode_blocks (e_buf e ++ p) in
  match out with
  | [] => (mkencoder (e_w e) rest, None)
  | _ :: _ =>
      let (w', err) := write (e_w e) out in (mkencoder w' rest, err)
  end.

(** [(e *encoder) Close()]: flushes the partially written quantum. *)
Definition Close (e : encoder W) : encoder W * option error :=
  match e_buf e with
  | [] => (e, None)
  | _ :: _ =>
      let (w', err) := write (e_w e) (encode_tail (e_buf e)) in
      (mkencoder w' [], err)
  end.
End Encoder.

(** Decoding of one quantum of four characters. *)
Definition decode_quantum (s0 s1 s2 s3 : sextet) : list byte :=
  let '(p5, p4, p3, p2, p1, p0) := s0 in
  let '(q5, q4, q3, q2, q1, q0) := s1 in
  let '(r5, r4, r3, r2, r1, r0) := s2 in
  let '(t5, t4, t3, t2, t1, t0) := s3 in
  [Byte.of_bits (q4, (q5, (p0, (p1, (p2, (p3, (p4, p5)))))));
   Byte.of_bits (r2, (r3, (r4, (r5, (q0, (q1, (q2, q3)))))));
   Byte.of_bits (t0, (t1, (t2, (t3, (t4, (t5, (r0, r1)))))))].

Definition is_newline (b : byte) : bool :=
  Byte.eqb b x0a || Byte.eqb b x0d.

(** The quanta of a body without line breaks: full quanta, then
    possibly one padded quantum, which must end the input.  The bytes
    decoded before a corrupt quantum are delivered before the error,
    and so are those of a padded quantum that input follows ([Decode]
    reports the trailing input after it has written them), as when
    the decoder has both in one buffer. *)
Fixpoint decode_quanta (src : list byte) : list byte * option error :=
  match src with
  | [] => ([], None)
  | c0 :: c1 :: c2 :: c3 :: r =>
      match decode_char c0, decode_char c1 with
      | Some s0, Some s1 =>
          match decode_char c2, decode_char c3 with
          | Some s2, Some s3 =>
              let (out, err) := decode_quanta r in
              (decode_quantum s0 s1 s2 s3 ++ out, err)
          | Some s2, None =>
              if Byte.eqb c3 StdPadding
              then (firstn 2 (decode_quantum s0 s1 s2 s2),
                    match r with
                    | [] => None
                    | _ :: _ => Some CorruptInputError
                    end)
              else ([], Some CorruptInputError)
          | None, _ =>
              if Byte.eqb c2 StdPadding && Byte.eqb c3 StdPadding
              then (firstn 1 (decode_quantum s0 s1 s1 s1),
                    match r with
                    | [] => None
                    | _ :: _ => Some CorruptInputError
                    end)
              else ([], Some CorruptInputError)
          end
      | _, _ => ([], Some CorruptInputError)
      end
  | _ => ([], Some ErrUnexpectedEOF)
  end.

(** What a reader made by [base64.NewDecoder(StdEncoding, r)] delivers
    of the bytes of [r]: line breaks are skipped, the rest is decoded. *)
Definition NewDecoder (body : list byte) : list byte * option error :=
  decode_quanta (filter (fun b => negb (is_newline b)) body).

End Base64.

(** ** Package [io] *)

Module Io.

(** All that a reader delivers before it ends, and the error it ends
    with when that is not [io.EOF]. *)
Definition Reader : Type := (list byte * option error)%type.

Section Copy.
Context {W : Type}.
Variable write : W -> list byte -> W * option error.

(** [io.Copy(dst, src)]: copies until [src] ends or an error occurs;
    returns the number of bytes copied. *)
Definition Copy (dst : W) (src : Reader) : W * Z * option error :=
  match fst src with
  | [] => (dst, 0%Z, snd src)
  | _ :: _ =>
      let (dst', werr) := write dst (fst src) in
      match werr with
      | Some e => (dst', 0%Z, Some e)
      | None => (dst', Z.of_nat (List.length (fst src)), snd src)
      end
  end.

(** [io.LimitReader(r, n)]: stops with [io.EOF] after [n] bytes. *)
Definition LimitReader (src : Reader) (n : Z) : Reader :=
  if (n <=? 0)%Z then ([], None)
  else if (Z.of_nat (List.length (fst src)) <=? n)%Z then src
  else (firstn (Z.to_nat n) (fst src), None).

(** [io.CopyN(dst, src, n)]: copies [n] bytes, or fails with [io.EOF]
    when [src] ends before. *)
Definition CopyN (dst : W) (src : Reader) (n : Z) : W * Z * option error :=
  let '(dst', written, err) := Copy dst (LimitReader src n) in
  if (written =? n)%Z then (dst', n, None)
  else if (written <? n)%Z
       then match err with
            | None => (dst', written, Some EOF)
            | Some e => (dst', written, Some e)
            end
       else (dst', written, err).
End Copy.

End Io.

(** ** Package [net/http]: the response writer *)

Module Http.

(** The response as the handler makes it: the status written, the
    header lines it has set in time and the body written.  The lines
    the server adds on its own (the date, the length, a content type
    it sniffs from the body when none was set) are not part of it, and
    the connection takes every byte written to it. *)
Record ResponseWriter : Type := mkResponseWriter {
  status : option Z;
  header : list (string * string);
  body : list byte
}.

Definition NewResponseWriter : ResponseWriter := mkResponseWriter None [] [].

(** [w.WriteHeader(code)]: the first status code stands. *)
Definition WriteHeader (w : ResponseWriter) (code : Z) : ResponseWriter :=
  match status w with
  | None => mkResponseWriter (Some code) (header w) (body w)
  | Some _ => w
  end.

(** [w.Header().Set(key, value)].  The header leaves with the status:
    what is set after [WriteHeader] or [Write] has no effect on the
    response. *)
Definition HeaderSet (w : ResponseWriter) (key value : string) : ResponseWriter :=
  match status w with
  | None =>
      mkResponseWriter None
        ((key, value) :: filter (fun kv => negb (String.eqb (fst kv) key)) (header w))
        (body w)
  | Some _ => w
  end.

(** [w.Write(data)]: sends status 200 first when none was sent. *)
Definition Write (w : ResponseWriter) (data : list byte)
  : ResponseWriter * option error :=
  (mkResponseWriter (match status w with None => Some 200%Z | s => s end)
     (header w) (body w ++ data), None).

End Http.

(** ** Package [strconv] and 64-bit integers *)

(** [strconv.FormatInt(i, 10)]. *)
Definition FormatInt (i : Z) : string :=
  DecimalString.NilZero.string_of_int (Z.to_int i).

(** The value an [int64] holds after an operation whose exact result is
    [z]: two's complement wrap-around. *)
Definition wrap64 (z : Z) : Z :=
  ((z + 2 ^ 63) mod 2 ^ 64 - 2 ^ 63)%Z.

Definition add64 (a b : Z) : Z := wrap64 (a + b).
Definition sub64 (a b : Z) : Z := wrap64 (a - b).

(** ** Package [server]: the storage engine *)

Module Server.

Import Os.

(** *** [config.go] *)

Record Configuration : Type := mkConfiguration {
  ServerPort : Z;
  RootDirectory : string;
  UrlPrefix : string
}.

(** *** [errors.go] *)

Record ErrorDto : Type := mkErrorDto {
  Status : string;
  Code : string;
  Title : string;
  Detail : string
}.

Definition errMsgCheckServerLogForDetails : string := "check server log for details".

Definition errNoSlashInFileOrDirectoryName : ErrorDto :=
  mkErrorDto "400" "10767" "file or directory name must begin with slash" "".
Definition errReadingDirectoryContentFailed : ErrorDto :=
  mkErrorDto "400" "10147" "reading directory content failed" "".
Definition errDirectoryAlreadyExists : ErrorDto :=
  mkErrorDto "400" "10237" "directory already exists" "".
Definition errCreatingDirectoryFailed : ErrorDto :=
  mkErrorDto "400" "10152" "creating directory failed" "".
Definition errCreatingDirectoriesFailed : ErrorDto :=
  mkErrorDto "400" "10141" "creating directories failed" "".
Definition errDeletingDirectoryFailed : ErrorDto :=
  mkErrorDto "400" "10371" "deleting directory failed" "".
Definition errDeletingFileFailed : ErrorDto :=
  mkErrorDto "400" "10923" "deleting file failed" "".
Definition errOpeningFileForAppendFailed : ErrorDto :=
  mkErrorDto "400" "10347" "opening file for append failed" "".
Definition errOpeningFileForWritingFailed : ErrorDto :=
  mkErrorDto "400" "10747" "opening file for writing failed" "".
Definition errOpeningFileForReadingFailed : ErrorDto :=
  mkErrorDto "400" "10352" "opening file for reading failed" "".
Definition errRetrievingFileInfoFailed : ErrorDto :=
  mkErrorDto "400" "10489" "retrieving file info failed" "".
Definition errAppendingFileFailed : ErrorDto :=
  mkErrorDto "400" "10429" "appending file failed" "".
Definition errWritingFileFailed : ErrorDto :=
  mkErrorDto "400" "10451" "writing file failed" "".
Definition errReadingFileFailed : ErrorDto :=
  mkErrorDto "400" "10455" "reading file failed" "".
Definition errSeekingFileFailed : ErrorDto :=
  mkErrorDto "400" "10458" "seeking file failed" "".
Definition errFileNotFound : ErrorDto :=
  mkErrorDto "400" "10938" "file not found" "".
Definition errNotAFile : ErrorDto :=
  mkErrorDto "400" "10462" "not a file" "".
Definition errInvalidParameterValue : ErrorDto :=
  mkErrorDto "400" "10901" "invalid parameter value" "".
Definition errWalkingDirectoryTreeFailed : ErrorDto :=
  mkErrorDto "400" "10177" "walking directory tree failed" "".

Definition errorDto (e : ErrorDto) (detail : string) : ErrorDto :=
  mkErrorDto (Status e) (Code e) (Title e) detail.

(** What an operation of the engine returns: its value, or the
    [*ErrorDto] that is not [nil]. *)
Inductive reply (A : Type) : Type :=
| Success (v : A)
| Failure (e : ErrorDto).
Arguments Success {A} v.
Arguments Failure {A} e.

(** *** [prepareAbsolutePath] *)

(** [prepareAbsolutePath] creates the full, absolute path to a file or
    directory, prepended with the root directory path. *)
Definition prepareAbsolutePath (cfg : Configuration) (name : string) : string :=
  Filepath.Join [RootDirectory cfg; Filepath.Clean name].

(** The elements of the configured root, as [Clean] reads them. *)
Definition root_elems (cfg : Configuration) : list string :=
  Filepath.clean_elems (Filepath.rooted (RootDirectory cfg))
    (Strings.Split (RootDirectory cfg)).

(** *** [server.go]: the check of [requiredNameParam] *)

(** The transport layer hands a name to the engine only when it begins
    with a slash; the request is answered with
    [errNoSlashInFileOrDirectoryName] otherwise. *)
Definition acceptedName (name : string) : bool :=
  Strings.HasPrefix name "/".

(** *** [file.go] and [directory.go]: the data *)

Record File : Type := mkFile {
  FileName : option string;
  FileSize : option Z;
  Checksum : option string;
  Exists : option bool
}.

#[warnings="-register-all"] Inductive Directory : Type :=
| mkDirectory (Name : string) (Directories : list Directory) (Files : list File).

Definition DirectoryName (d : Directory) : string :=
  match d with mkDirectory n _ _ => n end.
Definition Directories (d : Directory) : list Directory :=
  match d with mkDirectory _ ds _ => ds end.
Definition Files (d : Directory) : list File :=
  match d with mkDirectory _ _ fs => fs end.

Definition RootSymbol : string := "/".

(** [AddDirectory] and [AddFile] append to the lists of the directory. *)
Definition AddDirectory (d : Directory) (name : string) : Directory :=
  mkDirectory (DirectoryName d) (Directories d ++ [mkDirectory name [] []]) (Files d).

Definition AddFile (d : Directory) (name : string) (size : Z) : Directory :=
  mkDirectory (DirectoryName d) (Directories d)
    (Files d ++ [mkFile (Some name) (Some size) None None]).

(** *** [directory.go] *)

(** [directoryList] returns the directory tree without files, as paths
    relative to the start directory, in the order of [filepath.Walk];
    the first element is the start directory itself ([/]). *)
Definition directoryList_fn (fullName : string)
    (path : string) (info : FileInfo) (err : option error) (dirList : list string)
  : list string * option error :=
  match err with
  | Some e => (dirList, Some e)
  | None =>
      if negb (String.eqb path fullName) then
        if IsDir info
        then (dirList ++ [Strings.TrimPrefix path fullName], None)
        else (dirList, None)
      else (dirList, None)
  end.

(** What [directoryList_fn] appends over a sequence of calls: the
    directories other than the start, each without the leading start
    path. *)
Definition listed (fullName : string) (calls : list (string * FileInfo))
  : list string :=
  map (fun v => Strings.TrimPrefix (fst v) fullName)
    (filter (fun v => negb (String.eqb (fst v) fullName) && IsDir (snd v)) calls).

(** A directory below the start path as [directoryList] writes it:
    its elements joined, after a slash unless the start path is [/]. *)
Definition relative (fullName : string) (ns : list string) : string :=
  ((if String.eqb fullName "/" then "" else "/") ++ Strings.Join ns)%string.

Definition directoryList (cfg : Configuration) (fs : filesystem) (name : string)
  : reply (list string) :=
  let fullName := prepareAbsolutePath cfg name in
  let dirList := [] ++ ["/"] in
  match Walk (directoryList_fn fullName) fs fullName dirList with
  | (_, Some _) =>
      Failure (errorDto errWalkingDirectoryTreeFailed errMsgCheckServerLogForDetails)
  | (dirList, None) => Success dirList
  end.

(** [directoryContent] lists the content of the specified directory
    without subdirectories. *)
Definition directoryContent (cfg : Configuration) (fs : filesystem) (name : string)
  : reply Directory :=
  let fullName := prepareAbsolutePath cfg name in
  let rootName := if String.eqb fullName (RootDirectory cfg) then RootSymbol
                  else Filepath.Base fullName in
  let directory := mkDirectory rootName [] [] in
  match ReadDir fs fullName with
  | Err _ => Failure (errorDto errReadingDirectoryContentFailed name)
  | Ok entries =>
      Success
        (fold_left
           (fun directory fileInfo =>
              if IsDir fileInfo then AddDirectory directory (Name fileInfo)
              else AddFile directory (Name fileInfo) (Size fileInfo))
           entries directory)
  end.

Definition createDirectory (cfg : Configuration) (fs : filesystem) (name : string)
    (all : bool) : filesystem * reply Directory :=
  let fullName := prepareAbsolutePath cfg name in
  if all then
    match MkdirAll fs fullName with
    | (fs', Some _) => (fs', Failure (errorDto errCreatingDirectoriesFailed name))
    | (fs', None) => (fs', Success (mkDirectory (Filepath.Base name) [] []))
    end
  else
    match Mkdir fs fullName with
    | (fs', Some err) =>
        if IsExist err
        then (fs', Failure (errorDto errDirectoryAlreadyExists name))
        else (fs', Failure (errorDto errCreatingDirectoryFailed name))
    | (fs', None) => (fs', Success (mkDirectory name [] []))
    end.

(** The loop of [deleteDirectory] over the entries read from the
    directory: each entry is removed at the path [prepareAbsolutePath]
    makes of its bare name. *)
Fixpoint deleteDirectory_entries (cfg : Configuration) (fileInfos : list FileInfo)
    (fs : filesystem) : filesystem * option ErrorDto :=
  match fileInfos with
  | [] => (fs, None)
  | fileInfo :: rest =>
      let fileName := prepareAbsolutePath cfg (Name fileInfo) in
      if IsDir fileInfo then
        match RemoveAll fs fileName with
        | (fs', Some _) => (fs', Some (errorDto errDeletingDirectoryFailed fileName))
        | (fs', None) => deleteDirectory_entries cfg rest fs'
        end
      else
        match Remove fs fileName with
        | (fs', Some _) => (fs', Some (errorDto errDeletingFileFailed fileName))
        | (fs', None) => deleteDirectory_entries cfg rest fs'
        end
  end.

(** [deleteDirectory] deletes the directory with the specified name.
    If the [all] flag is false the directory must be empty; deleting
    the root directory has no effect.  If the [all] flag is true the
    directory may contain other directories or files; deleting the
    root directory removes all its content, omitting the root
    directory itself. *)
Definition deleteDirectory (cfg : Configuration) (fs : filesystem) (name : string)
    (all : bool) : filesystem * reply Directory :=
  let fullName := prepareAbsolutePath cfg name in
  let emptied :=
    if all then
      match ReadDir fs fullName with
      | Ok fileInfos => deleteDirectory_entries cfg fileInfos fs
      | Err _ => (fs, Some (errorDto errReadingDirectoryContentFailed name))
      end
    else (fs, None) in
  match emptied with
  | (fs1, Some e) => (fs1, Failure e)
  | (fs1, None) =>
      if String.eqb fullName (RootDirectory cfg)
      then (fs1, Success (mkDirectory RootSymbol [] []))
      else
        match Remove fs1 fullName with
        | (fs2, None) => (fs2, Success (mkDirectory (Filepath.Base fullName) [] []))
        | (fs2, Some _) => (fs2, Failure (errorDto errDeletingDirectoryFailed name))
        end
  end.

(** *** [file.go] *)

(** The size that [file.Stat()] reports after the copy; [Stat] on the
    file just written cannot fail. *)
Definition stat_size (fs : filesystem) (f : file) : Z :=
  match FStat fs f with
  | Ok fileInfo => Size fileInfo
  | Err _ => 0%Z
  end.

Definition fileWrite (cfg : Configuration) (fs : filesystem) (reqBody : list byte)
    (name : string) : filesystem * reply File :=
  let fullName := prepareAbsolutePath cfg name in
  match OpenFile fs fullName [O_CREATE; O_WRONLY] with
  | (fs1, Ok file) =>
      let decoder := Base64.NewDecoder reqBody in
      match Io.Copy writer (fs1, file) decoder with
      | ((fs2, file2), _, None) =>
          let size := stat_size fs2 file2 in
          (fs2, Success (mkFile (Some name) (Some size) None None))
      | ((fs2, _), _, Some _) =>
          (fs2, Failure (errorDto errWritingFileFailed name))
      end
  | (fs1, Err _) => (fs1, Failure (errorDto errOpeningFileForWritingFailed name))
  end.

(** [readFile] reads the file part defined by offset and size.  The
    returned content is base64 encoded. *)
Definition readFile (cfg : Configuration) (fs : filesystem)
    (w : Http.ResponseWriter) (name : string) (offset size : Z)
  : Http.ResponseWriter * option ErrorDto :=
  let fullName := prepareAbsolutePath cfg name in
  (* retrieve file info *)
  match Stat fs fullName with
  | Err err =>
      if IsNotExist err then (w, Some (errorDto errFileNotFound name))
      else (w, Some (errorDto errRetrievingFileInfoFailed name))
  | Ok fileInfo =>
      if IsDir fileInfo then (w, Some (errorDto errNotAFile name))
      (* check the given offset *)
      else if (offset <? 0)%Z || (offset >? Size fileInfo)%Z then
        (w, Some (errorDto errInvalidParameterValue
                    ("offset (" ++ FormatInt offset ++ ")")))
      (* check the given size *)
      else if (size <=? 0)%Z || (size >? Size fileInfo)%Z then
        (w, Some (errorDto errInvalidParameterValue
                    ("size (" ++ FormatInt size ++ ")")))
      else
        (* truncate the requested size if exceeds file size *)
        let size := if (add64 offset size >? Size fileInfo)%Z
                    then sub64 (Size fileInfo) offset else size in
        (* open file for reading *)
        match Open fs fullName with
        | Ok file =>
            match Seek file offset with
            | Err _ => (w, Some (errorDto errSeekingFileFailed name))
            | Ok file =>
                let w := Http.WriteHeader w 200 in
                let w := Http.HeaderSet w "Content-Type" "text/plain; charset=utf-8" in
                let encoder := Base64.NewEncoder w in
                match Io.CopyN (Base64.Write Http.Write) encoder (reader fs file) size with
                | (encoder, _, None) => (Base64.e_w encoder, None)
                | (encoder, _, Some _) =>
                    (Base64.e_w encoder, Some (errorDto errReadingFileFailed name))
                end
            end
        | Err _ => (w, Some (errorDto errRetrievingFileInfoFailed name))
        end
  end.

Definition fileAppend (cfg : Configuration) (fs : filesystem) (reqBody : list byte)
    (name : string) : filesystem * reply File :=
  let fullName := prepareAbsolutePath cfg name in
  match OpenFile fs fullName [O_APPEND; O_CREATE; O_WRONLY] with
  | (fs1, Ok file) =>
      let decoder := Base64.NewDecoder reqBody in
      match Io.Copy writer (fs1, file) decoder with
      | ((fs2, file2), _, None) =>
          let size := stat_size fs2 file2 in
          (fs2, Success (mkFile (Some name) (Some size) None None))
      | ((fs2, _), _, Some _) =>
          (fs2, Failure (errorDto errAppendingFileFailed name))
      end
  | (fs1, Err _) => (fs1, Failure (errorDto errOpeningFileForAppendFailed name))
  end.

(** [fileDelete] deletes the file with the specified name. *)
Definition fileDelete (cfg : Configuration) (fs : filesystem) (name : string)
  : filesystem * reply File :=
  let fullName := prepareAbsolutePath cfg name in
  match Stat fs fullName with
  | Ok fileInfo =>
      if IsDir fileInfo then (fs, Failure (errorDto errNotAFile name))
      else
        let size := Size fileInfo in
        match Remove fs fullName with
        | (fs', None) => (fs', Success (mkFile (Some name) (Some size) None None))
        | (fs', Some _) => (fs', Failure (errorDto errDeletingFileFailed name))
        end
  | Err err =>
      if IsNotExist err then (fs, Failure (errorDto errFileNotFound name))
      else (fs, Failure (errorDto errRetrievingFileInfoFailed name))
  end.

Definition FlagTrue : bool := true.
Definition FlagFalse : bool := false.

(** [fileExists] checks if the file with the specified name exists.
    When a file with the given name was found, the [true] flag is
    returned. *)
Definition fileExists (cfg : Configuration) (fs : filesystem) (name : string)
  : reply File :=
  let fullName := prepareAbsolutePath cfg name in
  match Stat fs fullName with
  | Ok fileInfo =>
      if IsDir fileInfo then Failure (errorDto errNotAFile name)
      else
        let size := Size fileInfo in
        Success (mkFile (Some name) (Some size) None (Some FlagTrue))
  | Err err =>
      if IsNotExist err
      then Success (mkFile (Some name) None None (Some FlagFalse))
      else Failure (errorDto errRetrievingFileInfoFailed name)
  end.

Section SharedFile.

(** [http.DetectContentType], the content sniffing of the standard
    library, on the buffer of 512 bytes. *)
Variable DetectContentType : list byte -> string.

Definition writeSharedFileContent (cfg : Configuration) (fs : filesystem)
    (w : Http.ResponseWriter) (name : string)
  : Http.ResponseWriter * option ErrorDto :=
  let fullName := prepareAbsolutePath cfg name in
  (* open shared file for reading *)
  match Open fs fullName with
  | Ok file =>
      (* stat file *)
      match FStat fs file with
      | Ok fileInfo =>
          if IsDir fileInfo then (w, Some (errorDto errNotAFile name))
          else
            (* detect file content *)
            match Read fs file 512 with
            | (_, Err _) => (w, Some (errorDto errReadingFileFailed name))
            | (file, Ok got) =>
                let buffer := got ++ repeat x00 (512 - List.length got) in
                let contentType := DetectContentType buffer in
                match Seek file 0 with
                | Err _ => (w, Some (errorDto errSeekingFileFailed name))
                | Ok file =>
                    let w := Http.WriteHeader w 200 in
                    let w := Http.HeaderSet w "Content-Type" contentType in
                    match Io.Copy Http.Write w (reader fs file) with
                    | (w, _, None) => (w, None)
                    | (w, _, Some _) => (w, Some (errorDto errReadingFileFailed name))
                    end
                end
            end
      | Err _ => (w, Some (errorDto errRetrievingFileInfoFailed name))
      end
  | Err err =>
      if IsNotExist err then (w, Some (errorDto errFileNotFound name))
      else (w, Some (errorDto errOpeningFileForReadingFailed name))
  end.

End SharedFile.

(** *** What [readFile] serves *)

(** The response after [readFile] has sent its status and header and
    has passed [part] to the encoder, which it leaves open. *)
Definition served (w : Http.ResponseWriter) (part : list byte)
  : Http.ResponseWriter :=
  Base64.e_w
    (fst (Base64.Write Http.Write
            (Base64.NewEncoder
               (Http.HeaderSet (Http.WriteHeader w 200)
                  "Content-Type" "text/plain; charset=utf-8"))
            part)).

(** The bytes of a regular file from [offset] on, at most [size]. *)
Definition window (d : list byte) (offset size : Z) : list byte :=
  firstn (Z.to_nat size) (skipn (Z.to_nat offset) d).

End Server.

(** ** Sample configuration and file systems *)

Module Sample.

Import Os Server.

Definition cfg : Configuration := mkConfiguration 15000 "/srv/data" "".

Definition bytes (s : string) : list byte := list_byte_of_string s.

(** The root directory [/srv/data], empty. *)
Definition empty_root : filesystem :=
  Dir [("srv", Dir [("data", Dir [])])].

(** [/srv/data] with one file holding the given content. *)
Definition one_file (name : string) (d : list byte) : filesystem :=
  Dir [("srv", Dir [("data", Dir [(name, Os.File d)])])].

(** [/srv/data] with the directory [a] holding the file [f], and a file
    [f] of its own. *)
Definition nested : filesystem :=
  Dir [("srv", Dir [("data", Dir [("a", Dir [("f", Os.File (bytes "inner"))]);
                                  ("f", Os.File (bytes "outer"))])])].

(** [/srv/data] with the directory [a] holding the file [f.txt] and
    the directory [sub]. *)
Definition tree : filesystem :=
  Dir [("srv", Dir [("data", Dir [("a", Dir [("f.txt", Os.File (bytes "x"));
                                             ("sub", Dir [])])])])].

End Sample.

(** * Further parts of the program *)

(** ** [filepath.Dir] *)

Module FilepathDir.

(** [filepath.Dir]: all but the last element of the path.  The path is
    cut behind its last separator ([path[:i+1]], the fields of the
    path without the last one, each followed by a separator) and
    cleaned; a path without separator gives [.]. *)
Definition Dir (path : string) : string :=
  Filepath.Clean (Strings.Join (removelast (Strings.Split path) ++ [""])).

End FilepathDir.

(** ** [fmt.Sprintf] with the verb [%x] *)

Module Fmt.

Definition digit (n : nat) : ascii :=
  nth n (list_ascii_of_string "0123456789abcdef") "0"%char.

(** A byte as two lower-case hexadecimal digits. *)
Definition hex (b : byte) : string :=
  String (digit (Byte.to_nat b / 16)) (String (digit (Byte.to_nat b mod 16)) "").

(** [fmt.Sprintf("%x", b)] for a byte slice [b]. *)
Definition Sprintf_x (b : list byte) : string :=
  fold_right (fun x s => (hex x ++ s)%string) ""%string b.

(** The value of a hexadecimal digit, and the bytes that a string of
    such digits writes. *)
Definition digit_value (c : ascii) : option nat :=
  (fix find (n : nat) (l : list ascii) : option nat :=
     match l with
     | [] => None
     | d :: r => if Ascii.eqb c d then Some n else find (S n) r
     end) 0 (list_ascii_of_string "0123456789abcdef").

Fixpoint bytes_of_hex (s : string) : option (list byte) :=
  match s with
  | String hi (String lo r) =>
      match digit_value hi, digit_value lo, bytes_of_hex r with
      | Some h, Some l, Some bs =>
          match Byte.of_nat (16 * h + l) with
          | Some b => Some (b :: bs)
          | None => None
          end
      | _, _, _ => None
      end
  | EmptyString => Some []
  | String _ EmptyString => None
  end.

End Fmt.

(** ** [file.go]: the checksum of a file *)

Module Checksum.

Import Os Server.

Definition errCalculatingChecksumFailed : ErrorDto :=
  mkErrorDto "400" "10956" "calculating checksum failed" "".

Section Hash.

(** [sha256]: the digest [hash.Sum(nil)] returns once the given bytes
    have been written to a new hash. *)
Variable sha256_Sum : list byte -> list byte.

(** [hash.Write]: the bytes are added to those written before; it
    never returns an error. *)
Definition hash_Write (h : list byte) (p : list byte) : list byte * option error :=
  (h ++ p, None).

Definition fileChecksum (cfg : Configuration) (fs : filesystem) (name : string)
  : reply File :=
  let fullName := prepareAbsolutePath cfg name in
  match Open fs fullName with
  | Ok file =>
      let hash : list byte := [] in
      match Io.Copy hash_Write hash (reader fs file) with
      | (hash, _, None) =>
          let size := stat_size fs file in
          let checksum := Fmt.Sprintf_x (sha256_Sum hash) in
          Success (mkFile (Some name) (Some size) (Some checksum) None)
      | (_, _, Some _) => Failure (errorDto errCalculatingChecksumFailed name)
      end
  | Err err =>
      if IsNotExist err then Failure (errorDto errFileNotFound name)
      else Failure (errorDto errOpeningFileForReadingFailed name)
  end.

End Hash.

End Checksum.

(** ** [directory.go]: the directory tree *)

Module Tree.

Import Os Server.

(** A [Directory] value in memory.  Its subdirectories are pointers:
    a directory that the lookup table knows is changed in place, in
    whatever list it hangs. *)
Record object : Type := mkobject {
  o_name : string;
  o_directories : list nat;
  o_files : list File
}.

(** The memory: the [Directory] values allocated so far; a pointer is
    the index of its value. *)
Definition heap : Type := list object.

Fixpoint store (a : nat) (o : object) (h : heap) : heap :=
  match h, a with
  | [], _ => []
  | _ :: r, 0 => o :: r
  | x :: r, S a' => x :: store a' o r
  end.

(** [(d *Directory) AddDirectory(name)]: a new directory is allocated
    and its pointer appended to the list of [d]; the pointer is
    returned. *)
Definition AddDirectory (h : heap) (d : nat) (name : string) : heap * nat :=
  let directory := List.length h in
  let h := h ++ [mkobject name [] []] in
  match nth_error h d with
  | Some o =>
      (store d (mkobject (o_name o) (o_directories o ++ [directory]) (o_files o)) h,
       directory)
  | None => (h, directory)
  end.

(** [(d *Directory) AddFile(name, size)]. *)
Definition AddFile (h : heap) (d : nat) (name : string) (size : Z) : heap :=
  match nth_error h d with
  | Some o =>
      store d (mkobject (o_name o) (o_directories o)
                 (o_files o ++ [mkFile (Some name) (Some size) None None])) h
  | None => h
  end.

(** [map[string]*Directory]: the binding written last is the one
    read. *)
Definition table : Type := list (string * nat).

Fixpoint map_get (k : string) (m : table) : option nat :=
  match m with
  | [] => None
  | (k', v) :: r => if String.eqb k' k then Some v else map_get k r
  end.

Definition map_set (k : string) (v : nat) (m : table) : table := (k, v) :: m.

(** The function [directoryTree] walks the tree with. *)
Definition directoryTree_fn (rootDirectory : string)
    (path : string) (info : FileInfo) (err : option error) (s : heap * table)
  : (heap * table) * option error :=
  match err with
  | Some e => (s, Some e)
  | None =>
      let (h, lookup) := s in
      if negb (String.eqb path rootDirectory) then
        let parentDir := FilepathDir.Dir path in
        if IsDir info then
          match map_get parentDir lookup with
          | Some dir =>
              let (h', added) := AddDirectory h dir (Name info) in
              ((h', map_set path added lookup), None)
          | None => ((h, lookup), None)
          end
        else
          match map_get parentDir lookup with
          | Some dir =>
              ((AddFile h dir (Name info) (Size info), map_set parentDir dir lookup),
               None)
          | None => ((h, lookup), None)
          end
      else ((h, lookup), None)
  end.

(** The [Directory] a pointer designates, with all that hangs below
    it, as the JSON encoder writes it.  The depth is bounded by the
    number of values in memory. *)
Fixpoint value (fuel : nat) (h : heap) (a : nat) : Directory :=
  match fuel, nth_error h a with
  | S k, Some o =>
      mkDirectory (o_name o) (map (value k h) (o_directories o)) (o_files o)
  | _, _ => mkDirectory "" [] []
  end.

(** [directoryTree] returns the whole directory tree including
    files. *)
Definition directoryTree (cfg : Configuration) (fs : filesystem)
  : Directory * option error :=
  let rootDirectory := RootDirectory cfg in
  let directory := 0 in
  let h := [mkobject (Filepath.Base rootDirectory) [] []] in
  let lookup := map_set rootDirectory directory [] in
  match Walk (directoryTree_fn rootDirectory) fs rootDirectory (h, lookup) with
  | ((h', _), err) => (value (List.length h') h' directory, err)
  end.

(** The loop of [walk] over the entries of the directory [path]. *)
Definition walk_entries {S : Type}
    (fn : string -> FileInfo -> option error -> S -> S * option error)
    (path : string) : list (string * node) -> S -> S * option error :=
  fix names (es : list (string * node)) (s : S) : S * option error :=
    match es with
    | [] => (s, None)
    | (nm, c) :: rest =>
        match walk fn (Filepath.Join [path; nm]) nm c s with
        | (s2, Some e) => (s2, Some e)
        | (s2, None) => names rest s2
        end
    end.

(** *** The tree as [directoryTree] should render it *)

Definition file_of (e : string * node) : list File :=
  match snd e with
  | Os.File d => [mkFile (Some (fst e)) (Some (Z.of_nat (List.length d))) None None]
  | Dir _ => []
  end.

(** A node of the file system as a [Directory]: its subdirectories,
    each with all that lies below it, and its files with their sizes,
    in the order of the entries. *)
Fixpoint mirror (name : string) (n : node) : Directory :=
  match n with
  | Os.File _ => mkDirectory name [] []
  | Dir es =>
      mkDirectory name
        (flat_map (fun e => match snd e with
                            | Dir _ => [mirror (fst e) (snd e)]
                            | Os.File _ => []
                            end) es)
        (flat_map file_of es)
  end.

(** The number of directories of a tree, and the values the walk of
    a directory allocates from the address [a] on: the directory
    itself, then what lies below each entry in turn. *)
Fixpoint size (n : node) : nat :=
  match n with
  | Os.File _ => 0
  | Dir es => S (list_sum (map (fun e => size (snd e)) es))
  end.

Fixpoint addresses (a : nat) (es : list (string * node)) : list nat :=
  match es with
  | [] => []
  | e :: r =>
      (if node_is_dir (snd e) then [a] else []) ++ addresses (a + size (snd e)) r
  end.

Fixpoint layout (a : nat) (name : string) (n : node) : list object :=
  match n with
  | Os.File _ => []
  | Dir es =>
      mkobject name (addresses (S a) es) (flat_map file_of es)
      :: (fix below (b : nat) (es : list (string * node)) : list object :=
            match es with
            | [] => []
            | e :: r => layout b (fst e) (snd e) ++ below (b + size (snd e)) r
            end) (S a) es
  end.

Definition layout_entries (b : nat) (es : list (string * node)) : list object :=
  (fix below (b : nat) (es : list (string * node)) : list object :=
     match es with
     | [] => []
     | e :: r => layout b (fst e) (snd e) ++ below (b + size (snd e)) r
     end) b es.

(** What a directory gains by the entries [es] when the next free
    address is [a]. *)
Definition grown (o : object) (a : nat) (es : list (string * node)) : object :=
  mkobject (o_name o) (o_directories o ++ addresses a es)
    (o_files o ++ flat_map file_of es).

(** What the walk of a subtree may leave of a state [(h, m)]: the
    memory [h'] it has reached and a table that agrees with [m] on
    the keys [keep] holds. *)
Definition walked (r : (heap * table) * option error) (h' : heap) (m : table)
    (keep : string -> Prop) : Prop :=
  exists m', r = ((h', m'), None) /\ forall k, keep k -> map_get k m' = map_get k m.

(** The walk of the entry [nm] of the directory [rs ++ ns] below the
    root [rs], whose value is at [d]: the entry is added to the
    directory and what lies below it is laid out in new memory; of the
    table only the keys of the entry and of what lies below it
    change. *)
Definition entry_walked (root : string) (rs : list string) (c : node) : Prop :=
  forall (ns : list string) (nm : string) (h : heap) (m : table) (d : nat) (o : object),
  Forall (fun e => Filepath.real e = true) (rs ++ ns) -> Filepath.real nm = true ->
  wf_tree c = true ->
  map_get (Filepath.render true (rs ++ ns)) m = Some d ->
  nth_error h d = Some o ->
  walked (walk (directoryTree_fn root) (Filepath.render true ((rs ++ ns) ++ [nm])) nm c
            (h, m))
    (store d (grown o (List.length h) [(nm, c)]) h ++ layout (List.length h) nm c)
    m
    (fun k => forall r, Forall (fun e => Filepath.real e = true) r ->
                        k <> Filepath.render true ((rs ++ ns) ++ nm :: r)).

End Tree.

(** ** [handlers.go]: the shared files *)

Module Handlers.

Import Os Server.

Definition routeFileShared : string := "/shared/".

Section Shared.

Variable DetectContentType : list byte -> string.

(** [writeResultError] of [server.go], which writes the error as JSON
    under its status. *)
Variable writeResultError : Http.ResponseWriter -> ErrorDto -> Http.ResponseWriter.

(** The name [handlerFileShared] makes of the request URI. *)
Definition sharedName (cfg : Configuration) (requestURI : string) : string :=
  let uriPrefix := (UrlPrefix cfg ++ routeFileShared)%string in
  ("/" ++ Strings.TrimPrefix requestURI uriPrefix)%string.

(** [handlerFileShared] processes requests that read file contents
    shared as link. *)
Definition handlerFileShared (cfg : Configuration) (fs : filesystem)
    (w : Http.ResponseWriter) (requestURI : string) : Http.ResponseWriter :=
  let name := sharedName cfg requestURI in
  match writeSharedFileContent DetectContentType cfg fs w name with
  | (w, Some errorDto) => writeResultError w errorDto
  | (w, None) => w
  end.

End Shared.

End Handlers.

(** ** [server.go]: the parameters of a request *)

Module Transport.

Import Os Server.

Definition errRequiredParameterIsMissing : ErrorDto :=
  mkErrorDto "400" "10837" "required parameter is missing" "".
Definition errRequiredParameterIsEmpty : ErrorDto :=
  mkErrorDto "400" "10767" "required parameter is empty" "".
Definition errOnlyOneParameterAllowed : ErrorDto :=
  mkErrorDto "400" "10364" "only one parameter allowed" "".

(** [url.Values], as [req.URL.Query()] fills it: the values of each
    key in their order; a key that is present has a first value. *)
Definition Values : Type := list (string * (string * list string)).

Fixpoint values_get (name : string) (query : Values) : option (string * list string) :=
  match query with
  | [] => None
  | (k, v) :: r => if String.eqb k name then Some v else values_get name r
  end.

Section Params.

(** [strings.TrimSpace]. *)
Variable TrimSpace : string -> string.

(** [writeResultError], which writes the error as JSON under its
    status. *)
Variable writeResultError : Http.ResponseWriter -> ErrorDto -> Http.ResponseWriter.

(** [requiredSingleParam] searches for a parameter with the specified
    name.  The parameter should be present and may not be given more
    than once. *)
Definition requiredSingleParam (w : Http.ResponseWriter) (query : Values)
    (name : string) : Http.ResponseWriter * (string * bool) :=
  match values_get name query with
  | None =>
      (writeResultError w (errorDto errRequiredParameterIsMissing name), ("", false))
  | Some (first, rest) =>
      if Nat.ltb 1 (List.length (first :: rest)) then
        (writeResultError w (errorDto errOnlyOneParameterAllowed name), ("", false))
      else
        let value := TrimSpace first in
        if String.eqb value "" then
          (writeResultError w (errorDto errRequiredParameterIsEmpty name), ("", false))
        else (w, (value, true))
  end.

(** [optionalSingleParam] searches for a parameter with the specified
    name.  The parameter may be present and may not be given more than
    once. *)
Definition optionalSingleParam (w : Http.ResponseWriter) (query : Values)
    (name : string) (defaultValue : string) : Http.ResponseWriter * (string * bool) :=
  match values_get name query with
  | None => (w, (defaultValue, true))
  | Some (first, rest) =>
      if Nat.ltb 1 (List.length (first :: rest)) then
        (writeResultError w (errorDto errOnlyOneParameterAllowed name), ("", false))
      else
        let value := TrimSpace first in
        if String.eqb value "" then (w, (defaultValue, true))
        else (w, (value, true))
  end.

(** [requiredNameParam] searches for the required parameter [name] and
    validates the value against the naming rules of files and
    directories. *)
Definition requiredNameParam (w : Http.ResponseWriter) (query : Values)
  : Http.ResponseWriter * (string * bool) :=
  match requiredSingleParam w query "name" with
  | (w, (name, true)) =>
      if negb (Strings.HasPrefix name "/") then
        (writeResultError w (errorDto errNoSlashInFileOrDirectoryName name),
         ("", false))
      else (w, (name, true))
  | (w, (_, false)) => (w, ("", false))
  end.

End Params.

End Transport.
Example Clean_tests :
  map Filepath.Clean
    ["abc"; "abc/def"; "a/b/c"; "."; ".."; "../.."; "../../abc"; "/abc"; "/";
     ""; "abc/"; "abc/def/"; "a/b/c/"; "./"; "../"; "../../"; "/abc/";
     "abc//def//ghi"; "//abc"; "///abc"; "//abc//"; "abc//";
     "abc/./def"; "/./abc/def"; "abc/.";
     "abc/def/ghi/../jkl"; "abc/def/../ghi/../jkl"; "abc/def/.."; "abc/def/../..";
     "/abc/def/../.."; "abc/def/../../.."; "/abc/def/../../..";
     "abc/def/../../../ghi/jkl/../../../mno"; "/../abc";
     "abc/./../def"; "abc//./../def"; "abc/../../././../def"]
  = ["abc"; "abc/def"; "a/b/c"; "."; ".."; "../.."; "../../abc"; "/abc"; "/";
     "."; "abc"; "abc/def"; "a/b/c"; "."; ".."; "../.."; "/abc";
     "abc/def/ghi"; "/abc"; "/abc"; "/abc"; "abc";
     "abc/def"; "/abc/def"; "abc";
     "abc/def/jkl"; "abc/jkl"; "abc"; ".";
     "/"; ".."; "/";
     "../../mno"; "/abc";
     "def"; "def"; "../../def"].
Proof. reflexivity. Qed.

Example Join_tests :
  map Filepath.Join
    [["a"; "b"]; ["a"; ""]; [""; "b"]; ["/"; "a"]; ["/"; "a/b"]; ["/"; ""];
     ["//"; "a"]; ["/a"; "b"]; ["a/"; "b"]; ["a/"; ""]; [""; ""]; ["/"; "a"; "b"];
     []; ["a"]]
  = ["a/b"; "a"; "b"; "/a"; "/a/b"; "/";
     "/a"; "/a/b"; "a/b"; "a"; ""; "/a/b";
     ""; "a"].
Proof. reflexivity. Qed.

Example Base_tests :
  map Filepath.Base [""; "."; "/."; "/"; "////"; "x/"; "abc"; "abc/def"; "a/b/.x";
                     "a/b/c."; "a/b/c.x"]
  = ["."; "."; "."; "/"; "/"; "x"; "abc"; "def"; ".x"; "c."; "c.x"].
Proof. reflexivity. Qed.

(** The engine on the sample file systems. *)

Example createDirectory_existing :
  snd (Server.createDirectory Sample.cfg Sample.tree "/a" false)
  = Server.Failure (Server.errorDto Server.errDirectoryAlreadyExists "/a")
  /\ snd (Server.createDirectory Sample.cfg Sample.tree "/a" true)
     = Server.Success (Server.mkDirectory "a" [] [])
  /\ snd (Server.createDirectory Sample.cfg Sample.tree "/x/y" false)
     = Server.Failure (Server.errorDto Server.errCreatingDirectoryFailed "/x/y").
Proof. repeat split. Qed.

Example directoryContent_sample :
  Server.directoryContent Sample.cfg Sample.tree "/a"
  = Server.Success
      (Server.mkDirectory "a" [Server.mkDirectory "sub" [] []]
         [Server.mkFile (Some "f.txt") (Some 1%Z) None None])
  /\ Server.directoryContent Sample.cfg Sample.tree "/"
     = Server.Success
         (Server.mkDirectory "/" [Server.mkDirectory "a" [] []] []).
Proof. split; reflexivity. Qed.

Example fileAppend_twice :
  let once := Server.fileAppend Sample.cfg Sample.empty_root
                (Base64.EncodeToString (Sample.bytes "A")) "/f" in
  let twice := Server.fileAppend Sample.cfg (fst once)
                 (Base64.EncodeToString (Sample.bytes "B")) "/f" in
  twice = (Sample.one_file "f" (Sample.bytes "AB"),
           Server.Success (Server.mkFile (Some "/f") (Some 2%Z) None None)).
Proof. reflexivity. Qed.

Example fileDelete_sample :
  Server.fileDelete Sample.cfg (Sample.one_file "f" (Sample.bytes "abc")) "/f"
  = (Sample.empty_root,
     Server.Success (Server.mkFile (Some "/f") (Some 3%Z) None None))
  /\ snd (Server.fileDelete Sample.cfg Sample.tree "/a")
     = Server.Failure (Server.errorDto Server.errNotAFile "/a")
  /\ snd (Server.fileDelete Sample.cfg Sample.tree "/nothing")
     = Server.Failure (Server.errorDto Server.errFileNotFound "/nothing").
Proof. repeat split. Qed.

(** * Facts about paths *)

Section SplitJoin.

Lemma Split_not_nil (s : string) : Strings.Split s <> [].
Proof.
  destruct s as [|c r]; simpl; [discriminate|].
  destruct (Ascii.eqb c "/"); [discriminate|].
  destruct (Strings.Split r); discriminate.
Qed.

Lemma Split_app (a b : string) :
  Strings.Split (a ++ String "/" b)%string = Strings.Split a ++ Strings.Split b.
Proof.
  induction a as [|c a IH]; simpl.
  - reflexivity.
  - destruct (Ascii.eqb c "/").
    + now rewrite IH.
    + rewrite IH. pose proof (Split_not_nil a) as Hne.
      destruct (Strings.Split a); [congruence|reflexivity].
Qed.

Lemma Split_no_slash (s : string) :
  Filepath.no_slash s = true -> Strings.Split s = [s].
Proof.
  induction s as [|c r IH]; simpl; intros H.
  - reflexivity.
  - apply andb_true_iff in H as [Hc Hr].
    apply negb_true_iff in Hc. rewrite Hc, (IH Hr). reflexivity.
Qed.

Lemma Split_fields_no_slash (s : string) :
  Forall (fun e => Filepath.no_slash e = true) (Strings.Split s).
Proof.
  induction s as [|c r IH]; simpl.
  - repeat constructor.
  - destruct (Ascii.eqb c "/") eqn:Hc.
    + constructor; [reflexivity|exact IH].
    + destruct (Strings.Split r) as [|h t].
      * constructor; [simpl; now rewrite Hc|constructor].
      * inversion IH; subst. constructor; [simpl; now rewrite Hc|assumption].
Qed.

Lemma Join_cons (e : string) (r : list string) :
  r <> [] -> Strings.Join (e :: r) = (e ++ String "/" (Strings.Join r))%string.
Proof. destruct r; [congruence|reflexivity]. Qed.

Lemma Split_Join (es : list string) :
  es <> [] -> Forall (fun e => Filepath.no_slash e = true) es ->
  Strings.Split (Strings.Join es) = es.
Proof.
  induction es as [|e r IH]; intros Hne Hall; [congruence|].
  inversion Hall as [|? ? He Hr]; subst.
  destruct r as [|e' r'].
  - simpl. now apply Split_no_slash.
  - rewrite Join_cons by discriminate.
    rewrite Split_app, Split_no_slash by assumption.
    rewrite IH by (assumption || discriminate). reflexivity.
Qed.

End SplitJoin.

(** ** What [Clean] leaves *)

Section CleanFacts.

Import Filepath.

Lemma real_inv (e : string) :
  real e = true -> e <> "" /\ e <> "." /\ e <> ".." /\ no_slash e = true.
Proof.
  unfold real. rewrite !andb_true_iff, !negb_true_iff, !String.eqb_neq. tauto.
Qed.

Lemma real_intro (e : string) :
  e <> "" -> e <> "." -> e <> ".." -> no_slash e = true -> real e = true.
Proof.
  intros. unfold real.
  rewrite !andb_true_iff, !negb_true_iff, !String.eqb_neq. tauto.
Qed.

Lemma clean_step_real (r : bool) (st : list string) (e : string) :
  real e = true -> clean_step r st e = e :: st.
Proof.
  intros H. apply real_inv in H as (H1 & H2 & H3 & _). unfold clean_step.
  apply String.eqb_neq in H1, H2, H3. now rewrite H1, H2, H3.
Qed.

Lemma fold_real (r : bool) (ns st : list string) :
  Forall (fun e => real e = true) ns ->
  fold_left (clean_step r) ns st = rev ns ++ st.
Proof.
  revert st. induction ns as [|n ns IH]; intros st H; simpl.
  - reflexivity.
  - inversion H; subst. rewrite clean_step_real by assumption.
    rewrite IH by assumption. now rewrite <- app_assoc.
Qed.

Lemma can_backtrack_dotdots (ds : list string) :
  Forall (eq "..") ds -> can_backtrack ds = false.
Proof. intros H. destruct H as [|d ds <- _]; reflexivity. Qed.

Lemma fold_dotdots (ds st : list string) :
  Forall (eq "..") ds -> Forall (eq "..") st ->
  fold_left (clean_step false) ds st = rev ds ++ st.
Proof.
  revert st. induction ds as [|d ds IH]; intros st Hd Hs; simpl.
  - reflexivity.
  - inversion Hd; subst. unfold clean_step at 2. simpl.
    rewrite can_backtrack_dotdots by assumption. simpl.
    rewrite IH by (try constructor; auto). now rewrite <- app_assoc.
Qed.

Lemma fold_dotdots_rooted (ds : list string) :
  Forall (eq "..") ds -> fold_left (clean_step true) ds [] = [].
Proof.
  induction ds as [|d ds IH]; intros Hd; simpl; [reflexivity|].
  inversion Hd; subst. apply IH. assumption.
Qed.

Lemma dotdots_snoc (ds : list string) :
  Forall (eq "..") ds -> ds ++ [".."] = ".." :: ds.
Proof.
  induction 1 as [|d ds <- _ IH]; simpl; [reflexivity|]. now rewrite IH.
Qed.

Lemma rev_dotdots (ds : list string) :
  Forall (eq "..") ds -> rev ds = ds.
Proof.
  induction 1 as [|d ds <- Hds IH]; simpl; [reflexivity|].
  rewrite IH. now apply dotdots_snoc.
Qed.

Lemma clean_step_ok (r : bool) (st : list string) (e : string) :
  stack_ok r st -> no_slash e = true -> stack_ok r (clean_step r st e).
Proof.
  intros (ns & ds & -> & Hns & Hds & Hr) He. unfold clean_step.
  destruct (String.eqb_spec e ""); [now exists ns, ds|].
  destruct (String.eqb_spec e "."); [now exists ns, ds|].
  destruct (String.eqb_spec e "..").
  - destruct ns as [|m ms].
    + simpl. rewrite can_backtrack_dotdots by assumption.
      destruct r; simpl.
      * now exists [], ds.
      * exists [], (".." :: ds). repeat split; auto. discriminate.
    + inversion Hns; subst. simpl.
      destruct (real_inv m) as (_ & _ & Hm & _); [assumption|].
      apply String.eqb_neq in Hm. rewrite Hm. simpl. now exists ms, ds.
  - exists (e :: ns), ds. repeat split; auto.
    constructor; [now apply real_intro|assumption].
Qed.

Lemma fold_ok (r : bool) (es st : list string) :
  stack_ok r st -> Forall (fun e => no_slash e = true) es ->
  stack_ok r (fold_left (clean_step r) es st).
Proof.
  revert st. induction es as [|e es IH]; intros st Hst Hes; simpl.
  - assumption.
  - inversion Hes; subst. apply IH; [|assumption]. now apply clean_step_ok.
Qed.

Lemma clean_elems_canonical (r : bool) (es : list string) :
  Forall (fun e => no_slash e = true) es -> canonical r (clean_elems r es).
Proof.
  intros H. unfold clean_elems.
  destruct (fold_ok r es []) as (ns & ds & -> & Hns & Hds & Hr).
  - exists [], []. repeat split; auto.
  - assumption.
  - exists (rev ds), (rev ns). rewrite rev_app_distr. repeat split.
    + now apply Forall_rev.
    + now apply Forall_rev.
    + intros Ht. now rewrite (Hr Ht).
Qed.

(** Cleaning the elements of a cleaned path changes nothing. *)
Lemma clean_elems_fixed (r : bool) (es : list string) :
  canonical r es -> clean_elems r es = es.
Proof.
  intros (ds & ns & -> & Hds & Hns & Hr). unfold clean_elems.
  rewrite fold_left_app, fold_real by assumption.
  destruct r.
  - rewrite (Hr eq_refl). simpl. now rewrite app_nil_r, rev_involutive.
  - rewrite fold_dotdots by (assumption || constructor).
    now rewrite app_nil_r, rev_app_distr, !rev_involutive.
Qed.

(** Read from [/], a cleaned path is its real elements. *)
Lemma clean_elems_rooted (ds ns : list string) :
  Forall (eq "..") ds -> Forall (fun e => real e = true) ns ->
  clean_elems true (ds ++ ns) = ns.
Proof.
  intros Hds Hns. unfold clean_elems.
  rewrite fold_left_app, fold_dotdots_rooted, fold_real by assumption.
  now rewrite app_nil_r, rev_involutive.
Qed.

Lemma canonical_no_slash (r : bool) (es : list string) :
  canonical r es -> Forall (fun e => no_slash e = true) es.
Proof.
  intros (ds & ns & -> & Hds & Hns & _). apply Forall_app. split.
  - eapply Forall_impl; [|exact Hds]. now intros ? <-.
  - eapply Forall_impl; [|exact Hns]. intros e He. now apply real_inv in He.
Qed.

Lemma canonical_real (r : bool) (ns : list string) :
  Forall (fun e => real e = true) ns -> canonical r ns.
Proof. intros H. exists [], ns. repeat split; auto. Qed.

Lemma canonical_app (r : bool) (es ns : list string) :
  canonical r es -> Forall (fun e => real e = true) ns -> canonical r (es ++ ns).
Proof.
  intros (ds & ms & -> & Hds & Hms & Hr) Hns.
  exists ds, (ms ++ ns). rewrite app_assoc. repeat split; auto.
  apply Forall_app. now split.
Qed.

End CleanFacts.

(** ** Cleaned paths as strings *)

Section RenderFacts.

Import Filepath.

Lemma fold_Split_render (r rx : bool) (es st : list string) :
  Forall (fun e => no_slash e = true) es ->
  fold_left (clean_step r) (Strings.Split (render rx es)) st
  = fold_left (clean_step r) es st.
Proof.
  intros Hes. destruct rx; simpl.
  - destruct es as [|e es'].
    + reflexivity.
    + rewrite Split_Join by (assumption || discriminate). reflexivity.
  - destruct es as [|e es'].
    + reflexivity.
    + rewrite Split_Join by (assumption || discriminate). reflexivity.
Qed.

Lemma clean_Split_render (r rx : bool) (es : list string) :
  Forall (fun e => no_slash e = true) es ->
  clean_elems r (Strings.Split (render rx es)) = clean_elems r es.
Proof. intros H. unfold clean_elems. now rewrite fold_Split_render. Qed.

Lemma rooted_app (a b : string) :
  a <> "" -> rooted (a ++ b) = rooted a.
Proof. destruct a; [congruence|reflexivity]. Qed.

Lemma rooted_no_slash (e : string) :
  no_slash e = true -> rooted e = false.
Proof.
  destruct e as [|c e]; simpl; [reflexivity|].
  intros H. apply andb_true_iff in H as [H _]. now apply negb_true_iff in H.
Qed.

Lemma rooted_Join (e : string) (es : list string) :
  e <> "" -> no_slash e = true -> rooted (Strings.Join (e :: es)) = false.
Proof.
  intros Hne He. destruct es as [|e' es].
  - now apply rooted_no_slash.
  - rewrite Join_cons by discriminate. rewrite rooted_app by assumption.
    now apply rooted_no_slash.
Qed.

Lemma rooted_render (r : bool) (es : list string) :
  canonical r es -> rooted (render r es) = r.
Proof.
  intros (ds & ns & -> & Hds & Hns & Hr). destruct r; [reflexivity|].
  unfold render. destruct ds as [|d ds].
  - destruct ns as [|n ns]; [reflexivity|].
    inversion Hns; subst. simpl app.
    destruct (real_inv n) as (Hn & _ & _ & Hs); [assumption|].
    now apply rooted_Join.
  - inversion Hds; subst. simpl app. now apply rooted_Join.
Qed.

(** [Clean] returns a cleaned path as it is. *)
Lemma Clean_render (r : bool) (es : list string) :
  canonical r es -> Clean (render r es) = render r es.
Proof.
  intros H. unfold Clean. rewrite rooted_render by assumption.
  rewrite clean_Split_render by (eapply canonical_no_slash; eassumption).
  now rewrite clean_elems_fixed.
Qed.

Lemma Clean_is_render (path : string) :
  canonical (rooted path) (clean_elems (rooted path) (Strings.Split path)).
Proof. apply clean_elems_canonical, Split_fields_no_slash. Qed.

Lemma Clean_idempotent (path : string) : Clean (Clean path) = Clean path.
Proof. unfold Clean at 2 3. apply Clean_render, Clean_is_render. Qed.

Lemma Clean_real (e : string) : real e = true -> Clean e = e.
Proof.
  intros H. change e with (render false [e]) at 1 2.
  apply Clean_render, canonical_real. now constructor.
Qed.

(** [Join] of a root that is not empty with a cleaned path without
    [..]: the elements of the path follow those of the root. *)
Lemma Join_under (root : string) (rx : bool) (ns : list string) :
  root <> "" -> Forall (fun e => real e = true) ns ->
  Filepath.Join [root; render rx ns]
  = render (rooted root) (clean_elems (rooted root) (Strings.Split root) ++ ns).
Proof.
  intros Hroot Hns. simpl Filepath.Join.
  apply String.eqb_neq in Hroot as Hb. rewrite Hb. unfold Clean.
  change (root ++ "/" ++ render rx ns)%string
    with (root ++ String "/" (render rx ns))%string.
  rewrite rooted_app, Split_app by assumption. f_equal.
  unfold clean_elems. rewrite fold_left_app, fold_Split_render.
  - rewrite fold_real by assumption. now rewrite rev_app_distr, rev_involutive.
  - eapply Forall_impl; [|exact Hns]. intros e He. now apply real_inv in He.
Qed.

Lemma canonical_rooted_real (es : list string) :
  canonical true es -> Forall (fun e => real e = true) es.
Proof. intros (ds & ns & -> & _ & Hns & Hr). now rewrite (Hr eq_refl). Qed.

End RenderFacts.

(** ** What [prepareAbsolutePath] returns *)

Section Resolve.

Import Filepath Server.

Variable cfg : Configuration.
Hypothesis root_not_empty : RootDirectory cfg <> "".

Lemma root_elems_canonical : canonical (rooted (RootDirectory cfg)) (root_elems cfg).
Proof. apply Clean_is_render. Qed.

(** A name that begins with a slash resolves to the elements of the
    root followed by the real elements of the name. *)
Lemma prepareAbsolutePath_slash (name : string) :
  rooted name = true ->
  prepareAbsolutePath cfg name
  = render (rooted (RootDirectory cfg))
      ((root_elems cfg) ++ clean_elems true (Strings.Split name))
  /\ Forall (fun e => real e = true) (clean_elems true (Strings.Split name)).
Proof.
  intros Hname.
  assert (Hreal : Forall (fun e => real e = true)
                    (clean_elems true (Strings.Split name))).
  { apply canonical_rooted_real, clean_elems_canonical, Split_fields_no_slash. }
  split; [|exact Hreal].
  unfold prepareAbsolutePath, Clean. rewrite Hname.
  now apply Join_under.
Qed.

(** The bare name of a directory entry resolves to that entry of the
    root directory. *)
Lemma prepareAbsolutePath_entry (e : string) :
  real e = true ->
  prepareAbsolutePath cfg e
  = render (rooted (RootDirectory cfg)) ((root_elems cfg) ++ [e]).
Proof.
  intros He. unfold prepareAbsolutePath. rewrite Clean_real by assumption.
  change e with (render false [e]) at 1. apply Join_under; [assumption|].
  now constructor.
Qed.

End Resolve.

(** ** Containment of resolved paths *)

Section Containment.

Import Filepath Server.

Lemma starts_with_app (es ns : list string) : starts_with es (es ++ ns) = true.
Proof.
  induction es as [|e es IH]; simpl; [reflexivity|].
  now rewrite String.eqb_refl, IH.
Qed.

Lemma skipn_length_app (es ns : list string) :
  skipn (List.length es) (es ++ ns) = ns.
Proof. induction es as [|e es IH]; simpl; [reflexivity|exact IH]. Qed.

Lemma real_not_dotdot (ns : list string) :
  Forall (fun e => real e = true) ns ->
  forallb (fun e => negb (String.eqb e "..")) ns = true.
Proof.
  intros H. apply forallb_forall. intros e He.
  rewrite Forall_forall in H. apply H in He.
  apply real_inv in He as (_ & _ & He & _).
  now apply negb_true_iff, String.eqb_neq.
Qed.

Lemma acceptedName_rooted (name : string) :
  acceptedName name = true -> rooted name = true.
Proof.
  unfold acceptedName. destruct name as [|c r]; simpl.
  - discriminate.
  - rewrite andb_true_r, Ascii.eqb_sym. trivial.
Qed.

(** A cleaned path extended by real elements lies within it. *)
Lemma within_render (root : string) (ns : list string) :
  Forall (fun e => real e = true) ns ->
  within root
    (render (rooted root) (clean_elems (rooted root) (Strings.Split root) ++ ns))
  = true.
Proof.
  intros Hns. unfold within.
  pose proof (Clean_is_render root) as Hroot.
  pose proof (canonical_app _ _ _ Hroot Hns) as Hpath.
  rewrite (rooted_render _ _ Hpath).
  rewrite clean_Split_render by (eapply canonical_no_slash; exact Hpath).
  rewrite (clean_elems_fixed _ _ Hpath).
  rewrite Bool.eqb_reflx, starts_with_app, skipn_length_app.
  now rewrite real_not_dotdot.
Qed.

End Containment.

(** C1, as stated, fails: a name that does not begin with a slash keeps
    its leading [..] through [Clean], and [Join] then steps out of the
    root with it. *)
Lemma prepareAbsolutePath_escapes_root :
  Server.prepareAbsolutePath (Server.mkConfiguration 15000 "/srv/data" "")
    "../etc/passwd" = "/srv/etc/passwd"
  /\ Filepath.within "/srv/data"
       (Server.prepareAbsolutePath (Server.mkConfiguration 15000 "/srv/data" "")
          "../etc/passwd") = false.
Proof. split; reflexivity. Qed.

(** C1, amended: for every root directory that is not the empty string
    and every name the transport layer accepts (one that begins with a
    slash), whatever [..] segments and redundant separators it holds,
    the path [prepareAbsolutePath] returns lies within the root. *)
Theorem prepareAbsolutePath_within_root (cfg : Server.Configuration) (name : string) :
  Server.RootDirectory cfg <> "" ->
  Server.acceptedName name = true ->
  Filepath.within (Server.RootDirectory cfg) (Server.prepareAbsolutePath cfg name)
  = true.
Proof.
  intros Hroot Hname. apply acceptedName_rooted in Hname.
  destruct (prepareAbsolutePath_slash cfg Hroot name Hname) as [-> Hreal].
  now apply within_render.
Qed.

Lemma prepareAbsolutePath_within_root_witness :
  Filepath.within "/srv/data"
    (Server.prepareAbsolutePath (Server.mkConfiguration 15000 "/srv/data" "")
       "/a//../../../etc/./passwd") = true.
Proof.
  apply (prepareAbsolutePath_within_root
           (Server.mkConfiguration 15000 "/srv/data" "") "/a//../../../etc/./passwd").
  - discriminate.
  - reflexivity.
Defined.

(** * Facts about the file engine *)

Section ReadFileFacts.

Import Os Server.

Lemma encoder_Write_ok (e : Base64.encoder Http.ResponseWriter) (p : list byte) :
  snd (Base64.Write Http.Write e p) = None.
Proof.
  unfold Base64.Write. destruct (Base64.encode_blocks (Base64.e_buf e ++ p)) as [out rest].
  destruct out; reflexivity.
Qed.

(** [CopyN] of [n] bytes that the source has: they go to the encoder in
    full and no error comes back. *)
Lemma CopyN_available (e : Http.ResponseWriter) (data : list byte) (n : Z) :
  (0 <= n <= Z.of_nat (List.length data))%Z ->
  Io.CopyN (Base64.Write Http.Write) (Base64.NewEncoder e) (data, None) n
  = (fst (Base64.Write Http.Write (Base64.NewEncoder e) (firstn (Z.to_nat n) data)),
     n, None).
Proof.
  intros Hn. unfold Io.CopyN, Io.LimitReader, Io.Copy. cbn [fst snd].
  destruct (Z.leb_spec n 0).
  - assert (n = 0%Z) by lia. subst n. reflexivity.
  - assert (Hpart : Z.of_nat (List.length (firstn (Z.to_nat n) data)) = n).
    { rewrite length_firstn. lia. }
    destruct (Z.leb_spec (Z.of_nat (List.length data)) n).
    + assert (Hlen : Z.to_nat n = List.length data) by lia.
      rewrite Hlen, firstn_all in *. cbn [fst snd].
      destruct data as [|b data]; [simpl in *; lia|].
      pose proof (encoder_Write_ok (Base64.NewEncoder e) (b :: data)) as Hw.
      destruct (Base64.Write Http.Write (Base64.NewEncoder e) (b :: data)) as [e' err].
      cbn [fst snd] in *. subst err. rewrite Hpart, Z.eqb_refl. reflexivity.
    + cbn [fst snd].
      destruct (firstn (Z.to_nat n) data) as [|b part].
      * simpl in Hpart. lia.
      * pose proof (encoder_Write_ok (Base64.NewEncoder e) (b :: part)) as Hw.
        destruct (Base64.Write Http.Write (Base64.NewEncoder e) (b :: part)) as [e' err].
        cbn [fst snd] in *. subst err. rewrite Hpart, Z.eqb_refl. reflexivity.
Qed.

Variable cfg : Configuration.
Variable fs : filesystem.
Variable w : Http.ResponseWriter.
Variable name : string.
Variable d : list byte.
Hypothesis regular :
  find_node (elements (prepareAbsolutePath cfg name)) fs = Ok (Os.File d).

(** [readFile] on a regular file: the two checks, the clamp and the copy. *)
Lemma readFile_regular (offset size : Z) :
  readFile cfg fs w name offset size
  = let fileSize := Z.of_nat (List.length d) in
    if (offset <? 0)%Z || (offset >? fileSize)%Z then
      (w, Some (errorDto errInvalidParameterValue
                  ("offset (" ++ FormatInt offset ++ ")")))
    else if (size <=? 0)%Z || (size >? fileSize)%Z then
      (w, Some (errorDto errInvalidParameterValue
                  ("size (" ++ FormatInt size ++ ")")))
    else
      let size := if (add64 offset size >? fileSize)%Z
                  then sub64 fileSize offset else size in
      match Io.CopyN (Base64.Write Http.Write)
              (Base64.NewEncoder
                 (Http.HeaderSet (Http.WriteHeader w 200)
                    "Content-Type" "text/plain; charset=utf-8"))
              (skipn (Z.to_nat offset) d, None) size with
      | (encoder, _, None) => (Base64.e_w encoder, None)
      | (encoder, _, Some _) =>
          (Base64.e_w encoder, Some (errorDto errReadingFileFailed name))
      end.
Proof.
  unfold readFile, Stat, Open, OpenFile, reader. rewrite regular. simpl.
  destruct (offset <? 0)%Z eqn:Hneg; [reflexivity|].
  destruct (offset >? Z.of_nat (List.length d))%Z; [reflexivity|]. simpl.
  destruct ((size <=? 0)%Z || (size >? Z.of_nat (List.length d))%Z); [reflexivity|].
  unfold Seek. rewrite Hneg. simpl. rewrite regular. reflexivity.
Qed.

Lemma wrap64_small (z : Z) :
  (- 2 ^ 63 <= z < 2 ^ 63)%Z -> wrap64 z = z.
Proof.
  intros H. unfold wrap64. rewrite Z.mod_small by lia. lia.
Qed.

(** With both parameters in their bounds, on a file whose size leaves
    the sum in 64 bits, [readFile] serves the window and returns [nil]. *)
Lemma readFile_window (offset size : Z) :
  let fileSize := Z.of_nat (List.length d) in
  (0 <= offset <= fileSize)%Z -> (0 < size <= fileSize)%Z ->
  (fileSize < 2 ^ 62)%Z ->
  readFile cfg fs w name offset size
  = (served w (window d offset (Z.min size (fileSize - offset))), None).
Proof.
  intros fileSize Hoff Hsize Hbig. rewrite readFile_regular. fold fileSize. cbv zeta.
  replace ((offset <? 0)%Z || (offset >? fileSize)%Z) with false
    by (symmetry; apply orb_false_iff; split; lia).
  replace ((size <=? 0)%Z || (size >? fileSize)%Z) with false
    by (symmetry; apply orb_false_iff; split; lia).
  unfold add64, sub64. rewrite !wrap64_small by lia.
  assert (Hlen : Z.of_nat (List.length (skipn (Z.to_nat offset) d))
                 = (fileSize - offset)%Z).
  { rewrite length_skipn. unfold fileSize. lia. }
  unfold served, window.
  destruct (Z.gtb_spec (offset + size) fileSize).
  - rewrite CopyN_available by lia. rewrite Z.min_r by lia. reflexivity.
  - rewrite CopyN_available by lia. rewrite Z.min_l by lia. reflexivity.
Qed.

End ReadFileFacts.



(** C5, as stated, fails: on a file of ten bytes a read with offset 5
    and size 1000 is refused, since the size exceeds the file size. *)
Lemma readFile_size_1000_refused :
  Server.readFile Sample.cfg (Sample.one_file "f" (Sample.bytes "0123456789"))
    Http.NewResponseWriter "/f" 5 1000
  = (Http.NewResponseWriter,
     Some (Server.errorDto Server.errInvalidParameterValue "size (1000)")).
Proof. reflexivity. Qed.

(** C5, amended: on a regular file of ten bytes a read with offset 5
    and size 1000 returns [InvalidParameterValue]; with offset 5 and a
    size from 6 to 10 the size is clamped to 5: the last five bytes of
    the file are passed to the encoder and no error is returned. *)
Theorem readFile_ten_bytes
    (cfg : Server.Configuration) (fs : Os.filesystem) (w : Http.ResponseWriter)
    (name : string) (d : list byte) :
  Os.find_node (Os.elements (Server.prepareAbsolutePath cfg name)) fs
    = Ok (Os.File d) ->
  List.length d = 10 ->
  Server.readFile cfg fs w name 5 1000
    = (w, Some (Server.errorDto Server.errInvalidParameterValue "size (1000)"))
  /\ forall size : Z, (5 < size <= 10)%Z ->
       Server.readFile cfg fs w name 5 size = (Server.served w (skipn 5 d), None).
Proof.
  intros Hreg Hlen. split.
  - rewrite (readFile_regular cfg fs w name d Hreg), Hlen. reflexivity.
  - intros size Hsize.
    rewrite (readFile_window cfg fs w name d Hreg) by (rewrite Hlen; lia).
    rewrite Hlen, Z.min_r by lia. unfold Server.window.
    change (Z.to_nat 5) with 5. change (Z.to_nat (Z.of_nat 10 - 5)) with 5.
    rewrite firstn_all2; [reflexivity|]. rewrite length_skipn. lia.
Qed.

Lemma readFile_ten_bytes_witness :
  Server.readFile Sample.cfg (Sample.one_file "f" (Sample.bytes "0123456789"))
    Http.NewResponseWriter "/f" 5 1000
    = (Http.NewResponseWriter,
       Some (Server.errorDto Server.errInvalidParameterValue "size (1000)"))
  /\ forall size : Z, (5 < size <= 10)%Z ->
       Server.readFile Sample.cfg (Sample.one_file "f" (Sample.bytes "0123456789"))
         Http.NewResponseWriter "/f" 5 size
       = (Server.served Http.NewResponseWriter (Sample.bytes "56789"), None).
Proof.
  apply (readFile_ten_bytes Sample.cfg
           (Sample.one_file "f" (Sample.bytes "0123456789"))
           Http.NewResponseWriter "/f" (Sample.bytes "0123456789"));
    reflexivity.
Defined.

(** C10: the shared read of an existing, empty regular file returns
    [ReadingFileFailed]: the read of the leading bytes for the content
    sniffing fails at the end of the file, before anything is sent. *)
Theorem writeSharedFileContent_empty_file
    (DetectContentType : list byte -> string)
    (cfg : Server.Configuration) (fs : Os.filesystem) (w : Http.ResponseWriter)
    (name : string) :
  Os.find_node (Os.elements (Server.prepareAbsolutePath cfg name)) fs
    = Ok (Os.File []) ->
  Server.writeSharedFileContent DetectContentType cfg fs w name
  = (w, Some (Server.errorDto Server.errReadingFileFailed name)).
Proof.
  intros Hreg.
  unfold Server.writeSharedFileContent, Os.Open, Os.OpenFile, Os.FStat, Os.Read.
  rewrite Hreg. simpl. rewrite Hreg. reflexivity.
Qed.

Lemma writeSharedFileContent_empty_file_witness :
  Server.writeSharedFileContent (fun _ => "text/plain; charset=utf-8")
    Sample.cfg (Sample.one_file "empty.txt" []) Http.NewResponseWriter "/empty.txt"
  = (Http.NewResponseWriter,
     Some (Server.errorDto Server.errReadingFileFailed "/empty.txt")).
Proof.
  apply (writeSharedFileContent_empty_file (fun _ => "text/plain; charset=utf-8")
           Sample.cfg (Sample.one_file "empty.txt" []) Http.NewResponseWriter
           "/empty.txt").
  reflexivity.
Defined.

(** * Facts about path resolution in the tree *)

Section FindNode.

Import Os.

Lemma find_node_app (p q : list string) (n : node) :
  find_node (p ++ q) n
  = match find_node p n with
    | Ok m => find_node q m
    | Err e => Err e
    end.
Proof.
  revert n. induction p as [|e p IH]; intros n; simpl; [reflexivity|].
  destruct n as [d|es]; [reflexivity|].
  destruct (lookup e es); [apply IH|reflexivity].
Qed.

(** [stat] fails with [ENOTDIR] exactly when a proper ancestor of the
    path is a regular file. *)
Lemma find_node_ENOTDIR (p : list string) (n : node) :
  find_node p n = Err ENOTDIR
  <-> exists q r d, p = q ++ r /\ r <> [] /\ find_node q n = Ok (File d).
Proof.
  revert n. induction p as [|e p IH]; intros n; simpl.
  - split; [discriminate|].
    intros (q & r & d & Hp & Hr & _). symmetry in Hp.
    apply app_eq_nil in Hp as [_ ->]. congruence.
  - destruct n as [d|es].
    + split; [|reflexivity]. intros _. exists [], (e :: p), d.
      repeat split. discriminate.
    + destruct (lookup e es) as [c|] eqn:Hc.
      * rewrite IH. split.
        -- intros (q & r & d & -> & Hr & Hq). exists (e :: q), r, d.
           repeat split; [assumption|]. simpl. now rewrite Hc.
        -- intros (q & r & d & Hp & Hr & Hq). destruct q as [|e' q].
           ++ discriminate.
           ++ simpl in Hp. injection Hp as <- ->. simpl in Hq. rewrite Hc in Hq.
              now exists q, r, d.
      * split; [discriminate|].
        intros (q & r & d & Hp & Hr & Hq). destruct q as [|e' q].
        -- discriminate.
        -- simpl in Hp. injection Hp as <- ->. simpl in Hq. rewrite Hc in Hq.
           discriminate.
Qed.

(** [stat] fails with [ENOENT] exactly when an element of the path is
    missing from a directory that exists. *)
Lemma find_node_ENOENT (p : list string) (n : node) :
  find_node p n = Err ENOENT
  <-> exists q e r es, p = q ++ e :: r /\ find_node q n = Ok (Dir es)
                       /\ lookup e es = None.
Proof.
  revert n. induction p as [|e p IH]; intros n; simpl.
  - split; [discriminate|].
    intros (q & e & r & es & Hp & _). destruct q; discriminate.
  - destruct n as [d|es].
    + split; [discriminate|].
      intros (q & e' & r & es & Hp & Hq & _). destruct q as [|e'' q].
      * discriminate.
      * discriminate.
    + destruct (lookup e es) as [c|] eqn:Hc.
      * rewrite IH. split.
        -- intros (q & e' & r & es' & -> & Hq & He). exists (e :: q), e', r, es'.
           repeat split; [|assumption]. simpl. now rewrite Hc.
        -- intros (q & e' & r & es' & Hp & Hq & He). destruct q as [|e'' q].
           ++ simpl in Hp. injection Hp as <- ->. simpl in Hq.
              injection Hq as <-. congruence.
           ++ simpl in Hp. injection Hp as <- ->. simpl in Hq. rewrite Hc in Hq.
              now exists q, e', r, es'.
      * split; [|reflexivity]. intros _. exists [], e, p, es. now repeat split.
Qed.

Lemma find_node_errors (p : list string) (n : node) (e : error) :
  find_node p n = Err e -> e = ENOENT \/ e = ENOTDIR.
Proof.
  revert n. induction p as [|x p IH]; intros n; simpl; [discriminate|].
  destruct n as [d|es]; [intros [= <-]; now right|].
  destruct (lookup x es); [apply IH|intros [= <-]; now left].
Qed.

End FindNode.

(** C8: for every name, [fileExists] returns no error when the path
    is absent (stat finds an element of it missing and reports
    not-exist): it returns [{name, exists: false}]; when the path is an
    existing regular file it returns [{name, size, exists: true}]; and
    when the path is a directory it returns the [NotAFile] error. *)
Theorem fileExists_cases (cfg : Server.Configuration) (fs : Os.filesystem)
    (name : string) :
  let p := Os.elements (Server.prepareAbsolutePath cfg name) in
  (Os.find_node p fs = Err ENOENT ->
   Server.fileExists cfg fs name
   = Server.Success (Server.mkFile (Some name) None None (Some false)))
  /\ (forall d, Os.find_node p fs = Ok (Os.File d) ->
      Server.fileExists cfg fs name
      = Server.Success
          (Server.mkFile (Some name) (Some (Z.of_nat (List.length d))) None (Some true)))
  /\ (forall es, Os.find_node p fs = Ok (Os.Dir es) ->
      Server.fileExists cfg fs name
      = Server.Failure (Server.errorDto Server.errNotAFile name)).
Proof.
  intros p. unfold Server.fileExists, Os.Stat. fold p.
  repeat split; intros; match goal with H : Os.find_node p fs = _ |- _ => rewrite H end;
    reflexivity.
Qed.

Lemma fileExists_cases_witness :
  Server.fileExists Sample.cfg Sample.tree "/a/missing"
  = Server.Success (Server.mkFile (Some "/a/missing") None None (Some false))
  /\ Server.fileExists Sample.cfg Sample.tree "/a/f.txt"
     = Server.Success (Server.mkFile (Some "/a/f.txt") (Some 1%Z) None (Some true))
  /\ Server.fileExists Sample.cfg Sample.tree "/a/sub"
     = Server.Failure (Server.errorDto Server.errNotAFile "/a/sub").
Proof.
  split; [|split].
  - apply (proj1 (fileExists_cases Sample.cfg Sample.tree "/a/missing")).
    reflexivity.
  - apply (proj1 (proj2 (fileExists_cases Sample.cfg Sample.tree "/a/f.txt"))
             (Sample.bytes "x")).
    reflexivity.
  - apply (proj2 (proj2 (fileExists_cases Sample.cfg Sample.tree "/a/sub")) []).
    reflexivity.
Defined.

(** Any other failure of [stat] is an error of [fileExists]: below a
    regular file [stat] reports not-a-directory. *)
Lemma fileExists_other_stat_failure (cfg : Server.Configuration)
    (fs : Os.filesystem) (name : string) :
  Os.find_node (Os.elements (Server.prepareAbsolutePath cfg name)) fs = Err ENOTDIR ->
  Server.fileExists cfg fs name
  = Server.Failure (Server.errorDto Server.errRetrievingFileInfoFailed name).
Proof.
  intros H. unfold Server.fileExists, Os.Stat. now rewrite H.
Qed.

Example fileExists_below_regular_file :
  Server.fileExists Sample.cfg (Sample.one_file "f.txt" (Sample.bytes "x")) "/f.txt/x"
  = Server.Failure
      (Server.errorDto Server.errRetrievingFileInfoFailed "/f.txt/x").
Proof. reflexivity. Qed.

(** * Facts about changes of the tree *)

Section Entries.

Import Os.

Lemma lookup_put_same (e : string) (c : node) (es : list (string * node)) :
  lookup e (put e c es) = Some c.
Proof.
  induction es as [|[n d] es IH]; simpl.
  - now rewrite String.eqb_refl.
  - destruct (String.eqb n e) eqn:Hn; simpl.
    + now rewrite String.eqb_refl.
    + now rewrite Hn.
Qed.

Lemma lookup_put_other (e e' : string) (c : node) (es : list (string * node)) :
  e <> e' -> lookup e' (put e c es) = lookup e' es.
Proof.
  intros Hne. induction es as [|[n d] es IH]; simpl.
  - apply String.eqb_neq in Hne. now rewrite Hne.
  - destruct (String.eqb_spec n e) as [->|Hn]; simpl.
    + apply String.eqb_neq in Hne. now rewrite Hne.
    + now rewrite IH.
Qed.

Lemma lookup_drop_same (e : string) (es : list (string * node)) :
  lookup e (drop e es) = None.
Proof.
  induction es as [|[n d] es IH]; simpl; [reflexivity|].
  destruct (String.eqb n e) eqn:Hn; simpl; [exact IH|]. now rewrite Hn.
Qed.

Lemma lookup_drop_other (e e' : string) (es : list (string * node)) :
  e <> e' -> lookup e' (drop e es) = lookup e' es.
Proof.
  intros Hne. induction es as [|[n d] es IH]; simpl; [reflexivity|].
  destruct (String.eqb_spec n e) as [->|Hn]; simpl.
  - apply String.eqb_neq in Hne. now rewrite Hne.
  - now rewrite IH.
Qed.

Lemma lookup_In (e : string) (c : node) (es : list (string * node)) :
  lookup e es = Some c -> In (e, c) es.
Proof.
  induction es as [|[n d] es IH]; simpl; [discriminate|].
  destruct (String.eqb_spec n e) as [->|Hn].
  - intros [= ->]. now left.
  - intros H. right. now apply IH.
Qed.

Lemma In_lookup (e : string) (c : node) (es : list (string * node)) :
  NoDup (map fst es) -> In (e, c) es -> lookup e es = Some c.
Proof.
  induction es as [|[n d] es IH]; simpl; [contradiction|].
  intros Hnd [Hin|Hin].
  - injection Hin as -> ->. now rewrite String.eqb_refl.
  - inversion Hnd as [|? ? Hn Hnd']; subst.
    destruct (String.eqb_spec n e) as [->|Hne].
    + exfalso. apply Hn. change e with (fst (e, c)). now apply in_map.
    + now apply IH.
Qed.

Lemma distinct_NoDup (l : list string) : distinct l = true -> NoDup l.
Proof.
  induction l as [|x l IH]; simpl; intros H; [constructor|].
  apply andb_true_iff in H as [Hx Hl]. constructor; [|now apply IH].
  intros Hin. apply negb_true_iff in Hx.
  assert (existsb (String.eqb x) l = true); [|congruence].
  apply existsb_exists. exists x. split; [assumption|apply String.eqb_refl].
Qed.

Lemma alter_single (f : option node -> result (option node)) (e : string)
    (es : list (string * node)) :
  alter f [e] (Dir es)
  = match f (lookup e es) with
    | Ok (Some c) => Ok (Dir (put e c es))
    | Ok None => Ok (Dir (drop e es))
    | Err x => Err x
    end.
Proof. reflexivity. Qed.

Lemma alter_cons (f : option node -> result (option node)) (e : string)
    (p : list string) (es : list (string * node)) :
  p <> [] ->
  alter f (e :: p) (Dir es)
  = match lookup e es with
    | Some c =>
        match alter f p c with
        | Ok c' => Ok (Dir (put e c' es))
        | Err x => Err x
        end
    | None => Err ENOENT
    end.
Proof. destruct p; [congruence|reflexivity]. Qed.

(** A call on an entry of an existing directory changes that entry as
    the call says and leaves the directory in its place. *)
Lemma alter_at (f : option node -> result (option node)) (q : list string)
    (e : string) (fs : node) (es : list (string * node)) (o : option node) :
  find_node q fs = Ok (Dir es) -> f (lookup e es) = Ok o ->
  exists fs', alter f (q ++ [e]) fs = Ok fs'
              /\ find_node q fs' = Ok (Dir (after o e es)).
Proof.
  revert fs. induction q as [|x q IH]; intros fs Hq Hf; simpl in Hq.
  - injection Hq as ->. simpl app. rewrite alter_single, Hf.
    destruct o; eexists; split; reflexivity.
  - destruct fs as [d|es0]; [discriminate|].
    destruct (lookup x es0) as [c|] eqn:Hx; [|discriminate].
    destruct (IH c Hq Hf) as (c' & Hc' & Hfind).
    simpl app. rewrite alter_cons by (destruct q; discriminate).
    rewrite Hx, Hc'. eexists. split; [reflexivity|].
    simpl. now rewrite lookup_put_same.
Qed.

Lemma alter_at_error (f : option node -> result (option node)) (q : list string)
    (e : string) (fs : node) (es : list (string * node)) (x : error) :
  find_node q fs = Ok (Dir es) -> f (lookup e es) = Err x ->
  alter f (q ++ [e]) fs = Err x.
Proof.
  revert fs. induction q as [|y q IH]; intros fs Hq Hf; simpl in Hq.
  - injection Hq as ->. simpl app. now rewrite alter_single, Hf.
  - destruct fs as [d|es0]; [discriminate|].
    destruct (lookup y es0) as [c|] eqn:Hy; [|discriminate].
    simpl app. rewrite alter_cons by (destruct q; discriminate).
    now rewrite Hy, (IH c Hq Hf).
Qed.

End Entries.

(** * Facts about the directory engine *)

Section ReadDirFacts.

Import Os.

Lemma insert_info_perm (i : FileInfo) (l : list FileInfo) :
  Permutation (i :: l) (insert_info i l).
Proof.
  induction l as [|j l IH]; simpl; [apply Permutation_refl|].
  destruct (String.leb (Name i) (Name j)); [apply Permutation_refl|].
  eapply Permutation_trans; [apply perm_swap|]. now apply perm_skip.
Qed.

Lemma sort_infos_perm (l : list FileInfo) : Permutation l (sort_infos l).
Proof.
  induction l as [|i l IH]; simpl; [constructor|].
  eapply Permutation_trans; [|apply insert_info_perm]. now apply perm_skip.
Qed.

End ReadDirFacts.

Section RootFacts.

Import Filepath Os Server.

Lemma Join_not_empty (e : string) (es : list string) :
  e <> "" -> Strings.Join (e :: es) <> "".
Proof.
  intros He. destruct es as [|e' es]; [exact He|].
  rewrite Join_cons by discriminate. destruct e; [congruence|discriminate].
Qed.

Lemma render_not_empty (r : bool) (es : list string) :
  canonical r es -> render r es <> "".
Proof.
  intros (ds & ns & -> & Hds & Hns & _). unfold render.
  destruct r; [discriminate|].
  destruct ds as [|d ds].
  - destruct ns as [|n ns]; [discriminate|].
    inversion Hns; subst. destruct (real_inv n) as (Hn & _); [assumption|].
    now apply Join_not_empty.
  - inversion Hds; subst. now apply Join_not_empty.
Qed.

Lemma Clean_not_empty (path : string) : Clean path <> "".
Proof. apply render_not_empty, Clean_is_render. Qed.

Variable cfg : Configuration.

(** A name resolves to the root only when the root is a cleaned path. *)
Lemma resolves_to_root (name : string) :
  prepareAbsolutePath cfg name = RootDirectory cfg ->
  RootDirectory cfg <> "" /\ Clean (RootDirectory cfg) = RootDirectory cfg.
Proof.
  unfold prepareAbsolutePath. simpl Filepath.Join.
  destruct (String.eqb_spec (RootDirectory cfg) "") as [Hroot|Hroot].
  - rewrite Hroot.
    pose proof (Clean_not_empty name) as Hn. apply String.eqb_neq in Hn.
    rewrite Hn. intros H. now apply Clean_not_empty in H.
  - intros H. split; [assumption|]. rewrite <- H. apply Clean_idempotent.
Qed.

Hypothesis root_not_empty : RootDirectory cfg <> "".
Hypothesis root_clean : Clean (RootDirectory cfg) = RootDirectory cfg.

Lemma root_render :
  RootDirectory cfg = render (rooted (RootDirectory cfg)) (root_elems cfg).
Proof. symmetry. exact root_clean. Qed.

(** The bare name of an entry resolves to the entry of that name in
    the root directory. *)
Lemma elements_entry (e : string) :
  real e = true ->
  elements (prepareAbsolutePath cfg e) = elements (RootDirectory cfg) ++ [e].
Proof.
  intros He. rewrite (prepareAbsolutePath_entry cfg root_not_empty e He).
  replace (elements (RootDirectory cfg))
    with (elements (render (rooted (RootDirectory cfg)) (root_elems cfg)))
    by (now rewrite <- root_render).
  unfold elements.
  pose proof (root_elems_canonical cfg) as Hc.
  assert (Hreal : Forall (fun x => real x = true) [e]) by now constructor.
  rewrite !clean_Split_render.
  - destruct Hc as (ds & ns & Heq & Hds & Hns & _). rewrite Heq.
    rewrite <- app_assoc.
    rewrite !clean_elems_rooted; try assumption; [reflexivity|].
    apply Forall_app. now split.
  - eapply canonical_no_slash; exact Hc.
  - eapply canonical_no_slash. apply canonical_app; eassumption.
Qed.

Lemma prepareAbsolutePath_root : prepareAbsolutePath cfg "/" = RootDirectory cfg.
Proof.
  destruct (prepareAbsolutePath_slash cfg root_not_empty "/" eq_refl) as [-> _].
  change (clean_elems true (Strings.Split "/")) with (@nil string).
  rewrite app_nil_r. symmetry. apply root_render.
Qed.

End RootFacts.

Section DeleteRoot.

Import Filepath Os Server.

Variable cfg : Configuration.
Hypothesis root_not_empty : RootDirectory cfg <> "".
Hypothesis root_clean : Clean (RootDirectory cfg) = RootDirectory cfg.

(** The loop of [deleteDirectory] over entries of the root directory:
    every one is removed, whatever it is. *)
Lemma deleteDirectory_entries_root (infos : list FileInfo) :
  forall (fs : filesystem) (es : list (string * node)),
  find_node (elements (RootDirectory cfg)) fs = Ok (Dir es) ->
  Forall (fun i => real (Name i) = true
                   /\ exists c, lookup (Name i) es = Some c
                                /\ IsDir i = node_is_dir c) infos ->
  NoDup (map Name infos) ->
  exists fs',
    deleteDirectory_entries cfg infos fs = (fs', None)
    /\ find_node (elements (RootDirectory cfg)) fs'
       = Ok (Dir (fold_left (fun es i => drop (Name i) es) infos es)).
Proof.
  induction infos as [|i infos IH]; intros fs es Hfind Hall Hnd.
  - exists fs. now split.
  - inversion Hall as [|? ? (Hreal & c & Hlook & Hdir) Hrest]; subst.
    inversion Hnd as [|? ? Hnotin Hnd']; subst.
    assert (Hnext : forall fs1,
               find_node (elements (RootDirectory cfg)) fs1
                 = Ok (Dir (drop (Name i) es)) ->
               exists fs',
                 deleteDirectory_entries cfg infos fs1 = (fs', None)
                 /\ find_node (elements (RootDirectory cfg)) fs'
                    = Ok (Dir (fold_left (fun es i => drop (Name i) es) infos
                                 (drop (Name i) es)))).
    { intros fs1 Hf1. apply IH; [assumption| |assumption].
      rewrite Forall_forall in *. intros j Hj.
      destruct (Hrest j Hj) as (Hrj & cj & Hlj & Hdj).
      split; [assumption|]. exists cj. split; [|assumption].
      rewrite lookup_drop_other; [assumption|].
      intros Heq. apply Hnotin. rewrite Heq. now apply in_map. }
    simpl deleteDirectory_entries. simpl fold_left.
    destruct (IsDir i) eqn:Hi.
    + unfold RemoveAll.
      rewrite (elements_entry cfg root_not_empty root_clean _ Hreal).
      destruct (alter_at (fun _ => Ok None) _ (Name i) fs es None Hfind eq_refl)
        as (fs1 & -> & Hf1).
      now apply Hnext.
    + unfold Remove.
      rewrite (elements_entry cfg root_not_empty root_clean _ Hreal).
      assert (Hrm : remove_entry (lookup (Name i) es) = Ok None).
      { rewrite Hlook. destruct c; [reflexivity|discriminate]. }
      destruct (alter_at remove_entry _ (Name i) fs es None Hfind Hrm)
        as (fs1 & -> & Hf1).
      now apply Hnext.
Qed.

Lemma drop_all (infos : list FileInfo) :
  forall es : list (string * node),
  (forall e, In e es -> In (fst e) (map Name infos)) ->
  fold_left (fun es i => drop (Name i) es) infos es = [].
Proof.
  induction infos as [|i infos IH]; intros es Hcover; simpl.
  - destruct es as [|e es]; [reflexivity|]. destruct (Hcover e). now left.
  - apply IH. intros e He. unfold drop in He. apply filter_In in He as [He Hne].
    apply negb_true_iff, String.eqb_neq in Hne.
    destruct (Hcover e He) as [Heq|Hin]; [congruence|assumption].
Qed.

Lemma deleteDirectory_all_of_root (fs : filesystem) (es : list (string * node)) :
  find_node (elements (RootDirectory cfg)) fs = Ok (Dir es) ->
  well_named es = true ->
  exists fs',
    deleteDirectory_entries cfg
      (sort_infos (map (fun e => info_of (fst e) (snd e)) es)) fs = (fs', None)
    /\ find_node (elements (RootDirectory cfg)) fs' = Ok (Dir []).
Proof.
  intros Hfind Hwn. apply andb_true_iff in Hwn as [Hreal Hdist].
  apply distinct_NoDup in Hdist. rewrite forallb_forall in Hreal.
  set (infos := map (fun e => info_of (fst e) (snd e)) es).
  pose proof (sort_infos_perm infos) as Hperm.
  assert (Hnames : map Name infos = map fst es).
  { unfold infos. rewrite map_map. reflexivity. }
  destruct (deleteDirectory_entries_root (sort_infos infos) fs es Hfind)
    as (fs' & Hloop & Hfind').
  - rewrite Forall_forall. intros i Hi.
    apply (Permutation_in _ (Permutation_sym Hperm)) in Hi.
    unfold infos in Hi. apply in_map_iff in Hi as ([n c] & <- & Hin). simpl.
    split; [exact (Hreal _ Hin)|]. exists c. split; [|reflexivity].
    now apply In_lookup.
  - apply (Permutation_NoDup (Permutation_map Name Hperm)). now rewrite Hnames.
  - exists fs'. split; [assumption|]. rewrite Hfind'. do 2 f_equal.
    apply drop_all. intros e He.
    apply (Permutation_in _ (Permutation_map Name Hperm)).
    rewrite Hnames. now apply in_map.
Qed.

End DeleteRoot.

(** Where the resolved path is the configured root directory, as the
    test of the code requires (a root written in its cleaned form),
    [deleteDirectory] with the [all] flag removes all the entries of
    the root and keeps the root itself; it returns a directory named
    with the root symbol, and [directoryContent] of [/] then succeeds
    and lists nothing. *)
Theorem deleteDirectory_root_survives
    (cfg : Server.Configuration) (fs : Os.filesystem) (name : string)
    (es : list (string * Os.node)) :
  Server.prepareAbsolutePath cfg name = Server.RootDirectory cfg ->
  Os.find_node (Os.elements (Server.RootDirectory cfg)) fs = Ok (Os.Dir es) ->
  Os.well_named es = true ->
  exists fs',
    Server.deleteDirectory cfg fs name true
      = (fs', Server.Success (Server.mkDirectory Server.RootSymbol [] []))
    /\ Os.find_node (Os.elements (Server.RootDirectory cfg)) fs' = Ok (Os.Dir [])
    /\ Server.directoryContent cfg fs' "/"
       = Server.Success (Server.mkDirectory Server.RootSymbol [] []).
Proof.
  intros Hname Hfind Hwn.
  destruct (resolves_to_root cfg name Hname) as [Hne Hclean].
  destruct (deleteDirectory_all_of_root cfg Hne Hclean fs es Hfind Hwn)
    as (fs' & Hloop & Hfind').
  exists fs'. split; [|split; [assumption|]].
  - unfold Server.deleteDirectory, Os.ReadDir.
    rewrite Hname, Hfind, Hloop, String.eqb_refl. reflexivity.
  - unfold Server.directoryContent, Os.ReadDir.
    rewrite (prepareAbsolutePath_root cfg Hne Hclean), Hfind', String.eqb_refl.
    reflexivity.
Qed.

Lemma deleteDirectory_root_survives_witness :
  exists fs',
    Server.deleteDirectory Sample.cfg Sample.nested "/" true
      = (fs', Server.Success (Server.mkDirectory Server.RootSymbol [] []))
    /\ Os.find_node (Os.elements "/srv/data") fs' = Ok (Os.Dir [])
    /\ Server.directoryContent Sample.cfg fs' "/"
       = Server.Success (Server.mkDirectory Server.RootSymbol [] []).
Proof.
  apply (deleteDirectory_root_survives Sample.cfg Sample.nested "/"
           [("a", Os.Dir [("f", Os.File (Sample.bytes "inner"))]);
            ("f", Os.File (Sample.bytes "outer"))]);
    reflexivity.
Defined.

(** A root directory that [filepath.Clean] changes is never what
    [prepareAbsolutePath] returns: the test that spares the root
    cannot hold for it, whatever the name. *)
Lemma prepareAbsolutePath_cleaned (cfg : Server.Configuration) (name : string) :
  Filepath.Clean (Server.prepareAbsolutePath cfg name)
  = Server.prepareAbsolutePath cfg name.
Proof.
  unfold Server.prepareAbsolutePath. cbn [Filepath.Join].
  destruct (String.eqb (Server.RootDirectory cfg) "").
  - destruct (String.eqb_spec (Filepath.Clean name) "") as [He|_].
    + now elim (Clean_not_empty name).
    + apply Clean_idempotent.
  - apply Clean_idempotent.
Qed.

Lemma root_test_never_holds (cfg : Server.Configuration) (name : string) :
  Filepath.Clean (Server.RootDirectory cfg) <> Server.RootDirectory cfg ->
  String.eqb (Server.prepareAbsolutePath cfg name) (Server.RootDirectory cfg) = false.
Proof.
  intros Hroot. apply String.eqb_neq. intros Heq. apply Hroot.
  rewrite <- Heq. apply prepareAbsolutePath_cleaned.
Qed.

(** C7: with the root directory configured as [/srv/data/],
    [deleteDirectory] with the [all] flag on [/] removes the entries of
    the root and then the root itself: the resolved path is
    [/srv/data], not the configured string, so the test that should
    spare the root does not hold.  The call returns a directory named
    [data] instead of the root symbol, and [directoryContent] of [/]
    then fails. *)
Theorem deleteDirectory_root_removed :
  let cfg := Server.mkConfiguration 15000 "/srv/data/" "" in
  Server.prepareAbsolutePath cfg "/" = "/srv/data"
  /\ Server.deleteDirectory cfg Sample.nested "/" true
     = (Os.Dir [("srv", Os.Dir [])],
        Server.Success (Server.mkDirectory "data" [] []))
  /\ Server.directoryContent cfg (Os.Dir [("srv", Os.Dir [])]) "/"
     = Server.Failure
         (Server.errorDto Server.errReadingDirectoryContentFailed "/").
Proof. repeat split. Qed.

(** * Facts about the base64 codec *)

Section Base64Facts.

Import Base64.

Lemma decode_encode_char (s : sextet) : decode_char (encode_char s) = Some s.
Proof.
  destruct s as [[[[[b5 b4] b3] b2] b1] b0].
  destruct b5, b4, b3, b2, b1, b0; reflexivity.
Qed.

Lemma encode_char_not_newline (s : sextet) : is_newline (encode_char s) = false.
Proof.
  destruct s as [[[[[b5 b4] b3] b2] b1] b0].
  destruct b5, b4, b3, b2, b1, b0; reflexivity.
Qed.

Lemma decode_encode_quantum (a b c : byte) (rest : list byte) :
  decode_quanta (encode_quantum a b c ++ rest)
  = (a :: b :: c :: fst (decode_quanta rest), snd (decode_quanta rest)).
Proof.
  unfold encode_quantum.
  destruct (Byte.to_bits a) as (a0 & a1 & a2 & a3 & a4 & a5 & a6 & a7) eqn:Ea.
  destruct (Byte.to_bits b) as (b0 & b1 & b2 & b3 & b4 & b5 & b6 & b7) eqn:Eb.
  destruct (Byte.to_bits c) as (c0 & c1 & c2 & c3 & c4 & c5 & c6 & c7) eqn:Ec.
  cbn [app decode_quanta]. rewrite !decode_encode_char.
  destruct (decode_quanta rest) as [out err]. cbn [decode_quantum app fst snd].
  rewrite <- Ea, <- Eb, <- Ec, !Byte.of_bits_to_bits. reflexivity.
Qed.

Lemma decode_encode_tail (rest : list byte) :
  List.length rest < 3 -> decode_quanta (encode_tail rest) = (rest, None).
Proof.
  intros Hlen. destruct rest as [|a [|b [|c rest]]].
  - reflexivity.
  - unfold encode_tail.
    destruct (Byte.to_bits a) as (a0 & a1 & a2 & a3 & a4 & a5 & a6 & a7) eqn:Ea.
    cbn [decode_quanta]. rewrite !decode_encode_char.
    cbn -[Byte.of_bits]. rewrite <- Ea, Byte.of_bits_to_bits. reflexivity.
  - unfold encode_tail.
    destruct (Byte.to_bits a) as (a0 & a1 & a2 & a3 & a4 & a5 & a6 & a7) eqn:Ea.
    destruct (Byte.to_bits b) as (b0 & b1 & b2 & b3 & b4 & b5 & b6 & b7) eqn:Eb.
    cbn [decode_quanta]. rewrite !decode_encode_char.
    cbn -[Byte.of_bits]. rewrite <- Ea, <- Eb, !Byte.of_bits_to_bits. reflexivity.
  - simpl in Hlen. lia.
Qed.

(** Lists are taken three bytes at a time. *)
Lemma by_quanta (P : list byte -> Prop) :
  (forall l, List.length l < 3 -> P l) ->
  (forall a b c l, P l -> P (a :: b :: c :: l)) ->
  forall l, P l.
Proof.
  intros Hshort Hstep l.
  assert (H : forall n l, List.length l <= n -> P l).
  { induction n as [|n IH]; intros l' Hl.
    - apply Hshort. lia.
    - destruct l' as [|a [|b [|c l']]]; try (apply Hshort; simpl; lia).
      apply Hstep, IH. simpl in Hl. lia. }
  apply (H (List.length l)). lia.
Qed.

Lemma encode_blocks_rest (src : list byte) :
  List.length (snd (encode_blocks src)) < 3.
Proof.
  induction src as [l Hl|a b c l IH] using by_quanta.
  - destruct l as [|a [|b [|c l]]]; simpl in *; lia.
  - simpl. destruct (encode_blocks l). exact IH.
Qed.

Lemma encode_blocks_rest_le (src : list byte) :
  List.length (snd (encode_blocks src)) <= List.length src.
Proof.
  induction src as [l Hl|a b c l IH] using by_quanta.
  - destruct l as [|a [|b [|c l]]]; simpl in *; lia.
  - simpl. destruct (encode_blocks l). simpl in *. lia.
Qed.

Lemma decode_encode_blocks (src : list byte) (tail : list byte) :
  decode_quanta (fst (encode_blocks src) ++ tail)
  = (firstn (List.length src - List.length (snd (encode_blocks src))) src
       ++ fst (decode_quanta tail),
     snd (decode_quanta tail)).
Proof.
  induction src as [l Hl|a b c l IH] using by_quanta.
  - destruct l as [|a [|b [|c l]]]; simpl in Hl; try lia; simpl;
      rewrite ?Nat.sub_diag; simpl; now destruct (decode_quanta tail).
  - pose proof (encode_blocks_rest_le l) as Hle.
    simpl encode_blocks. destruct (encode_blocks l) as [out rest] eqn:Hl.
    cbn [fst snd] in *. rewrite <- app_assoc, decode_encode_quantum, IH.
    cbn [fst snd].
    replace (List.length (a :: b :: c :: l) - List.length rest)
      with (S (S (S (List.length l - List.length rest))))
      by (cbn [List.length]; lia).
    reflexivity.
Qed.

Lemma encode_blocks_split (src : list byte) :
  firstn (List.length src - List.length (snd (encode_blocks src))) src
    ++ snd (encode_blocks src) = src.
Proof.
  induction src as [l Hl|a b c l IH] using by_quanta.
  - destruct l as [|a [|b [|c l]]]; simpl in Hl; try lia; simpl;
      rewrite ?Nat.sub_diag; reflexivity.
  - pose proof (encode_blocks_rest_le l) as Hle.
    simpl encode_blocks. destruct (encode_blocks l) as [out rest] eqn:Hl.
    cbn [fst snd] in *.
    replace (List.length (a :: b :: c :: l) - List.length rest)
      with (S (S (S (List.length l - List.length rest))))
      by (cbn [List.length]; lia).
    simpl. now rewrite IH.
Qed.

Lemma encode_quantum_no_newline (a b c : byte) :
  Forall (fun x => is_newline x = false) (encode_quantum a b c).
Proof.
  unfold encode_quantum.
  destruct (Byte.to_bits a) as (a0 & a1 & a2 & a3 & a4 & a5 & a6 & a7).
  destruct (Byte.to_bits b) as (b0 & b1 & b2 & b3 & b4 & b5 & b6 & b7).
  destruct (Byte.to_bits c) as (c0 & c1 & c2 & c3 & c4 & c5 & c6 & c7).
  repeat constructor; apply encode_char_not_newline.
Qed.

Lemma encode_blocks_no_newline (src : list byte) :
  Forall (fun x => is_newline x = false) (fst (encode_blocks src)).
Proof.
  induction src as [l Hl|a b c l IH] using by_quanta.
  - destruct l as [|a [|b [|c l]]]; simpl in Hl; try lia; constructor.
  - simpl. destruct (encode_blocks l). apply Forall_app. split.
    + apply encode_quantum_no_newline.
    + exact IH.
Qed.

Lemma encode_tail_no_newline (rest : list byte) :
  Forall (fun x => is_newline x = false) (encode_tail rest).
Proof.
  destruct rest as [|a [|b [|c rest]]]; try constructor.
  - unfold encode_tail.
    destruct (Byte.to_bits a) as (a0 & a1 & a2 & a3 & a4 & a5 & a6 & a7).
    repeat constructor; apply encode_char_not_newline.
  - unfold encode_tail.
    destruct (Byte.to_bits a) as (a0 & a1 & a2 & a3 & a4 & a5 & a6 & a7).
    destruct (Byte.to_bits b) as (b0 & b1 & b2 & b3 & b4 & b5 & b6 & b7).
    repeat constructor; apply encode_char_not_newline.
Qed.

Lemma filter_all {A : Type} (f : A -> bool) (l : list A) :
  Forall (fun x => f x = true) l -> filter f l = l.
Proof.
  induction 1 as [|x l Hx _ IH]; simpl; [reflexivity|]. now rewrite Hx, IH.
Qed.

(** The decoder reads back what the closed encoder wrote. *)
Lemma NewDecoder_EncodeToString (src : list byte) :
  NewDecoder (EncodeToString src) = (src, None).
Proof.
  unfold NewDecoder, EncodeToString.
  pose proof (encode_blocks_no_newline src) as Hb.
  pose proof (decode_encode_blocks src) as Hd.
  pose proof (encode_blocks_split src) as Hs.
  pose proof (encode_blocks_rest src) as Hr.
  destruct (encode_blocks src) as [out rest]. cbn [fst snd] in *.
  rewrite filter_all.
  - rewrite Hd, decode_encode_tail by assumption. cbn [fst snd]. now rewrite Hs.
  - apply Forall_app. split.
    + eapply Forall_impl; [|exact Hb]. intros x Hx. now rewrite Hx.
    + eapply Forall_impl; [|apply encode_tail_no_newline].
      intros x Hx. now rewrite Hx.
Qed.

(** A source of whole quanta is encoded without a rest. *)
Lemma encode_blocks_whole (src : list byte) :
  List.length src mod 3 = 0 -> snd (encode_blocks src) = [].
Proof.
  induction src as [l Hl|a b c l IH] using by_quanta; intros Hmod.
  - destruct l as [|a [|b [|c l]]]; simpl in Hl; try lia;
      [reflexivity|discriminate|discriminate].
  - simpl. destruct (encode_blocks l) as [out rest] eqn:Hl. apply IH.
    change (List.length (a :: b :: c :: l)) with (3 + List.length l) in Hmod.
    replace (3 + List.length l) with (List.length l + 1 * 3) in Hmod by lia.
    now rewrite Nat.Div0.mod_add in Hmod.
Qed.

End Base64Facts.

(** * Facts about writing files *)

Section WriteFacts.

Import Os Server.

Lemma alter_Ok (f : option node -> result (option node)) (p : list string) :
  forall fs fs' : node,
  alter f p fs = Ok fs' ->
  exists q e es o, p = q ++ [e] /\ find_node q fs = Ok (Dir es)
                   /\ f (lookup e es) = Ok o
                   /\ find_node q fs' = Ok (Dir (after o e es)).
Proof.
  induction p as [|x p IH]; intros fs fs' H.
  - simpl in H. destruct (f (Some fs)); discriminate.
  - destruct fs as [d|es0]; [discriminate|]. destruct p as [|y p'].
    + rewrite alter_single in H. exists [], x, es0.
      destruct (f (lookup x es0)) as [[c|]|] eqn:Hf; try discriminate;
        injection H as <-; eexists; repeat split; reflexivity.
    + rewrite alter_cons in H by discriminate.
      destruct (lookup x es0) as [c|] eqn:Hx; [|discriminate].
      destruct (alter f (y :: p') c) as [c'|] eqn:Ha; [|discriminate].
      injection H as <-.
      destruct (IH _ _ Ha) as (q & e & es & o & Hp & Hq & Hf & Hq').
      exists (x :: q), e, es, o. split; [simpl; now rewrite Hp|].
      split; [simpl; now rewrite Hx|]. split; [assumption|].
      simpl. now rewrite lookup_put_same.
Qed.

Lemma find_node_last (q : list string) (e : string) (fs n : node) :
  find_node (q ++ [e]) fs = Ok n ->
  exists es, find_node q fs = Ok (Dir es) /\ lookup e es = Some n.
Proof.
  rewrite find_node_app. destruct (find_node q fs) as [m|]; [|discriminate].
  simpl. destruct m as [d|es]; [discriminate|].
  destruct (lookup e es) as [c|] eqn:Hc; [|discriminate].
  intros [= <-]. now exists es.
Qed.

Lemma find_node_entry (q : list string) (e : string) (fs : node)
    (es : list (string * node)) :
  find_node q fs = Ok (Dir es) ->
  find_node (q ++ [e]) fs
  = match lookup e es with Some c => Ok c | None => Err ENOENT end.
Proof. intros H. rewrite find_node_app, H. reflexivity. Qed.

Lemma overwrite_start (old data : list byte) :
  overwrite old 0 data = data ++ skipn (List.length data) old.
Proof. reflexivity. Qed.

(** The copy of a decoded body into a regular file opened for writing
    at offset 0 without [O_APPEND]. *)
Lemma Copy_into_file (fs1 fs2 : filesystem) (p : list string) (nm : string)
    (f2 : file) (n : Z) (data old : list byte) (derr : option error) :
  find_node p fs1 = Ok (Os.File old) ->
  Io.Copy writer (fs1, mkfile p nm 0 false) (data, derr) = ((fs2, f2), n, None) ->
  derr = None
  /\ find_node p fs2 = Ok (Os.File (data ++ skipn (List.length data) old))
  /\ f_path f2 = p.
Proof.
  intros Hold. unfold Io.Copy. cbn [fst snd].
  destruct data as [|b data].
  - intros [= <- <- _ ->]. repeat split. exact Hold.
  - unfold writer, Write. cbn [fst snd f_path f_append f_pos f_name].
    destruct (alter _ p fs1) as [fs'|x] eqn:Ha; [|discriminate].
    intros [= <- <- _ ->]. repeat split.
    destruct (alter_Ok _ _ _ _ Ha) as (q & e & es & o & -> & Hq & Hf & Hq').
    destruct (find_node_last _ _ _ _ Hold) as (es' & Hq2 & Hl).
    rewrite Hq in Hq2. injection Hq2 as <-. rewrite Hl in Hf.
    injection Hf as <-. rewrite (find_node_entry _ _ _ _ Hq'). simpl.
    now rewrite lookup_put_same.
Qed.

End WriteFacts.

(** C3, as stated, fails: [fileWrite] opens the file with
    [O_CREATE|O_WRONLY] and without [O_TRUNC], so a body shorter than
    the file replaces only its first bytes. *)
Lemma fileWrite_keeps_old_tail :
  Base64.NewDecoder (Sample.bytes "aGk=") = (Sample.bytes "hi", None)
  /\ Server.fileWrite Sample.cfg (Sample.one_file "f" (Sample.bytes "hello world"))
       (Sample.bytes "aGk=") "/f"
     = (Sample.one_file "f" (Sample.bytes "hillo world"),
        Server.Success (Server.mkFile (Some "/f") (Some 11%Z) None None)).
Proof. split; reflexivity. Qed.

(** What a successful [fileWrite] leaves: the decoded body at the
    start of the file and the rest of the older content behind it. *)
Lemma fileWrite_content
    (cfg : Server.Configuration) (fs fs' : Os.filesystem) (reqBody : list byte)
    (name : string) (file : Server.File) :
  Server.fileWrite cfg fs reqBody name = (fs', Server.Success file) ->
  let p := Os.elements (Server.prepareAbsolutePath cfg name) in
  let old := match Os.find_node p fs with Ok (Os.File o) => o | _ => [] end in
  let data := fst (Base64.NewDecoder reqBody) in
  let content := data ++ skipn (List.length data) old in
  snd (Base64.NewDecoder reqBody) = None
  /\ Os.find_node p fs' = Ok (Os.File content)
  /\ file = Server.mkFile (Some name) (Some (Z.of_nat (List.length content))) None None.
Proof.
  intros H p old data content. unfold Server.fileWrite, Os.OpenFile in H.
  fold p in H. simpl Os.has in H.
  destruct (Base64.NewDecoder reqBody) as [data' derr] eqn:Hdec.
  cbn [fst snd] in *. subst data.
  assert (Hcopy : forall fs1 old1,
             Os.find_node p fs1 = Ok (Os.File old1) -> old1 = old ->
             match Io.Copy Os.writer
                     (fs1, Os.mkfile p (Server.prepareAbsolutePath cfg name) 0 false)
                     (data', derr) with
             | (fs2, file2, _, None) =>
                 (fs2, Server.Success
                         (Server.mkFile (Some name)
                            (Some (Server.stat_size fs2 file2)) None None))
             | (fs2, _, _, Some _) =>
                 (fs2, Server.Failure (Server.errorDto Server.errWritingFileFailed name))
             end = (fs', Server.Success file) ->
             derr = None /\ Os.find_node p fs' = Ok (Os.File content)
             /\ file = Server.mkFile (Some name)
                         (Some (Z.of_nat (List.length content))) None None).
  { intros fs1 old1 Hold1 -> Hres.
    destruct (Io.Copy _ _ _) as [[[fs2 file2] n] [e|]] eqn:Hc; [discriminate|].
    destruct (Copy_into_file _ _ _ _ _ _ _ _ _ Hold1 Hc) as (-> & Hf2 & Hp2).
    injection Hres as <- <-. repeat split; [exact Hf2|].
    unfold Server.stat_size, Os.FStat. rewrite Hp2, Hf2. reflexivity. }
  destruct (Os.find_node p fs) as [[o|es]|e] eqn:Hfind.
  - apply (Hcopy fs o Hfind eq_refl H).
  - discriminate.
  - destruct e; try discriminate.
    destruct (Os.alter _ p fs) as [fs1|x] eqn:Ha; [|discriminate].
    destruct (alter_Ok _ _ _ _ Ha) as (q & e & es & o & Hp & Hq & Hf & Hq').
    injection Hf as <-.
    assert (Hnew : Os.find_node p fs1 = Ok (Os.File [])).
    { rewrite Hp, (find_node_entry _ _ _ _ Hq'). simpl.
      now rewrite lookup_put_same. }
    apply (Hcopy fs1 [] Hnew eq_refl H).
Qed.

(** [fileWrite] succeeds when the directory of the file exists, the
    name is free or that of a regular file, and the body decodes. *)
Lemma fileWrite_succeeds
    (cfg : Server.Configuration) (fs : Os.filesystem) (reqBody data : list byte)
    (name : string) (q : list string) (e : string) (es : list (string * Os.node)) :
  Base64.NewDecoder reqBody = (data, None) ->
  Os.elements (Server.prepareAbsolutePath cfg name) = q ++ [e] ->
  Os.find_node q fs = Ok (Os.Dir es) ->
  (forall c, Os.lookup e es = Some c -> exists old, c = Os.File old) ->
  exists fs' file, Server.fileWrite cfg fs reqBody name = (fs', Server.Success file).
Proof.
  intros Hdec Hp Hq Hfree.
  assert (Hcopy : forall (fs1 : Os.filesystem) old,
             Os.find_node q fs1
               = Ok (Os.Dir (Os.put e (Os.File old) (Os.drop e es)))
             \/ (Os.find_node q fs1 = Ok (Os.Dir es)
                 /\ Os.lookup e es = Some (Os.File old)) ->
             exists fs2 file2 n,
               Io.Copy Os.writer
                 (fs1, Os.mkfile (q ++ [e]) (Server.prepareAbsolutePath cfg name) 0 false)
                 (data, None) = ((fs2, file2), n, None)).
  { intros fs1 old Hfs1. unfold Io.Copy. cbn [fst snd].
    destruct data as [|b data']; [now eexists _, _, _|].
    unfold Os.writer, Os.Write. cbn [fst snd Os.f_path Os.f_append Os.f_pos Os.f_name].
    match goal with |- context [Os.alter ?f _ _] => set (store := f) end.
    destruct Hfs1 as [Hq1|[Hq1 Hl]].
    - destruct (alter_at store q e fs1 _
                  (Some (Os.File (Os.overwrite old 0 (b :: data')))) Hq1)
        as (fs2 & -> & _).
      + now rewrite lookup_put_same.
      + now eexists _, _, _.
    - destruct (alter_at store q e fs1 _
                  (Some (Os.File (Os.overwrite old 0 (b :: data')))) Hq1)
        as (fs2 & -> & _).
      + now rewrite Hl.
      + now eexists _, _, _. }
  unfold Server.fileWrite, Os.OpenFile. rewrite Hp, Hdec.
  rewrite (find_node_entry _ _ _ _ Hq). simpl Os.has.
  destruct (Os.lookup e es) as [c|] eqn:Hl.
  - destruct (Hfree c eq_refl) as [old ->].
    destruct (Hcopy fs old) as (fs2 & file2 & n & ->); [right; now split|].
    now eexists _, _.
  - destruct (alter_at (fun _ => Ok (Some (Os.File []))) q e fs es
                (Some (Os.File [])) Hq eq_refl) as (fs1 & -> & Hq1).
    cbn [Os.after] in Hq1.
    assert (Hdrop : Os.drop e es = es).
    { clear - Hl. induction es as [|[n c] es' IH]; simpl in *; [reflexivity|].
      destruct (String.eqb n e); [discriminate|]. simpl. now rewrite IH. }
    destruct (Hcopy fs1 []) as (fs2 & file2 & n & ->).
    + left. now rewrite Hdrop.
    + now eexists _, _.
Qed.

(** C3, amended: after [fileWrite] succeeds the whole body was decoded
    and the file holds the decoded bytes from its start on, followed by
    the bytes of its previous content beyond their length, if it had
    any; the file is created when absent and never truncated.  The
    size returned is the final size of the file. *)
Theorem fileWrite_overwrites
    (cfg : Server.Configuration) (fs fs' : Os.filesystem) (reqBody : list byte)
    (name : string) (file : Server.File) :
  Server.fileWrite cfg fs reqBody name = (fs', Server.Success file) ->
  let p := Os.elements (Server.prepareAbsolutePath cfg name) in
  let old := match Os.find_node p fs with Ok (Os.File o) => o | _ => [] end in
  let data := fst (Base64.NewDecoder reqBody) in
  let content := data ++ skipn (List.length data) old in
  snd (Base64.NewDecoder reqBody) = None
  /\ Os.find_node p fs' = Ok (Os.File content)
  /\ file = Server.mkFile (Some name) (Some (Z.of_nat (List.length content))) None None.
Proof. apply fileWrite_content. Qed.

Lemma fileWrite_overwrites_witness :
  snd (Base64.NewDecoder (Sample.bytes "aGk=")) = None
  /\ Os.find_node (Os.elements (Server.prepareAbsolutePath Sample.cfg "/f"))
       (Sample.one_file "f" (Sample.bytes "hillo world"))
     = Ok (Os.File (Sample.bytes "hillo world"))
  /\ Server.mkFile (Some "/f") (Some 11%Z) None None
     = Server.mkFile (Some "/f") (Some 11%Z) None None.
Proof.
  apply (fileWrite_overwrites Sample.cfg
           (Sample.one_file "f" (Sample.bytes "hello world"))
           (Sample.one_file "f" (Sample.bytes "hillo world"))
           (Sample.bytes "aGk=") "/f"
           (Server.mkFile (Some "/f") (Some 11%Z) None None)).
  reflexivity.
Defined.

Section RoundTrip.

Import Os Server.

(** What [readFile] sends of a part: its full quanta, encoded; the
    bytes of a trailing partial quantum stay in the encoder. *)
Lemma served_body (w : Http.ResponseWriter) (part : list byte) :
  Http.body (served w part) = Http.body w ++ fst (Base64.encode_blocks part).
Proof.
  unfold served, Base64.Write, Base64.NewEncoder. cbn [Base64.e_buf Base64.e_w app].
  destruct (Base64.encode_blocks part) as [out rest]. cbn [fst].
  destruct w as [[code|] h b0]; destruct out as [|b out]; cbn [fst Base64.e_w].
  - cbn [Http.body]. now rewrite app_nil_r.
  - reflexivity.
  - cbn [Http.body]. now rewrite app_nil_r.
  - reflexivity.
Qed.

Lemma EncodeToString_whole (data : list byte) :
  List.length data mod 3 = 0 ->
  fst (Base64.encode_blocks data) = Base64.EncodeToString data.
Proof.
  intros H. unfold Base64.EncodeToString.
  pose proof (encode_blocks_whole data H) as Hrest.
  destruct (Base64.encode_blocks data) as [out rest]. cbn [fst snd] in *.
  subst rest. simpl. now rewrite app_nil_r.
Qed.

End RoundTrip.

(** C4, as stated, fails: after the empty byte sequence is written the
    file has size 0, and a read of size 0 is refused. *)
Lemma write_read_empty_refused :
  Server.fileWrite Sample.cfg Sample.empty_root (Base64.EncodeToString []) "/f"
  = (Sample.one_file "f" [],
     Server.Success (Server.mkFile (Some "/f") (Some 0%Z) None None))
  /\ Server.readFile Sample.cfg (Sample.one_file "f" []) Http.NewResponseWriter
       "/f" 0 0
     = (Http.NewResponseWriter,
        Some (Server.errorDto Server.errInvalidParameterValue "size (0)")).
Proof. split; reflexivity. Qed.

(** C4, amended: for every byte sequence that is not empty and whose
    length is a multiple of three (and below 2^62), and every name
    whose directory exists and which is free or holds a regular file
    with no longer content: [fileWrite] of the encoded sequence
    succeeds, and [readFile] with offset 0 and the size of the file
    then returns no error and a body that decodes to exactly the
    original bytes. *)
Theorem write_read_roundtrip
    (cfg : Server.Configuration) (fs : Os.filesystem) (data : list byte)
    (name : string) (q : list string) (e : string) (es : list (string * Os.node)) :
  data <> [] ->
  List.length data mod 3 = 0 ->
  (Z.of_nat (List.length data) < 2 ^ 62)%Z ->
  Os.elements (Server.prepareAbsolutePath cfg name) = q ++ [e] ->
  Os.find_node q fs = Ok (Os.Dir es) ->
  (forall c, Os.lookup e es = Some c ->
             exists old, c = Os.File old /\ List.length old <= List.length data) ->
  exists fs' w,
    Server.fileWrite cfg fs (Base64.EncodeToString data) name
      = (fs', Server.Success
                (Server.mkFile (Some name) (Some (Z.of_nat (List.length data)))
                   None None))
    /\ Server.readFile cfg fs' Http.NewResponseWriter name 0
         (Z.of_nat (List.length data)) = (w, None)
    /\ Base64.NewDecoder (Http.body w) = (data, None).
Proof.
  intros Hne Hmod Hbig Hp Hq Hold.
  destruct (fileWrite_succeeds cfg fs (Base64.EncodeToString data) data name q e es)
    as (fs' & file & Hwrite); try assumption.
  { apply NewDecoder_EncodeToString. }
  { intros c Hc. destruct (Hold c Hc) as (old & -> & _). now exists old. }
  pose proof (fileWrite_content _ _ _ _ _ _ Hwrite) as (_ & Hfind & Hfile).
  rewrite NewDecoder_EncodeToString in Hfind, Hfile. cbn [fst] in *.
  assert (Hskip : skipn (List.length data)
                    match Os.find_node
                            (Os.elements (Server.prepareAbsolutePath cfg name)) fs with
                    | Ok (Os.File o) => o
                    | _ => []
                    end = []).
  { rewrite Hp, (find_node_entry _ _ _ _ Hq).
    destruct (Os.lookup e es) as [c|] eqn:Hl; [|apply skipn_nil].
    destruct (Hold c eq_refl) as (old & -> & Hlen). now apply skipn_all2. }
  rewrite Hskip, app_nil_r in Hfind, Hfile. subst file.
  assert (Hpos : (0 < Z.of_nat (List.length data))%Z).
  { destruct data; [congruence|simpl; lia]. }
  exists fs'. eexists. split; [exact Hwrite|]. split.
  - apply (readFile_window cfg fs' Http.NewResponseWriter name data Hfind); lia.
  - rewrite served_body. unfold Server.window.
    rewrite Z.sub_0_r, Z.min_id, Nat2Z.id. change (Z.to_nat 0) with 0.
    rewrite skipn_O, firstn_all. simpl app.
    rewrite EncodeToString_whole by assumption.
    apply NewDecoder_EncodeToString.
Qed.

Lemma write_read_roundtrip_witness :
  exists fs' w,
    Server.fileWrite Sample.cfg (Sample.one_file "f" (Sample.bytes "xyz"))
      (Base64.EncodeToString (Sample.bytes "abcdef")) "/f"
      = (fs', Server.Success (Server.mkFile (Some "/f") (Some 6%Z) None None))
    /\ Server.readFile Sample.cfg fs' Http.NewResponseWriter "/f" 0 6 = (w, None)
    /\ Base64.NewDecoder (Http.body w) = (Sample.bytes "abcdef", None).
Proof.
  apply (write_read_roundtrip Sample.cfg
           (Sample.one_file "f" (Sample.bytes "xyz"))
           (Sample.bytes "abcdef") "/f" ["srv"; "data"] "f"
           [("f", Os.File (Sample.bytes "xyz"))]).
  - discriminate.
  - reflexivity.
  - reflexivity.
  - reflexivity.
  - reflexivity.
  - intros c [= <-]. exists (Sample.bytes "xyz"). split; [reflexivity|simpl; lia].
Defined.

(** * Facts about the walk *)

Section WalkFacts.

Import Os Server.

(** Induction on the tree, with the entries of a directory at hand. *)
Lemma node_tree_ind (P : node -> Prop) :
  (forall d, P (Os.File d)) ->
  (forall es, Forall (fun e => P (snd e)) es -> P (Dir es)) ->
  forall n, P n.
Proof.
  intros Hfile Hdir. fix IH 1. intros [d|es].
  - apply Hfile.
  - apply Hdir. induction es as [|[nm c] es IHes]; constructor.
    + apply IH.
    + exact IHes.
Qed.

Lemma listed_app (fullName : string) (a b : list (string * FileInfo)) :
  listed fullName (a ++ b) = listed fullName a ++ listed fullName b.
Proof. unfold listed. now rewrite filter_app, map_app. Qed.

(** The walk of [directoryList] is never stopped and appends what it
    lists, in the order of the calls. *)
Lemma walk_directoryList (fullName : string) (n : node) :
  forall (path name : string) (dirList : list string),
  walk (directoryList_fn fullName) path name n dirList
  = (dirList ++ listed fullName (visits path name n), None).
Proof.
  induction n as [d|es IH] using node_tree_ind; intros path name dirList.
  - simpl. unfold directoryList_fn, listed. simpl.
    destruct (String.eqb path fullName); simpl; now rewrite ?app_nil_r.
  - cbn [walk visits].
    set (below := flat_map
           (fun e => visits (Filepath.Join [path; fst e]) (fst e) (snd e))).
    set (names := fix names (es : list (string * node)) (s : list string) :=
           match es with
           | [] => (s, None)
           | (nm, c) :: rest =>
               match walk (directoryList_fn fullName) (Filepath.Join [path; nm]) nm c s with
               | (s2, Some e) => (s2, Some e)
               | (s2, None) => names rest s2
               end
           end).
    assert (Hnames : forall s, names es s = (s ++ listed fullName (below es), None)).
    { induction IH as [|[nm c] es Hc _ IHes]; intros s; simpl.
      - now rewrite app_nil_r.
      - simpl in Hc. rewrite Hc, IHes, listed_app. now rewrite app_assoc. }
    change (listed fullName ((path, info_of name (Dir es)) :: below es))
      with (listed fullName ([(path, info_of name (Dir es))] ++ below es)).
    rewrite listed_app, app_assoc.
    assert (Hfirst : listed fullName [(path, info_of name (Dir es))]
                     = if String.eqb path fullName then []
                       else [Strings.TrimPrefix path fullName]).
    { unfold listed. simpl. now destruct (String.eqb path fullName). }
    rewrite Hfirst. unfold directoryList_fn at 1.
    destruct (String.eqb path fullName); cbn [negb andb info_of IsDir node_is_dir];
      rewrite Hnames; now rewrite ?app_nil_r.
Qed.

End WalkFacts.

(** ** The paths of the walk as strings *)

Section RelativePaths.

Import Filepath Os Server.

Lemma HasPrefix_app (a b : string) : Strings.HasPrefix (a ++ b) a = true.
Proof.
  induction a as [|c a IH]; simpl; [reflexivity|].
  now rewrite Ascii.eqb_refl, IH.
Qed.

Lemma from_app (a b : string) : Strings.from (String.length a) (a ++ b) = b.
Proof. induction a as [|c a IH]; simpl; [now destruct b|exact IH]. Qed.

Lemma TrimPrefix_app (a b : string) : Strings.TrimPrefix (a ++ b) a = b.
Proof. unfold Strings.TrimPrefix. now rewrite HasPrefix_app, from_app. Qed.

Lemma append_assoc (a b c : string) : ((a ++ b) ++ c = a ++ (b ++ c))%string.
Proof. induction a as [|x a IH]; simpl; [reflexivity|now rewrite IH]. Qed.

Lemma Join_app (a b : list string) :
  a <> [] -> b <> [] ->
  Strings.Join (a ++ b) = (Strings.Join a ++ String "/" (Strings.Join b))%string.
Proof.
  intros Ha Hb. induction a as [|x a IH]; [congruence|].
  destruct a as [|y a].
  - simpl app. now rewrite Join_cons.
  - change ((x :: y :: a) ++ b) with (x :: ((y :: a) ++ b)).
    rewrite !Join_cons by discriminate. rewrite IH by discriminate.
    now rewrite append_assoc.
Qed.

Lemma render_inj (r : bool) (a b : list string) :
  canonical r a -> canonical r b -> render r a = render r b -> a = b.
Proof.
  intros Ha Hb H.
  rewrite <- (clean_elems_fixed r a Ha), <- (clean_elems_fixed r b Hb).
  rewrite <- (clean_Split_render r r a), <- (clean_Split_render r r b)
    by (eapply canonical_no_slash; eassumption).
  now rewrite H.
Qed.

Variable cs : list string.
Hypothesis cs_real : Forall (fun e => real e = true) cs.

(** A path below the start path, trimmed, is the path relative to it. *)
Lemma TrimPrefix_below (ns : list string) :
  Forall (fun e => real e = true) ns -> ns <> [] ->
  Strings.TrimPrefix (render true (cs ++ ns)) (render true cs)
  = relative (render true cs) ns.
Proof.
  intros Hns Hne. unfold relative, render. destruct cs as [|c cs'].
  - simpl app. simpl. now destruct (Strings.Join ns).
  - rewrite Join_app by (assumption || discriminate).
    inversion cs_real; subst.
    destruct (real_inv c) as (Hc & _); [assumption|].
    pose proof (Join_not_empty c cs' Hc) as Hj.
    replace (String.eqb (String "/" (Strings.Join (c :: cs'))) "/") with false.
    + change (String "/" (Strings.Join (c :: cs') ++ String "/" (Strings.Join ns)))%string
        with (String "/" (Strings.Join (c :: cs')) ++ String "/" (Strings.Join ns))%string.
      now rewrite TrimPrefix_app.
    + symmetry. apply String.eqb_neq. intros [= H]. now apply Hj.
Qed.

Lemma below_not_start (ns : list string) :
  Forall (fun e => real e = true) ns -> ns <> [] ->
  String.eqb (render true (cs ++ ns)) (render true cs) = false.
Proof.
  intros Hns Hne. apply String.eqb_neq. intros H.
  apply render_inj in H.
  - rewrite <- (app_nil_r cs) in H at 2. apply app_inv_head in H. congruence.
  - apply canonical_real, Forall_app. now split.
  - now apply canonical_real.
Qed.

(** The path the walk makes for an entry of a directory. *)
Lemma Join_entry (l : list string) (e : string) :
  Forall (fun x => real x = true) l -> real e = true ->
  Filepath.Join [render true l; e] = render true (l ++ [e]).
Proof.
  intros Hl He. change e with (render false [e]) at 1.
  rewrite Join_under.
  - rewrite (rooted_render true l) by now apply canonical_real.
    rewrite clean_Split_render, clean_elems_fixed; try reflexivity.
    + now apply canonical_real.
    + apply (canonical_no_slash true). now apply canonical_real.
  - apply (render_not_empty true). now apply canonical_real.
  - now constructor.
Qed.

End RelativePaths.

(** ** The directories the walk lists *)

Section TreeFacts.

Import Filepath Os Server.

Lemma forallb_Forall {A : Type} (f : A -> bool) (l : list A) :
  forallb f l = true <-> Forall (fun x => f x = true) l.
Proof. rewrite forallb_forall, Forall_forall. reflexivity. Qed.

Lemma NoDup_distinct (l : list string) : NoDup l -> distinct l = true.
Proof.
  induction 1 as [|x l Hx _ IH]; simpl; [reflexivity|].
  rewrite IH, andb_true_r. apply negb_true_iff.
  destruct (existsb (String.eqb x) l) eqn:He; [|reflexivity].
  apply existsb_exists in He as (y & Hy & Heq).
  apply String.eqb_eq in Heq. subst y. contradiction.
Qed.

Lemma wf_tree_Dir (es : list (string * node)) :
  wf_tree (Dir es) = true
  <-> Forall (fun e => real (fst e) = true) es
      /\ NoDup (map fst es)
      /\ Forall (fun e => wf_tree (snd e) = true) es.
Proof.
  cbn [wf_tree]. unfold well_named.
  rewrite !andb_true_iff, !forallb_Forall. split.
  - intros [[Hr Hd] Hw]. repeat split; try assumption. now apply distinct_NoDup.
  - intros (Hr & Hd & Hw). repeat split; try assumption. now apply NoDup_distinct.
Qed.

Lemma insert_entry_perm (e : string * node) (l : list (string * node)) :
  Permutation (e :: l) (insert_entry e l).
Proof.
  induction l as [|f l IH]; simpl; [apply Permutation_refl|].
  destruct (String.leb (fst e) (fst f)); [apply Permutation_refl|].
  eapply Permutation_trans; [apply perm_swap|]. now apply perm_skip.
Qed.

Lemma sort_entries_perm (l : list (string * node)) :
  Permutation l (sort_entries l).
Proof.
  induction l as [|e l IH]; simpl; [constructor|].
  eapply Permutation_trans; [|apply insert_entry_perm]. now apply perm_skip.
Qed.

Lemma wf_sort_tree (n : node) : wf_tree n = true -> wf_tree (sort_tree n) = true.
Proof.
  induction n as [d|es IH] using node_tree_ind; intros Hwf; [reflexivity|].
  apply wf_tree_Dir in Hwf as (Hr & Hd & Hw). cbn [sort_tree].
  set (g := fun e : string * node => (fst e, sort_tree (snd e))).
  pose proof (sort_entries_perm (map g es)) as Hperm.
  apply wf_tree_Dir. repeat split.
  - eapply Permutation_Forall; [exact Hperm|].
    apply Forall_map. exact Hr.
  - apply (Permutation_NoDup (Permutation_map fst Hperm)).
    rewrite map_map. exact Hd.
  - eapply Permutation_Forall; [exact Hperm|].
    apply Forall_map. rewrite Forall_forall in *. intros e He. simpl.
    apply IH; [assumption|]. now apply Hw.
Qed.

Lemma lookup_map_sort (k : string) (es : list (string * node)) :
  lookup k (map (fun e => (fst e, sort_tree (snd e))) es)
  = option_map sort_tree (lookup k es).
Proof.
  induction es as [|[n c] es IH]; simpl; [reflexivity|].
  destruct (String.eqb n k); [reflexivity|exact IH].
Qed.

Lemma lookup_perm (k : string) (l l' : list (string * node)) :
  NoDup (map fst l) -> Permutation l l' -> lookup k l' = lookup k l.
Proof.
  intros Hnd Hperm.
  assert (Hnd' : NoDup (map fst l')).
  { apply (Permutation_NoDup (Permutation_map fst Hperm)). exact Hnd. }
  destruct (lookup k l) as [c|] eqn:Hl.
  - apply In_lookup; [assumption|].
    apply (Permutation_in _ Hperm). now apply lookup_In.
  - destruct (lookup k l') as [c|] eqn:Hl'; [|reflexivity].
    apply lookup_In in Hl'.
    apply (Permutation_in _ (Permutation_sym Hperm)) in Hl'.
    apply (In_lookup _ _ _ Hnd) in Hl'. congruence.
Qed.

(** The walk reads the same tree, up to the order of the entries. *)
Lemma find_node_sort_tree (ns : list string) :
  forall n : node,
  wf_tree n = true ->
  find_node ns (sort_tree n)
  = match find_node ns n with
    | Ok m => Ok (sort_tree m)
    | Err e => Err e
    end.
Proof.
  induction ns as [|k ns IH]; intros n Hwf; [reflexivity|].
  destruct n as [d|es]; [reflexivity|].
  apply wf_tree_Dir in Hwf as (Hr & Hd & Hw). cbn [sort_tree find_node].
  rewrite (lookup_perm k (map (fun e => (fst e, sort_tree (snd e))) es)).
  - rewrite lookup_map_sort. destruct (lookup k es) as [c|] eqn:Hk; simpl.
    + apply IH. rewrite Forall_forall in Hw.
      apply (Hw (k, c)). now apply lookup_In.
    + reflexivity.
  - rewrite map_map. exact Hd.
  - apply sort_entries_perm.
Qed.

(** [dirs_below] holds exactly the directories strictly below a node. *)
Lemma dirs_below_spec (t : node) :
  wf_tree t = true ->
  forall ns : list string,
  In ns (dirs_below t)
  <-> ns <> [] /\ exists es, find_node ns t = Ok (Dir es).
Proof.
  induction t as [d|es IH] using node_tree_ind; intros Hwf ns.
  - simpl. split; [contradiction|].
    intros [Hne [es H]]. destruct ns; [congruence|discriminate].
  - apply wf_tree_Dir in Hwf as (Hr & Hd & Hw).
    rewrite Forall_forall in IH, Hw. cbn [dirs_below]. rewrite in_flat_map. split.
    + intros ([nm c] & Hin & Hns). cbn [fst snd] in Hns.
      pose proof (In_lookup _ _ _ Hd Hin) as Hl.
      apply in_app_or in Hns as [Hns|Hns].
      * destruct c as [d|es']; [contradiction|]. destruct Hns as [<-|[]].
        split; [discriminate|]. exists es'. simpl. now rewrite Hl.
      * apply in_map_iff in Hns as (ns' & <- & Hns').
        apply (IH (nm, c) Hin (Hw _ Hin)) in Hns' as [Hne [es' Hf]].
        split; [discriminate|]. exists es'. simpl. now rewrite Hl.
    + intros [Hne [es' Hf]]. destruct ns as [|nm ns']; [congruence|].
      simpl in Hf. destruct (lookup nm es) as [c|] eqn:Hl; [|discriminate].
      pose proof (lookup_In _ _ _ Hl) as Hin.
      exists (nm, c). split; [assumption|]. cbn [fst snd].
      apply in_or_app. destruct ns' as [|k ns''].
      * left. simpl in Hf. injection Hf as ->. now left.
      * right. apply in_map.
        apply (IH (nm, c) Hin (Hw _ Hin)). split; [discriminate|]. now exists es'.
Qed.

Variable cs : list string.
Hypothesis cs_real : Forall (fun e => real e = true) cs.

Lemma listed_cons (v : string * FileInfo) (vs : list (string * FileInfo)) :
  listed (render true cs) (v :: vs)
  = listed (render true cs) [v] ++ listed (render true cs) vs.
Proof. change (v :: vs) with ([v] ++ vs). apply listed_app. Qed.

(** What [directoryList] lists of the walk of a tree found [pre] below
    the start path: the tree itself, when it is a directory other than
    the start, and the directories below it. *)
Lemma listed_visits (t : node) :
  wf_tree t = true ->
  forall (pre : list string) (nm : string),
  Forall (fun e => real e = true) pre ->
  listed (render true cs) (visits (render true (cs ++ pre)) nm t)
  = match pre with
    | [] => []
    | _ :: _ => if node_is_dir t then [relative (render true cs) pre] else []
    end
    ++ map (fun ns => relative (render true cs) (pre ++ ns)) (dirs_below t).
Proof.
  induction t as [d|es IH] using node_tree_ind; intros Hwf pre nm Hpre.
  - cbn [visits dirs_below map node_is_dir]. unfold listed.
    cbn [filter fst snd info_of IsDir node_is_dir]. rewrite andb_false_r.
    now destruct pre.
  - apply wf_tree_Dir in Hwf as (Hr & _ & Hw).
    cbn [visits dirs_below node_is_dir]. rewrite listed_cons. f_equal.
    + unfold listed. cbn [filter fst snd info_of IsDir node_is_dir].
      destruct pre as [|x pre'].
      * now rewrite app_nil_r, String.eqb_refl.
      * rewrite below_not_start by (assumption || discriminate).
        cbn [negb andb map fst]. now rewrite TrimPrefix_below by (assumption || discriminate).
    + clear nm. induction es as [|[nm c] es IHes]; [reflexivity|].
      inversion IH as [|? ? IHc IH']; subst.
      inversion Hr as [|? ? Hnm Hr']; subst.
      inversion Hw as [|? ? Hc Hw']; subst.
      cbn [flat_map fst snd] in *. rewrite listed_app, map_app, (IHes IH' Hr' Hw').
      f_equal.
      rewrite Join_entry by (try apply Forall_app; auto).
      rewrite <- app_assoc. rewrite (IHc Hc (pre ++ [nm]) nm)
        by (apply Forall_app; split; [assumption|now constructor]).
      rewrite map_app, map_map.
      destruct (pre ++ [nm]) as [|y l] eqn:E.
      { apply app_eq_nil in E as [_ E]. discriminate. }
      rewrite <- E. f_equal.
      * now destruct (node_is_dir c).
      * apply map_ext. intros ns. now rewrite <- app_assoc.
Qed.

End TreeFacts.

(** A rooted root is not empty, and every path resolved under it is a
    rooted, cleaned path. *)
Lemma prepareAbsolutePath_rooted (cfg : Server.Configuration) (name : string) :
  Filepath.rooted (Server.RootDirectory cfg) = true ->
  exists cs, Forall (fun e => Filepath.real e = true) cs
             /\ Server.prepareAbsolutePath cfg name = Filepath.render true cs.
Proof.
  intros Hroot. unfold Server.prepareAbsolutePath. simpl Filepath.Join.
  destruct (String.eqb_spec (Server.RootDirectory cfg) "") as [He|Hne].
  - rewrite He in Hroot. discriminate.
  - unfold Filepath.Clean at 1.
    match goal with |- context [Filepath.rooted ?x] => set (joined := x) end.
    assert (Hr : Filepath.rooted joined = true).
    { unfold joined.
      change (Server.RootDirectory cfg ++ "/" ++ Filepath.Clean name)%string
        with (Server.RootDirectory cfg ++ String "/" (Filepath.Clean name))%string.
      now rewrite rooted_app. }
    pose proof (Clean_is_render joined) as Hc. rewrite Hr in *.
    eexists. split; [|reflexivity]. now apply canonical_rooted_real.
Qed.

(** C9: [directoryList] fails when the start path cannot be read and
    otherwise returns [/] first and then, in the order in which the
    walk visits them, the directories below the start path, files
    left out, each as its path without the leading start path.  Under
    a rooted root these are exactly the directories that lie below the
    start path in the file system, each written as its elements
    relative to the start path.  In an empty root in which [/a/b] was
    created with all its parents, the list of [/] is [/], [/a],
    [/a/b]. *)
Theorem directoryList_walk_order :
  (forall (cfg : Server.Configuration) (fs : Os.filesystem) (name : string),
      let fullName := Server.prepareAbsolutePath cfg name in
      Server.directoryList cfg fs name
      = match Os.find_node (Os.elements fullName) fs with
        | Ok n =>
            Server.Success
              ("/" :: Server.listed fullName
                        (Os.visits fullName (Filepath.Base fullName) (Os.sort_tree n)))
        | Err _ =>
            Server.Failure
              (Server.errorDto Server.errWalkingDirectoryTreeFailed
                 Server.errMsgCheckServerLogForDetails)
        end)
  /\ (forall (cfg : Server.Configuration) (fs : Os.filesystem) (name : string)
             (n : Os.node),
      let fullName := Server.prepareAbsolutePath cfg name in
      Filepath.rooted (Server.RootDirectory cfg) = true ->
      Os.find_node (Os.elements fullName) fs = Ok n ->
      Os.wf_tree n = true ->
      Server.directoryList cfg fs name
      = Server.Success
          ("/" :: map (Server.relative fullName) (Os.dirs_below (Os.sort_tree n)))
      /\ forall ns : list string,
           In ns (Os.dirs_below (Os.sort_tree n))
           <-> ns <> []
               /\ exists es,
                    Os.find_node (Os.elements fullName ++ ns) fs = Ok (Os.Dir es))
  /\ (let created := Server.createDirectory Sample.cfg Sample.empty_root "/a/b" true in
      snd created = Server.Success (Server.mkDirectory "b" [] [])
      /\ Server.directoryList Sample.cfg (fst created) "/"
         = Server.Success ["/"; "/a"; "/a/b"]).
Proof.
  assert (Hwalk : forall cfg fs name,
             let fullName := Server.prepareAbsolutePath cfg name in
             Server.directoryList cfg fs name
             = match Os.find_node (Os.elements fullName) fs with
               | Ok n =>
                   Server.Success
                     ("/" :: Server.listed fullName
                               (Os.visits fullName (Filepath.Base fullName)
                                  (Os.sort_tree n)))
               | Err _ =>
                   Server.Failure
                     (Server.errorDto Server.errWalkingDirectoryTreeFailed
                        Server.errMsgCheckServerLogForDetails)
               end).
  { intros cfg fs name fullName. unfold Server.directoryList, Os.Walk.
    fold fullName. destruct (Os.find_node (Os.elements fullName) fs) as [n|e].
    - now rewrite walk_directoryList.
    - reflexivity. }
  split; [exact Hwalk|]. split; [|split; reflexivity].
  intros cfg fs name n fullName Hroot Hfind Hwf.
  pose proof (wf_sort_tree n Hwf) as Hwf'. split.
  - rewrite Hwalk. fold fullName. rewrite Hfind.
    destruct (prepareAbsolutePath_rooted cfg name Hroot) as (cs & Hcs & Hfull).
    fold fullName in Hfull. rewrite Hfull.
    rewrite <- (app_nil_r cs) at 2.
    rewrite (listed_visits cs Hcs _ Hwf' [] _ (Forall_nil _)).
    reflexivity.
  - intros ns. rewrite (dirs_below_spec _ Hwf' ns).
    rewrite find_node_sort_tree by assumption.
    rewrite find_node_app, Hfind. split.
    + intros [Hne [es H]]. split; [assumption|].
      destruct (Os.find_node ns n) as [[d|es']|e]; try discriminate. now exists es'.
    + intros [Hne [es H]]. split; [assumption|]. rewrite H. simpl. eexists. reflexivity.
Qed.

Lemma directoryList_walk_order_witness :
  Server.directoryList Sample.cfg Sample.tree "/" = Server.Success ["/"; "/a"; "/a/sub"]
  /\ (In ["a"; "sub"]
         (Os.dirs_below (Os.sort_tree
            (Os.Dir [("a", Os.Dir [("f.txt", Os.File (Sample.bytes "x"));
                                   ("sub", Os.Dir [])])])))
       <-> ["a"; "sub"] <> []
           /\ exists es,
                Os.find_node (Os.elements "/srv/data" ++ ["a"; "sub"]) Sample.tree
                = Ok (Os.Dir es)).
Proof.
  pose proof (proj1 (proj2 directoryList_walk_order) Sample.cfg Sample.tree "/"
                (Os.Dir [("a", Os.Dir [("f.txt", Os.File (Sample.bytes "x"));
                                       ("sub", Os.Dir [])])])
                eq_refl eq_refl eq_refl) as [Hlist Hin].
  split.
  - exact Hlist.
  - exact (Hin ["a"; "sub"]).
Defined.


(** * The entries of a directory that is not the root *)

(** C2: the code at two inputs.  [deleteDirectory] makes the path of
    each entry it read from the named directory with
    [prepareAbsolutePath] of the bare entry name, which is a path
    directly below the root.  For [/a] holding the file [f]: when the
    root holds a file [f] too, that file is removed, [/a/f] stays, and
    the removal of [/a], which is not empty, fails; when the root holds
    no such entry, the removal of the entry fails and nothing is
    removed. *)
Theorem deleteDirectory_entries_resolved_under_root :
  Server.deleteDirectory Sample.cfg Sample.nested "/a" true
  = (Os.Dir [("srv", Os.Dir [("data",
        Os.Dir [("a", Os.Dir [("f", Os.File (Sample.bytes "inner"))])])])],
     Server.Failure (Server.errorDto Server.errDeletingDirectoryFailed "/a"))
  /\ Server.deleteDirectory Sample.cfg Sample.tree "/a" true
     = (Sample.tree,
        Server.Failure (Server.errorDto Server.errDeletingFileFailed "/srv/data/f.txt")).
Proof. split; reflexivity. Qed.

(** * Further observations *)

(** [readFile] never closes its encoder: of a window whose length is
    not a multiple of three, the last one or two bytes are not sent. *)
Example readFile_leaves_partial_quantum :
  exists w,
    Server.readFile Sample.cfg (Sample.one_file "f" (Sample.bytes "hello world"))
      Http.NewResponseWriter "/f" 0 11 = (w, None)
    /\ Base64.NewDecoder (Http.body w) = (Sample.bytes "hello wor", None).
Proof. eexists. split; reflexivity. Qed.

(** The root guard of [deleteDirectory] compares the resolved path with
    the configured root as strings: a root written with a trailing
    slash is never the result of a resolution. *)
Example prepareAbsolutePath_trailing_slash_root :
  Server.prepareAbsolutePath (Server.mkConfiguration 15000 "/srv/data/" "") "/"
  = "/srv/data".
Proof. reflexivity. Qed.

(** * Further properties of the engine *)

(** ** What a change of the tree leaves alone *)

Section Frame.

Import Os.

(** Two paths neither of which leads through the other. *)
Lemma unrelated_cons (e : string) (p p' : list string) :
  (forall r, e :: p <> (e :: p') ++ r) -> (forall r, e :: p' <> (e :: p) ++ r) ->
  (forall r, p <> p' ++ r) /\ (forall r, p' <> p ++ r).
Proof.
  intros H1 H2. split; intros r Heq.
  - apply (H1 r). simpl. now rewrite Heq.
  - apply (H2 r). simpl. now rewrite Heq.
Qed.

(** A call on a path changes nothing at the paths that neither lead to
    it nor lie below it. *)
Lemma alter_frame (f : option node -> result (option node)) (p : list string) :
  forall (fs fs' : node) (p' : list string),
  alter f p fs = Ok fs' ->
  (forall r, p <> p' ++ r) -> (forall r, p' <> p ++ r) ->
  find_node p' fs' = find_node p' fs.
Proof.
  induction p as [|e p IH]; intros fs fs' p' Ha H1 H2.
  - simpl in Ha. destruct (f (Some fs)); discriminate.
  - destruct fs as [d|es]; [discriminate|].
    destruct p' as [|k r']; [exfalso; now apply (H1 (e :: p))|].
    destruct (String.eqb_spec e k) as [<-|Hne].
    + destruct p as [|e2 p2].
      * exfalso. now apply (H2 r').
      * rewrite alter_cons in Ha by discriminate.
        destruct (lookup e es) as [c|] eqn:Hl; [|discriminate].
        destruct (alter f (e2 :: p2) c) as [c'|] eqn:Hc; [|discriminate].
        injection Ha as <-. simpl. rewrite lookup_put_same, Hl.
        destruct (unrelated_cons e (e2 :: p2) r' H1 H2) as [H1' H2'].
        now apply (IH c c' r').
    + destruct p as [|e2 p2].
      * rewrite alter_single in Ha.
        destruct (f (lookup e es)) as [[c|]|]; try discriminate;
          injection Ha as <-; simpl.
        -- now rewrite lookup_put_other.
        -- now rewrite lookup_drop_other.
      * rewrite alter_cons in Ha by discriminate.
        destruct (lookup e es) as [c|]; [|discriminate].
        destruct (alter f (e2 :: p2) c) as [c'|]; [|discriminate].
        injection Ha as <-. simpl. now rewrite lookup_put_other.
Qed.

(** What a call on an entry that exists makes of it. *)
Lemma alter_existing (f : option node -> result (option node)) (p : list string)
    (fs fs' n : node) :
  alter f p fs = Ok fs' -> find_node p fs = Ok n ->
  exists o, f (Some n) = Ok o
            /\ find_node p fs' = match o with Some c => Ok c | None => Err ENOENT end.
Proof.
  intros Ha Hn.
  destruct (alter_Ok _ _ _ _ Ha) as (q & e & es & o & -> & Hq & Hf & Hq').
  destruct (find_node_last _ _ _ _ Hn) as (es' & Hq2 & Hl).
  rewrite Hq in Hq2. injection Hq2 as <-. rewrite Hl in Hf.
  exists o. split; [assumption|].
  rewrite (find_node_entry _ _ _ _ Hq'). destruct o as [c|]; simpl.
  - now rewrite lookup_put_same.
  - now rewrite lookup_drop_same.
Qed.

(** A call that accepts the entry succeeds wherever the entry exists
    below [/]. *)
Lemma alter_succeeds (f : option node -> result (option node)) (p : list string)
    (fs n : node) (o : option node) :
  p <> [] -> find_node p fs = Ok n -> f (Some n) = Ok o ->
  exists fs', alter f p fs = Ok fs'.
Proof.
  intros Hp Hn Hf. destruct (exists_last Hp) as (q & e & ->).
  destruct (find_node_last _ _ _ _ Hn) as (es & Hq & Hl).
  destruct (alter_at f q e fs es o Hq) as (fs' & Ha & _).
  - now rewrite Hl.
  - now exists fs'.
Qed.

End Frame.

(** ** Opening and filling a file *)

Section OpenAndCopy.

Import Os.

Lemma OpenFile_frame (fs fs1 : filesystem) (name : string) (flags : list flag)
    (r : result file) (p' : list string) :
  OpenFile fs name flags = (fs1, r) ->
  (forall x, elements name <> p' ++ x) -> (forall x, p' <> elements name ++ x) ->
  find_node p' fs1 = find_node p' fs.
Proof.
  unfold OpenFile. intros H H1 H2.
  destruct (find_node (elements name) fs) as [[d|es]|e].
  - destruct (has O_TRUNC flags).
    + destruct (alter _ (elements name) fs) as [fs2|x] eqn:Ha;
        injection H as <- _; [|reflexivity].
      now apply (alter_frame _ _ _ _ _ Ha).
    + now injection H as <- _.
  - destruct (has O_WRONLY flags); now injection H as <- _.
  - destruct e; try (now injection H as <- _).
    destruct (has O_CREATE flags); [|now injection H as <- _].
    destruct (alter _ (elements name) fs) as [fs2|x] eqn:Ha;
      injection H as <- _; [|reflexivity].
    now apply (alter_frame _ _ _ _ _ Ha).
Qed.

Lemma Write_frame (fs fs2 : filesystem) (f f2 : file) (data : list byte)
    (e : option error) (p' : list string) :
  Write fs f data = (fs2, f2, e) ->
  (forall x, f_path f <> p' ++ x) -> (forall x, p' <> f_path f ++ x) ->
  find_node p' fs2 = find_node p' fs.
Proof.
  unfold Write. intros H H1 H2.
  destruct (alter _ (f_path f) fs) as [fs'|x] eqn:Ha; injection H as <- _ _;
    [|reflexivity].
  now apply (alter_frame _ _ _ _ _ Ha).
Qed.

Lemma Copy_writer_frame (fs1 fs2 : filesystem) (f f2 : file)
    (src : Io.Reader) (n : Z) (e : option error) (p' : list string) :
  Io.Copy writer (fs1, f) src = ((fs2, f2), n, e) ->
  (forall x, f_path f <> p' ++ x) -> (forall x, p' <> f_path f ++ x) ->
  find_node p' fs2 = find_node p' fs1.
Proof.
  unfold Io.Copy. intros H H1 H2. destruct (fst src) as [|b data].
  - now injection H as <- _ _ _.
  - unfold writer in H. cbn [fst snd] in H.
    destruct (Write fs1 f (b :: data)) as [[fs' f'] err] eqn:Hw.
    assert (fs2 = fs') by (destruct err; now injection H as <- _ _). subst fs'.
    now apply (Write_frame _ _ _ _ _ _ _ Hw).
Qed.

(** The copy of a stream into a regular file open at its start: the
    data is stored, at the end of the file under [O_APPEND] and over
    its first bytes otherwise, and the error is that of the stream. *)
Lemma Copy_into_regular (fs1 : filesystem) (p : list string) (nm : string)
    (app : bool) (data old : list byte) (derr : option error) :
  p <> [] -> find_node p fs1 = Ok (Os.File old) ->
  exists (fs2 : filesystem) (f2 : file) (n : Z),
    Io.Copy writer (fs1, mkfile p nm 0 app) (data, derr) = ((fs2, f2), n, derr)
    /\ f_path f2 = p
    /\ find_node p fs2
       = Ok (Os.File (if app then old ++ data
                      else data ++ skipn (List.length data) old)).
Proof.
  intros Hp Hold. unfold Io.Copy. cbn [fst snd]. destruct data as [|b data].
  - exists fs1, (mkfile p nm 0 app), 0%Z. repeat split.
    rewrite Hold. destruct app; [now rewrite app_nil_r|reflexivity].
  - unfold writer, Write. cbn [fst snd f_path f_append f_pos f_name].
    match goal with |- context [alter ?f _ _] => set (store := f) end.
    destruct (alter_succeeds store p fs1 (Os.File old)
                (Some (Os.File (if app then old ++ b :: data
                                else overwrite old 0 (b :: data)))) Hp Hold eq_refl)
      as (fs2 & Ha).
    rewrite Ha. eexists _, _, _. repeat split.
    destruct (alter_existing _ _ _ _ _ Ha Hold) as (o & Ho & ->).
    injection Ho as <-. now destruct app.
Qed.

(** [OpenFile] with [O_CREATE|O_WRONLY], with or without [O_APPEND],
    on a name whose directory exists and which is free or that of a
    regular file: the file is there afterwards, empty when it was
    made, and open at its start. *)
Lemma OpenFile_for_writing (fs : filesystem) (name : string) (flags : list flag)
    (q : list string) (e : string) (es : list (string * node)) :
  has O_CREATE flags = true -> has O_WRONLY flags = true ->
  has O_TRUNC flags = false ->
  elements name = q ++ [e] -> find_node q fs = Ok (Dir es) ->
  (forall c, lookup e es = Some c -> exists old, c = Os.File old) ->
  exists fs1 : filesystem,
    OpenFile fs name flags
      = (fs1, Ok (mkfile (q ++ [e]) name 0 (has O_APPEND flags)))
    /\ find_node (q ++ [e]) fs1
       = Ok (Os.File match find_node (q ++ [e]) fs with
                     | Ok (Os.File o) => o
                     | _ => []
                     end).
Proof.
  intros Hc Hw Ht Hp Hq Hfree. unfold OpenFile. rewrite Hp, Hc, Ht.
  rewrite (find_node_entry _ _ _ _ Hq).
  destruct (lookup e es) as [c|] eqn:Hl.
  - destruct (Hfree c eq_refl) as [old ->]. exists fs. split; [reflexivity|].
    rewrite (find_node_entry _ _ _ _ Hq), Hl. reflexivity.
  - destruct (alter_at (fun _ => Ok (Some (Os.File []))) q e fs es
                (Some (Os.File [])) Hq eq_refl) as (fs1 & -> & Hq1).
    exists fs1. split; [reflexivity|].
    rewrite (find_node_entry _ _ _ _ Hq1). simpl. now rewrite lookup_put_same.
Qed.

End OpenAndCopy.

(** ** Appending, writing and deleting *)

Section FileChanges.

Import Os Server.

Variable cfg : Configuration.
Variable fs : filesystem.
Variable name : string.
Variable q : list string.
Variable e : string.
Variable es : list (string * node).
Hypothesis resolved : elements (prepareAbsolutePath cfg name) = q ++ [e].
Hypothesis parent : find_node q fs = Ok (Dir es).
Hypothesis free : forall c, lookup e es = Some c -> exists old, c = Os.File old.

(** The content the name holds before the call, none when it is free. *)
Lemma previous_content :
  exists old,
    match find_node (q ++ [e]) fs with Ok (Os.File o) => o | _ => [] end = old
    /\ (lookup e es = Some (Os.File old) \/ (lookup e es = None /\ old = [])).
Proof.
  rewrite (find_node_entry _ _ _ _ parent).
  destruct (lookup e es) as [c|] eqn:Hl.
  - destruct (free c eq_refl) as [old ->]. exists old. split; [reflexivity|now left].
  - exists []. split; [reflexivity|now right].
Qed.

(** [fileAppend]: the decoded bytes are put behind the content the
    file had, also when the body turns out corrupt later on. *)
Lemma fileAppend_result (reqBody data : list byte) (derr : option error) :
  Base64.NewDecoder reqBody = (data, derr) ->
  let old := match find_node (q ++ [e]) fs with Ok (Os.File o) => o | _ => [] end in
  exists fs' : filesystem,
    fileAppend cfg fs reqBody name
    = (fs', match derr with
            | None => Success (mkFile (Some name)
                                 (Some (Z.of_nat (List.length (old ++ data)))) None None)
            | Some _ => Failure (errorDto errAppendingFileFailed name)
            end)
    /\ find_node (q ++ [e]) fs' = Ok (Os.File (old ++ data)).
Proof.
  intros Hdec old.
  destruct (OpenFile_for_writing fs (prepareAbsolutePath cfg name)
              [O_APPEND; O_CREATE; O_WRONLY] q e es eq_refl eq_refl eq_refl
              resolved parent free) as (fs1 & Hopen & Hfind1).
  fold old in Hfind1.
  destruct (Copy_into_regular fs1 (q ++ [e]) (prepareAbsolutePath cfg name) true
              data old derr) as (fs2 & f2 & n & Hcopy & Hpath & Hfind2);
    [now destruct q|assumption|].
  exists fs2. split; [|assumption].
  unfold fileAppend. rewrite Hopen, Hdec. simpl has. rewrite Hcopy.
  destruct derr; [reflexivity|].
  unfold stat_size, FStat. rewrite Hpath, Hfind2. reflexivity.
Qed.

(** [fileWrite]: the decoded bytes are put over the first bytes of the
    content the file had, also when the body turns out corrupt. *)
Lemma fileWrite_result (reqBody data : list byte) (derr : option error) :
  Base64.NewDecoder reqBody = (data, derr) ->
  let old := match find_node (q ++ [e]) fs with Ok (Os.File o) => o | _ => [] end in
  let content := data ++ skipn (List.length data) old in
  exists fs' : filesystem,
    fileWrite cfg fs reqBody name
    = (fs', match derr with
            | None => Success (mkFile (Some name)
                                 (Some (Z.of_nat (List.length content))) None None)
            | Some _ => Failure (errorDto errWritingFileFailed name)
            end)
    /\ find_node (q ++ [e]) fs' = Ok (Os.File content).
Proof.
  intros Hdec old content.
  destruct (OpenFile_for_writing fs (prepareAbsolutePath cfg name)
              [O_CREATE; O_WRONLY] q e es eq_refl eq_refl eq_refl
              resolved parent free) as (fs1 & Hopen & Hfind1).
  fold old in Hfind1.
  destruct (Copy_into_regular fs1 (q ++ [e]) (prepareAbsolutePath cfg name) false
              data old derr) as (fs2 & f2 & n & Hcopy & Hpath & Hfind2);
    [now destruct q|assumption|].
  exists fs2. split; [|assumption].
  unfold fileWrite. rewrite Hopen, Hdec. simpl has. rewrite Hcopy.
  destruct derr; [reflexivity|].
  unfold stat_size, FStat. rewrite Hpath, Hfind2. reflexivity.
Qed.

End FileChanges.

(** X1: when the directory of the name exists and the name is free or
    that of a regular file, [fileAppend] of a body that decodes puts
    the decoded bytes behind the content the file had, none of which
    changes, and returns the size of the whole file. *)
Theorem fileAppend_appends
    (cfg : Server.Configuration) (fs : Os.filesystem) (name : string)
    (q : list string) (e : string) (es : list (string * Os.node))
    (reqBody data : list byte) :
  Os.elements (Server.prepareAbsolutePath cfg name) = q ++ [e] ->
  Os.find_node q fs = Ok (Os.Dir es) ->
  (forall c, Os.lookup e es = Some c -> exists old, c = Os.File old) ->
  Base64.NewDecoder reqBody = (data, None) ->
  let old := match Os.find_node (q ++ [e]) fs with Ok (Os.File o) => o | _ => [] end in
  exists fs' : Os.filesystem,
    Server.fileAppend cfg fs reqBody name
    = (fs', Server.Success
              (Server.mkFile (Some name)
                 (Some (Z.of_nat (List.length old) + Z.of_nat (List.length data))%Z)
                 None None))
    /\ Os.find_node (q ++ [e]) fs' = Ok (Os.File (old ++ data)).
Proof.
  intros Hp Hq Hfree Hdec old.
  destruct (fileAppend_result cfg fs name q e es Hp Hq Hfree reqBody data None Hdec)
    as (fs' & Hres & Hfind).
  exists fs'. split; [|exact Hfind]. rewrite Hres. fold old.
  now rewrite length_app, Nat2Z.inj_add.
Qed.

Lemma fileAppend_appends_witness :
  exists fs' : Os.filesystem,
    Server.fileAppend Sample.cfg (Sample.one_file "f" (Sample.bytes "hello "))
      (Sample.bytes "d29ybGQ=") "/f"
    = (fs', Server.Success (Server.mkFile (Some "/f") (Some (6 + 5)%Z) None None))
    /\ Os.find_node (["srv"; "data"] ++ ["f"]) fs'
       = Ok (Os.File (Sample.bytes "hello " ++ Sample.bytes "world")).
Proof.
  apply (fileAppend_appends Sample.cfg (Sample.one_file "f" (Sample.bytes "hello "))
           "/f" ["srv"; "data"] "f" [("f", Os.File (Sample.bytes "hello "))]
           (Sample.bytes "d29ybGQ=") (Sample.bytes "world")).
  - reflexivity.
  - reflexivity.
  - intros c [= <-]. now exists (Sample.bytes "hello ").
  - reflexivity.
Defined.

(** X2: two calls of [fileAppend] on a name compose: after the bodies
    of [a] and of [b] are appended one after the other the file holds
    its old content followed by [a] and by [b], and the second call
    returns the sum of the three lengths. *)
Theorem fileAppend_composes
    (cfg : Server.Configuration) (fs : Os.filesystem) (name : string)
    (q : list string) (e : string) (es : list (string * Os.node))
    (a b : list byte) :
  Os.elements (Server.prepareAbsolutePath cfg name) = q ++ [e] ->
  Os.find_node q fs = Ok (Os.Dir es) ->
  (forall c, Os.lookup e es = Some c -> exists old, c = Os.File old) ->
  let old := match Os.find_node (q ++ [e]) fs with Ok (Os.File o) => o | _ => [] end in
  exists (fs1 fs2 : Os.filesystem) (file1 : Server.File),
    Server.fileAppend cfg fs (Base64.EncodeToString a) name
      = (fs1, Server.Success file1)
    /\ Server.fileAppend cfg fs1 (Base64.EncodeToString b) name
       = (fs2, Server.Success
                 (Server.mkFile (Some name)
                    (Some (Z.of_nat (List.length old + List.length a + List.length b)))
                    None None))
    /\ Os.find_node (q ++ [e]) fs2 = Ok (Os.File (old ++ a ++ b)).
Proof.
  intros Hp Hq Hfree old.
  destruct (fileAppend_result cfg fs name q e es Hp Hq Hfree
              (Base64.EncodeToString a) a None (NewDecoder_EncodeToString a))
    as (fs1 & Hres1 & Hfind1).
  fold old in Hres1, Hfind1.
  destruct (find_node_last _ _ _ _ Hfind1) as (es1 & Hq1 & Hl1).
  destruct (fileAppend_result cfg fs1 name q e es1 Hp Hq1) with
    (reqBody := Base64.EncodeToString b) (data := b) (derr := @None error)
    as (fs2 & Hres2 & Hfind2).
  - intros c Hc. rewrite Hl1 in Hc. injection Hc as <-. now eexists.
  - apply NewDecoder_EncodeToString.
  - rewrite Hfind1 in Hres2, Hfind2.
    exists fs1, fs2. eexists. split; [exact Hres1|]. split.
    + rewrite Hres2. rewrite <- app_assoc, !length_app, Nat.add_assoc. reflexivity.
    + now rewrite <- app_assoc in Hfind2.
Qed.

Lemma fileAppend_composes_witness :
  exists (fs1 fs2 : Os.filesystem) (file1 : Server.File),
    Server.fileAppend Sample.cfg Sample.empty_root
      (Base64.EncodeToString (Sample.bytes "A")) "/f" = (fs1, Server.Success file1)
    /\ Server.fileAppend Sample.cfg fs1
         (Base64.EncodeToString (Sample.bytes "BC")) "/f"
       = (fs2, Server.Success (Server.mkFile (Some "/f") (Some 3%Z) None None))
    /\ Os.find_node (["srv"; "data"] ++ ["f"]) fs2
       = Ok (Os.File ([] ++ Sample.bytes "A" ++ Sample.bytes "BC")).
Proof.
  apply (fileAppend_composes Sample.cfg Sample.empty_root "/f" ["srv"; "data"] "f" []
           (Sample.bytes "A") (Sample.bytes "BC")).
  - reflexivity.
  - reflexivity.
  - intros c [=].
Defined.

(** X3: [fileWrite] is not undone when the body turns out corrupt, by
    a character outside the alphabet or by its end within a quantum
    (a body without padding character, so that what the decoder
    delivers does not depend on how the body reaches it): it returns
    [WritingFileFailed], and the file exists afterwards and holds the
    bytes decoded before the corruption over the start of the content
    it had. *)
Theorem fileWrite_corrupt_body_not_undone
    (cfg : Server.Configuration) (fs : Os.filesystem) (name : string)
    (q : list string) (e : string) (es : list (string * Os.node))
    (reqBody data : list byte) (err : error) :
  Os.elements (Server.prepareAbsolutePath cfg name) = q ++ [e] ->
  Os.find_node q fs = Ok (Os.Dir es) ->
  (forall c, Os.lookup e es = Some c -> exists old, c = Os.File old) ->
  ~ In Base64.StdPadding reqBody ->
  Base64.NewDecoder reqBody = (data, Some err) ->
  let old := match Os.find_node (q ++ [e]) fs with Ok (Os.File o) => o | _ => [] end in
  exists fs' : Os.filesystem,
    Server.fileWrite cfg fs reqBody name
    = (fs', Server.Failure (Server.errorDto Server.errWritingFileFailed name))
    /\ Os.find_node (q ++ [e]) fs'
       = Ok (Os.File (data ++ skipn (List.length data) old)).
Proof.
  intros Hp Hq Hfree _ Hdec.
  exact (fileWrite_result cfg fs name q e es Hp Hq Hfree reqBody data (Some err) Hdec).
Qed.

Lemma fileWrite_corrupt_body_not_undone_witness :
  exists fs' : Os.filesystem,
    Server.fileWrite Sample.cfg Sample.empty_root (Sample.bytes "aGVs!!!!") "/f"
    = (fs', Server.Failure (Server.errorDto Server.errWritingFileFailed "/f"))
    /\ Os.find_node (["srv"; "data"] ++ ["f"]) fs'
       = Ok (Os.File (Sample.bytes "hel" ++ skipn 3 [])).
Proof.
  apply (fileWrite_corrupt_body_not_undone Sample.cfg Sample.empty_root "/f"
           ["srv"; "data"] "f" [] (Sample.bytes "aGVs!!!!") (Sample.bytes "hel")
           CorruptInputError).
  - reflexivity.
  - reflexivity.
  - intros c [=].
  - vm_compute. intuition discriminate.
  - reflexivity.
Defined.

(** ** What the file operations leave alone *)

Section FileFrame.

Import Os Server.

Lemma OpenFile_path (fs fs1 : filesystem) (name : string) (flags : list flag)
    (f : file) :
  OpenFile fs name flags = (fs1, Ok f) -> f_path f = elements name.
Proof.
  unfold OpenFile. intros H.
  destruct (find_node (elements name) fs) as [[d|es]|e].
  - destruct (has O_TRUNC flags); [|now injection H as _ <-].
    destruct (alter _ (elements name) fs); [now injection H as _ <-|discriminate].
  - destruct (has O_WRONLY flags); [discriminate|now injection H as _ <-].
  - destruct e; try discriminate.
    destruct (has O_CREATE flags); [|discriminate].
    destruct (alter _ (elements name) fs); [now injection H as _ <-|discriminate].
Qed.

Lemma Remove_frame (fs : filesystem) (name : string) (p' : list string) :
  (forall x, elements name <> p' ++ x) -> (forall x, p' <> elements name ++ x) ->
  find_node p' (fst (Remove fs name)) = find_node p' fs.
Proof.
  unfold Remove. intros H1 H2.
  destruct (alter remove_entry (elements name) fs) as [fs'|x] eqn:Ha; [|reflexivity].
  now apply (alter_frame _ _ _ _ _ Ha).
Qed.

Lemma RemoveAll_frame (fs : filesystem) (name : string) (p' : list string) :
  (forall x, elements name <> p' ++ x) -> (forall x, p' <> elements name ++ x) ->
  find_node p' (fst (RemoveAll fs name)) = find_node p' fs.
Proof.
  unfold RemoveAll. intros H1 H2.
  destruct (alter _ (elements name) fs) as [fs'|x] eqn:Ha.
  - now apply (alter_frame _ _ _ _ _ Ha).
  - now destruct x.
Qed.

Variable cfg : Configuration.
Variable name : string.
Variable p' : list string.
Hypothesis not_above : forall x, elements (prepareAbsolutePath cfg name) <> p' ++ x.
Hypothesis not_below : forall x, p' <> elements (prepareAbsolutePath cfg name) ++ x.

(** Opening with any flags and copying any stream into the file. *)
Lemma open_copy_frame (fs : filesystem) (flags : list flag) (src : Io.Reader) :
  find_node p'
    match OpenFile fs (prepareAbsolutePath cfg name) flags with
    | (fs1, Ok file) => fst (fst (fst (Io.Copy writer (fs1, file) src)))
    | (fs1, Err _) => fs1
    end
  = find_node p' fs.
Proof.
  destruct (OpenFile fs (prepareAbsolutePath cfg name) flags) as [fs1 [file|x]] eqn:Ho.
  - pose proof (OpenFile_path _ _ _ _ _ Ho) as Hpath.
    destruct (Io.Copy writer (fs1, file) src) as [[[fs2 f2] n] err] eqn:Hc.
    cbn [fst].
    rewrite (Copy_writer_frame fs1 fs2 file f2 src n err p' Hc)
      by (rewrite Hpath; assumption).
    now apply (OpenFile_frame _ _ _ _ _ _ Ho).
  - now apply (OpenFile_frame _ _ _ _ _ _ Ho).
Qed.

Lemma fileWrite_frame (fs : filesystem) (reqBody : list byte) :
  find_node p' (fst (fileWrite cfg fs reqBody name)) = find_node p' fs.
Proof.
  rewrite <- (open_copy_frame fs [O_CREATE; O_WRONLY] (Base64.NewDecoder reqBody)).
  unfold fileWrite.
  destruct (OpenFile fs (prepareAbsolutePath cfg name) _) as [fs1 [file|x]];
    [|reflexivity].
  destruct (Io.Copy writer (fs1, file) _) as [[[fs2 f2] n] [err|]]; reflexivity.
Qed.

Lemma fileAppend_frame (fs : filesystem) (reqBody : list byte) :
  find_node p' (fst (fileAppend cfg fs reqBody name)) = find_node p' fs.
Proof.
  rewrite <- (open_copy_frame fs [O_APPEND; O_CREATE; O_WRONLY]
                (Base64.NewDecoder reqBody)).
  unfold fileAppend.
  destruct (OpenFile fs (prepareAbsolutePath cfg name) _) as [fs1 [file|x]];
    [|reflexivity].
  destruct (Io.Copy writer (fs1, file) _) as [[[fs2 f2] n] [err|]]; reflexivity.
Qed.

Lemma fileDelete_frame (fs : filesystem) :
  find_node p' (fst (fileDelete cfg fs name)) = find_node p' fs.
Proof.
  unfold fileDelete.
  destruct (Stat fs (prepareAbsolutePath cfg name)) as [info|x].
  - destruct (IsDir info); [reflexivity|].
    rewrite <- (Remove_frame fs (prepareAbsolutePath cfg name) p' not_above not_below).
    now destruct (Remove fs (prepareAbsolutePath cfg name)) as [fs' [x|]].
  - now destruct (IsNotExist x).
Qed.

End FileFrame.

(** X4: [fileWrite], [fileAppend] and [fileDelete] touch the named
    path only: whatever the body, the state of the file system and the
    outcome, every path that neither leads to the resolved path nor
    lies below it resolves afterwards to what it resolved to before. *)
Theorem file_changes_stay_local
    (cfg : Server.Configuration) (fs : Os.filesystem) (reqBody : list byte)
    (name : string) (p' : list string) :
  (forall x, Os.elements (Server.prepareAbsolutePath cfg name) <> p' ++ x) ->
  (forall x, p' <> Os.elements (Server.prepareAbsolutePath cfg name) ++ x) ->
  Os.find_node p' (fst (Server.fileWrite cfg fs reqBody name)) = Os.find_node p' fs
  /\ Os.find_node p' (fst (Server.fileAppend cfg fs reqBody name)) = Os.find_node p' fs
  /\ Os.find_node p' (fst (Server.fileDelete cfg fs name)) = Os.find_node p' fs.
Proof.
  intros H1 H2. split; [|split].
  - now apply fileWrite_frame.
  - now apply fileAppend_frame.
  - now apply fileDelete_frame.
Qed.

Lemma file_changes_stay_local_witness :
  Os.find_node ["srv"; "data"; "a"; "f"]
    (fst (Server.fileWrite Sample.cfg Sample.nested (Sample.bytes "eHl6") "/f"))
  = Os.find_node ["srv"; "data"; "a"; "f"] Sample.nested
  /\ Os.find_node ["srv"; "data"; "a"; "f"]
       (fst (Server.fileAppend Sample.cfg Sample.nested (Sample.bytes "eHl6") "/f"))
     = Os.find_node ["srv"; "data"; "a"; "f"] Sample.nested
  /\ Os.find_node ["srv"; "data"; "a"; "f"]
       (fst (Server.fileDelete Sample.cfg Sample.nested "/f"))
     = Os.find_node ["srv"; "data"; "a"; "f"] Sample.nested.
Proof.
  apply (file_changes_stay_local Sample.cfg Sample.nested (Sample.bytes "eHl6") "/f"
           ["srv"; "data"; "a"; "f"]).
  - intros x. vm_compute. discriminate.
  - intros x. vm_compute. discriminate.
Defined.

(** X5: [fileDelete] on a regular file below [/] removes it and returns
    the size it had; afterwards the path does not exist, and
    [fileExists] answers for the name with [exists: false] and no
    size. *)
Theorem fileDelete_regular_file
    (cfg : Server.Configuration) (fs : Os.filesystem) (name : string)
    (d : list byte) :
  Os.elements (Server.prepareAbsolutePath cfg name) <> [] ->
  Os.find_node (Os.elements (Server.prepareAbsolutePath cfg name)) fs
    = Ok (Os.File d) ->
  exists fs' : Os.filesystem,
    Server.fileDelete cfg fs name
    = (fs', Server.Success
              (Server.mkFile (Some name) (Some (Z.of_nat (List.length d))) None None))
    /\ Os.find_node (Os.elements (Server.prepareAbsolutePath cfg name)) fs'
       = Err ENOENT
    /\ Server.fileExists cfg fs' name
       = Server.Success (Server.mkFile (Some name) None None (Some false)).
Proof.
  intros Hp Hd.
  destruct (alter_succeeds Os.remove_entry _ fs (Os.File d) None Hp Hd eq_refl)
    as (fs' & Ha).
  destruct (alter_existing _ _ _ _ _ Ha Hd) as (o & Ho & Hgone).
  injection Ho as <-.
  exists fs'. split; [|split].
  - unfold Server.fileDelete, Os.Stat, Os.Remove. rewrite Hd, Ha. reflexivity.
  - exact Hgone.
  - unfold Server.fileExists, Os.Stat. rewrite Hgone. reflexivity.
Qed.

Lemma fileDelete_regular_file_witness :
  exists fs' : Os.filesystem,
    Server.fileDelete Sample.cfg (Sample.one_file "f" (Sample.bytes "hello")) "/f"
    = (fs', Server.Success
              (Server.mkFile (Some "/f")
                 (Some (Z.of_nat (List.length (Sample.bytes "hello")))) None None))
    /\ Os.find_node (Os.elements (Server.prepareAbsolutePath Sample.cfg "/f")) fs'
       = Err ENOENT
    /\ Server.fileExists Sample.cfg fs' "/f"
       = Server.Success (Server.mkFile (Some "/f") None None (Some false)).
Proof.
  apply (fileDelete_regular_file Sample.cfg
           (Sample.one_file "f" (Sample.bytes "hello")) "/f" (Sample.bytes "hello")).
  - vm_compute. discriminate.
  - reflexivity.
Defined.

(** X6: a [fileDelete] that fails has changed nothing, and a directory
    is never deleted by it, not even an empty one: the answer is
    [NotAFile]; a name that does not exist gives [FileNotFound]. *)
Theorem fileDelete_failure_changes_nothing
    (cfg : Server.Configuration) (fs : Os.filesystem) (name : string) :
  (forall fs' e, Server.fileDelete cfg fs name = (fs', Server.Failure e) -> fs' = fs)
  /\ (forall es,
        Os.find_node (Os.elements (Server.prepareAbsolutePath cfg name)) fs
          = Ok (Os.Dir es) ->
        Server.fileDelete cfg fs name
        = (fs, Server.Failure (Server.errorDto Server.errNotAFile name)))
  /\ (Os.find_node (Os.elements (Server.prepareAbsolutePath cfg name)) fs
        = Err ENOENT ->
      Server.fileDelete cfg fs name
      = (fs, Server.Failure (Server.errorDto Server.errFileNotFound name))).
Proof.
  split; [|split].
  - intros fs' e. unfold Server.fileDelete, Os.Remove.
    destruct (Os.Stat fs _) as [info|x].
    + destruct (Os.IsDir info); [now intros [= <- _]|].
      destruct (Os.alter _ _ fs); [discriminate|now intros [= <- _]].
    + destruct (Os.IsNotExist x); now intros [= <- _].
  - intros es H. unfold Server.fileDelete, Os.Stat. now rewrite H.
  - intros H. unfold Server.fileDelete, Os.Stat. now rewrite H.
Qed.

Lemma fileDelete_failure_changes_nothing_witness :
  fst (Server.fileDelete Sample.cfg (Sample.one_file "f" []) "/f/x")
    = Sample.one_file "f" []
  /\ Server.fileDelete Sample.cfg Sample.tree "/a/sub"
     = (Sample.tree, Server.Failure (Server.errorDto Server.errNotAFile "/a/sub"))
  /\ Server.fileDelete Sample.cfg Sample.tree "/a/missing"
     = (Sample.tree,
        Server.Failure (Server.errorDto Server.errFileNotFound "/a/missing")).
Proof.
  split; [|split].
  - apply (proj1 (fileDelete_failure_changes_nothing Sample.cfg
                    (Sample.one_file "f" []) "/f/x")
             _ (Server.errorDto Server.errRetrievingFileInfoFailed "/f/x")).
    reflexivity.
  - apply (proj1 (proj2 (fileDelete_failure_changes_nothing Sample.cfg Sample.tree
                           "/a/sub")) []).
    reflexivity.
  - apply (proj2 (proj2 (fileDelete_failure_changes_nothing Sample.cfg Sample.tree
                           "/a/missing"))).
    reflexivity.
Defined.

(** ** What the reads serve *)

Section Serving.

Import Os Server.

Lemma encode_blocks_rest_mod (src : list byte) :
  List.length (snd (Base64.encode_blocks src)) = List.length src mod 3.
Proof.
  induction src as [l Hl|a b c l IH] using by_quanta.
  - destruct l as [|a [|b [|c l]]]; simpl in Hl; try lia; reflexivity.
  - simpl Base64.encode_blocks. destruct (Base64.encode_blocks l) as [out rest].
    cbn [snd] in *. rewrite IH.
    change (List.length (a :: b :: c :: l)) with (3 + List.length l).
    replace (3 + List.length l) with (List.length l + 1 * 3) by lia.
    now rewrite Nat.Div0.mod_add.
Qed.

(** The quanta an open encoder has written decode to the source
    without the bytes it still holds. *)
Lemma NewDecoder_encode_blocks (src : list byte) :
  Base64.NewDecoder (fst (Base64.encode_blocks src))
  = (firstn (List.length src - List.length src mod 3) src, None).
Proof.
  unfold Base64.NewDecoder. rewrite filter_all.
  - pose proof (decode_encode_blocks src []) as Hd.
    rewrite app_nil_r in Hd. rewrite Hd, encode_blocks_rest_mod. simpl.
    now rewrite app_nil_r.
  - eapply Forall_impl; [|apply encode_blocks_no_newline].
    intros x Hx. now rewrite Hx.
Qed.

Lemma served_status (w : Http.ResponseWriter) (part : list byte) :
  Http.status (served w part)
  = match Http.status w with None => Some 200%Z | s => s end.
Proof.
  unfold served, Base64.Write, Base64.NewEncoder. cbn [Base64.e_buf Base64.e_w app].
  destruct (Base64.encode_blocks part) as [out rest].
  destruct w as [[s|] h b0]; destruct out as [|b out]; reflexivity.
Qed.

(** Once the status is written it stays written, whatever the
    encoder is given. *)
Lemma encoder_Write_status (e : Base64.encoder Http.ResponseWriter) (p : list byte) :
  Http.status (Base64.e_w e) <> None ->
  Http.status (Base64.e_w (fst (Base64.Write Http.Write e p))) <> None.
Proof.
  intros H. unfold Base64.Write.
  destruct (Base64.encode_blocks (Base64.e_buf e ++ p)) as [out rest].
  destruct out as [|b out]; cbn [fst Base64.e_w]; [assumption|].
  unfold Http.Write. cbn [fst Http.status].
  destruct (Http.status (Base64.e_w e)); [discriminate|congruence].
Qed.

Lemma CopyN_status (e e' : Base64.encoder Http.ResponseWriter) (src : Io.Reader)
    (n k : Z) (err : option error) :
  Io.CopyN (Base64.Write Http.Write) e src n = (e', k, err) ->
  Http.status (Base64.e_w e) <> None ->
  Http.status (Base64.e_w e') <> None.
Proof.
  intros H He. unfold Io.CopyN, Io.Copy in H.
  destruct (fst (Io.LimitReader src n)) as [|b data].
  - destruct (0 =? n)%Z; [now injection H as <- _ _|].
    destruct (0 <? n)%Z; [destruct (snd (Io.LimitReader src n))|];
      now injection H as <- _ _.
  - pose proof (encoder_Write_status e (b :: data) He) as Hw.
    destruct (Base64.Write Http.Write e (b :: data)) as [e1 [x|]]; cbn [fst] in Hw.
    + destruct (0 =? n)%Z; [now injection H as <- _ _|].
      destruct (0 <? n)%Z; now injection H as <- _ _.
    + destruct (_ =? n)%Z; [now injection H as <- _ _|].
      destruct (_ <? n)%Z; [destruct (snd (Io.LimitReader src n))|];
        now injection H as <- _ _.
Qed.

(** [Read] at the start of a regular file that is not empty. *)
Lemma Read_regular (fs : filesystem) (p : list string) (nm : string) (app : bool)
    (d : list byte) (n : nat) :
  find_node p fs = Ok (Os.File d) -> d <> [] -> n <> 0 ->
  Read fs (mkfile p nm 0 app) n
  = (mkfile p nm (0 + List.length (firstn n d)) app, Ok (firstn n d)).
Proof.
  intros Hreg Hd Hn. unfold Read. cbn [f_path f_pos f_name f_append]. rewrite Hreg.
  destruct d as [|b d]; [congruence|]. destruct n as [|n]; [congruence|].
  reflexivity.
Qed.

End Serving.

(** X7: on a regular file, with offset and size in their bounds,
    [readFile] returns no error and has written the status 200, and
    the body it has written decodes to the requested window (clamped
    to the end of the file) without its last [n mod 3] bytes, [n]
    being the length of the window: the encoder is left open, so the
    bytes of an incomplete quantum are never sent. *)
Theorem readFile_serves_whole_quanta
    (cfg : Server.Configuration) (fs : Os.filesystem) (name : string)
    (d : list byte) (offset size : Z) :
  Os.find_node (Os.elements (Server.prepareAbsolutePath cfg name)) fs
    = Ok (Os.File d) ->
  let fileSize := Z.of_nat (List.length d) in
  (0 <= offset <= fileSize)%Z -> (0 < size <= fileSize)%Z ->
  (fileSize < 2 ^ 62)%Z ->
  let part := Server.window d offset (Z.min size (fileSize - offset)) in
  exists w : Http.ResponseWriter,
    Server.readFile cfg fs Http.NewResponseWriter name offset size = (w, None)
    /\ Http.status w = Some 200%Z
    /\ Base64.NewDecoder (Http.body w)
       = (firstn (List.length part - List.length part mod 3) part, None).
Proof.
  intros Hreg fileSize Hoff Hsize Hbig part.
  exists (Server.served Http.NewResponseWriter part). split; [|split].
  - now apply (readFile_window cfg fs Http.NewResponseWriter name d Hreg).
  - now rewrite served_status.
  - rewrite served_body. simpl app. apply NewDecoder_encode_blocks.
Qed.

Lemma readFile_serves_whole_quanta_witness :
  exists w : Http.ResponseWriter,
    Server.readFile Sample.cfg (Sample.one_file "f" (Sample.bytes "0123456789"))
      Http.NewResponseWriter "/f" 2 5 = (w, None)
    /\ Http.status w = Some 200%Z
    /\ Base64.NewDecoder (Http.body w) = (Sample.bytes "234", None).
Proof.
  apply (readFile_serves_whole_quanta Sample.cfg
           (Sample.one_file "f" (Sample.bytes "0123456789")) "/f"
           (Sample.bytes "0123456789") 2 5).
  - reflexivity.
  - simpl. lia.
  - simpl. lia.
  - reflexivity.
Defined.

(** X8: [readFile] reports every error but one before it writes
    anything: whenever it returns an error other than
    [ReadingFileFailed] the response is as it was; when it returns
    [ReadingFileFailed] the status has been written before, so that
    the error can no longer become the answer. *)
Theorem readFile_error_response
    (cfg : Server.Configuration) (fs : Os.filesystem) (w w' : Http.ResponseWriter)
    (name : string) (offset size : Z) (e : Server.ErrorDto) :
  Server.readFile cfg fs w name offset size = (w', Some e) ->
  (e <> Server.errorDto Server.errReadingFileFailed name -> w' = w)
  /\ (e = Server.errorDto Server.errReadingFileFailed name ->
      Http.status w' <> None).
Proof.
  destruct (Os.find_node (Os.elements (Server.prepareAbsolutePath cfg name)) fs)
    as [[d|es]|x] eqn:Hn.
  - rewrite (readFile_regular cfg fs w name d Hn). cbv zeta.
    destruct ((offset <? 0)%Z || (offset >? Z.of_nat (List.length d))%Z).
    { intros [= <- <-]. split; [reflexivity|discriminate]. }
    destruct ((size <=? 0)%Z || (size >? Z.of_nat (List.length d))%Z).
    { intros [= <- <-]. split; [reflexivity|discriminate]. }
    destruct (Io.CopyN _ _ _ _) as [[enc n] [x|]] eqn:Hcopy; [|discriminate].
    intros [= <- <-]. split; [congruence|]. intros _.
    apply (CopyN_status _ _ _ _ _ _ Hcopy). cbn [Base64.NewEncoder Base64.e_w].
    destruct w as [[code|] h b]; discriminate.
  - unfold Server.readFile, Os.Stat. rewrite Hn. simpl.
    intros [= <- <-]. split; [reflexivity|discriminate].
  - unfold Server.readFile, Os.Stat. rewrite Hn.
    destruct (Os.IsNotExist x); intros [= <- <-]; (split; [reflexivity|discriminate]).
Qed.

Lemma readFile_error_response_witness :
  (Server.errorDto Server.errInvalidParameterValue "offset (11)"
     <> Server.errorDto Server.errReadingFileFailed "/f" ->
   fst (Server.readFile Sample.cfg (Sample.one_file "f" (Sample.bytes "0123456789"))
          Http.NewResponseWriter "/f" 11 1)
   = Http.NewResponseWriter)
  /\ (Server.errorDto Server.errInvalidParameterValue "offset (11)"
        = Server.errorDto Server.errReadingFileFailed "/f" ->
      Http.status
        (fst (Server.readFile Sample.cfg
                (Sample.one_file "f" (Sample.bytes "0123456789"))
                Http.NewResponseWriter "/f" 11 1)) <> None).
Proof.
  apply (readFile_error_response Sample.cfg
           (Sample.one_file "f" (Sample.bytes "0123456789"))
           Http.NewResponseWriter _ "/f" 11 1
           (Server.errorDto Server.errInvalidParameterValue "offset (11)")).
  reflexivity.
Defined.

(** The shared read of a regular file that is not empty. *)
Lemma writeSharedFileContent_serves
    (DetectContentType : list byte -> string)
    (cfg : Server.Configuration) (fs : Os.filesystem) (name : string)
    (d : list byte) :
  Os.find_node (Os.elements (Server.prepareAbsolutePath cfg name)) fs
    = Ok (Os.File d) ->
  d <> [] ->
  exists w' : Http.ResponseWriter,
    Server.writeSharedFileContent DetectContentType cfg fs Http.NewResponseWriter name
    = (w', None)
    /\ Http.status w' = Some 200%Z /\ Http.body w' = d.
Proof.
  intros Hreg Hne.
  unfold Server.writeSharedFileContent, Os.Open, Os.OpenFile, Os.FStat.
  rewrite Hreg. cbn [snd Os.has existsb Os.flag_eqb orb Os.f_path Os.f_name].
  rewrite Hreg. cbn [Os.IsDir Os.info_of Os.node_is_dir].
  remember 512 as k eqn:Hk.
  assert (Hpos : k <> 0) by (subst k; discriminate).
  rewrite (Read_regular fs _ _ _ d k Hreg Hne Hpos).
  unfold Os.Seek, Os.reader. cbn [Z.ltb Z.compare Os.f_path Os.f_pos Z.to_nat].
  rewrite Hreg. cbn [skipn]. unfold Io.Copy. cbn [fst snd].
  destruct d as [|b d]; [congruence|].
  eexists. split; [reflexivity|]. split; reflexivity.
Qed.

(** X9: the shared read of a regular file that is not empty returns
    no error and has written the status 200 and, as the body, the
    whole content of the file, unencoded. *)
Theorem writeSharedFileContent_regular_file
    (DetectContentType : list byte -> string)
    (cfg : Server.Configuration) (fs : Os.filesystem) (name : string)
    (d : list byte) :
  Os.find_node (Os.elements (Server.prepareAbsolutePath cfg name)) fs
    = Ok (Os.File d) ->
  d <> [] ->
  exists w' : Http.ResponseWriter,
    Server.writeSharedFileContent DetectContentType cfg fs Http.NewResponseWriter name
    = (w', None)
    /\ Http.status w' = Some 200%Z /\ Http.body w' = d.
Proof. apply writeSharedFileContent_serves. Qed.

Lemma writeSharedFileContent_regular_file_witness :
  exists w' : Http.ResponseWriter,
    Server.writeSharedFileContent (fun _ => "text/plain; charset=utf-8") Sample.cfg
      (Sample.one_file "f" (Sample.bytes "hello")) Http.NewResponseWriter "/f"
    = (w', None)
    /\ Http.status w' = Some 200%Z /\ Http.body w' = Sample.bytes "hello".
Proof.
  apply (writeSharedFileContent_regular_file (fun _ => "text/plain; charset=utf-8")
           Sample.cfg (Sample.one_file "f" (Sample.bytes "hello")) "/f"
           (Sample.bytes "hello")).
  - reflexivity.
  - discriminate.
Defined.

(** A shared read that fails before the copy has written nothing:
    only [ReadingFileFailed] can come after the status. *)
Lemma writeSharedFileContent_failure
    (DetectContentType : list byte -> string)
    (cfg : Server.Configuration) (fs : Os.filesystem) (w w' : Http.ResponseWriter)
    (name : string) (e : Server.ErrorDto) :
  e <> Server.errorDto Server.errReadingFileFailed name ->
  Server.writeSharedFileContent DetectContentType cfg fs w name = (w', Some e) ->
  w' = w.
Proof.
  intros _. set (p := Os.elements (Server.prepareAbsolutePath cfg name)).
  unfold Server.writeSharedFileContent, Os.Open, Os.OpenFile, Os.FStat. fold p.
  destruct (Os.find_node p fs) as [[d|es]|x] eqn:Hn.
  - cbn [snd Os.has existsb Os.flag_eqb orb Os.f_path Os.f_name].
    rewrite Hn. cbn [Os.IsDir Os.info_of Os.node_is_dir].
    destruct d as [|b d].
    + unfold Os.Read. cbn [Os.f_path Os.f_pos]. rewrite Hn.
      cbn [skipn firstn]. now intros [= <- _].
    + remember 512 as k eqn:Hk.
      assert (Hpos : k <> 0) by (subst k; discriminate).
      rewrite (Read_regular fs _ _ _ (b :: d) k Hn) by (trivial; discriminate).
      unfold Os.Seek, Os.reader. cbn [Z.ltb Z.compare Os.f_path Os.f_pos Z.to_nat].
      rewrite Hn. cbn [skipn]. unfold Io.Copy. cbn [fst snd]. discriminate.
  - cbn [snd Os.has existsb Os.flag_eqb orb Os.f_path Os.f_name].
    rewrite Hn. cbn [Os.IsDir Os.info_of Os.node_is_dir]. now intros [= <- _].
  - destruct x; cbn [snd Os.has existsb Os.flag_eqb orb Os.IsNotExist];
      now intros [= <- _].
Qed.

(** X10: the shared read reports every error but [ReadingFileFailed]
    before it writes anything: whenever [writeSharedFileContent]
    returns another error the response is as it was; a directory gives
    [NotAFile] and a name that does not exist [FileNotFound]. *)
Theorem writeSharedFileContent_early_errors
    (DetectContentType : list byte -> string)
    (cfg : Server.Configuration) (fs : Os.filesystem) (w : Http.ResponseWriter)
    (name : string) :
  let p := Os.elements (Server.prepareAbsolutePath cfg name) in
  (forall w' e,
     Server.writeSharedFileContent DetectContentType cfg fs w name = (w', Some e) ->
     e <> Server.errorDto Server.errReadingFileFailed name ->
     w' = w)
  /\ (forall es, Os.find_node p fs = Ok (Os.Dir es) ->
      Server.writeSharedFileContent DetectContentType cfg fs w name
      = (w, Some (Server.errorDto Server.errNotAFile name)))
  /\ (Os.find_node p fs = Err ENOENT ->
      Server.writeSharedFileContent DetectContentType cfg fs w name
      = (w, Some (Server.errorDto Server.errFileNotFound name))).
Proof.
  intros p. split; [|split].
  - intros w' e H He. exact (writeSharedFileContent_failure _ _ _ _ _ _ _ He H).
  - intros es Hn.
    unfold Server.writeSharedFileContent, Os.Open, Os.OpenFile, Os.FStat.
    fold p. rewrite Hn. cbn [snd Os.has existsb Os.flag_eqb orb Os.f_path].
    now rewrite Hn.
  - intros Hn.
    unfold Server.writeSharedFileContent, Os.Open, Os.OpenFile. fold p.
    now rewrite Hn.
Qed.

Lemma writeSharedFileContent_early_errors_witness :
  fst (Server.writeSharedFileContent (fun _ => "text/plain; charset=utf-8")
         Sample.cfg (Sample.one_file "f" []) Http.NewResponseWriter "/f/x")
    = Http.NewResponseWriter
  /\ Server.writeSharedFileContent (fun _ => "text/plain; charset=utf-8")
       Sample.cfg Sample.tree Http.NewResponseWriter "/a/sub"
     = (Http.NewResponseWriter,
        Some (Server.errorDto Server.errNotAFile "/a/sub"))
  /\ Server.writeSharedFileContent (fun _ => "text/plain; charset=utf-8")
       Sample.cfg Sample.tree Http.NewResponseWriter "/a/missing"
     = (Http.NewResponseWriter,
        Some (Server.errorDto Server.errFileNotFound "/a/missing")).
Proof.
  split; [|split].
  - apply (proj1 (writeSharedFileContent_early_errors
                    (fun _ => "text/plain; charset=utf-8") Sample.cfg
                    (Sample.one_file "f" []) Http.NewResponseWriter "/f/x")
             _ (Server.errorDto Server.errOpeningFileForReadingFailed "/f/x")).
    + reflexivity.
    + discriminate.
  - apply (proj1 (proj2 (writeSharedFileContent_early_errors
                           (fun _ => "text/plain; charset=utf-8") Sample.cfg
                           Sample.tree Http.NewResponseWriter "/a/sub")) []).
    reflexivity.
  - apply (proj2 (proj2 (writeSharedFileContent_early_errors
                           (fun _ => "text/plain; charset=utf-8") Sample.cfg
                           Sample.tree Http.NewResponseWriter "/a/missing"))).
    reflexivity.
Defined.

(** ** Making and removing directories *)

Section MakeDirectories.

Import Os.

Lemma put_same (e : string) (c : node) (es : list (string * node)) :
  lookup e es = Some c -> put e c es = es.
Proof.
  induction es as [|[n d] es IH]; simpl; [discriminate|].
  destruct (String.eqb_spec n e) as [->|Hne].
  - now intros [= ->].
  - intros H. now rewrite IH.
Qed.

(** [MkdirAll] on a directory that exists does nothing. *)
Lemma mkdir_all_existing (p : list string) :
  forall (fs : node) (es : list (string * node)),
  find_node p fs = Ok (Dir es) -> mkdir_all p fs = Ok fs.
Proof.
  induction p as [|e p IH]; intros fs es; simpl.
  - now intros [= ->].
  - destruct fs as [d|es0]; [discriminate|].
    destruct (lookup e es0) as [c|] eqn:Hl; [|discriminate].
    intros H. rewrite (IH c es H). now rewrite put_same.
Qed.

(** After [MkdirAll] the path is a directory. *)
Lemma mkdir_all_dir (p : list string) :
  forall fs fs' : node,
  mkdir_all p fs = Ok fs' -> exists es, find_node p fs' = Ok (Dir es).
Proof.
  induction p as [|e p IH]; intros fs fs'; simpl.
  - destruct fs as [d|es]; [discriminate|]. intros [= <-]. now exists es.
  - destruct fs as [d|es]; [discriminate|].
    destruct (mkdir_all p _) as [c'|x] eqn:Hc; [|discriminate].
    intros [= <-]. simpl. rewrite lookup_put_same. exact (IH _ _ Hc).
Qed.

(** [MkdirAll] leaves the regular files as they are. *)
Lemma mkdir_all_keeps_files (p : list string) :
  forall (fs fs' : node) (p' : list string) (d : list byte),
  mkdir_all p fs = Ok fs' -> find_node p' fs = Ok (File d) ->
  find_node p' fs' = Ok (File d).
Proof.
  induction p as [|e p IH]; intros fs fs' p' d; simpl.
  - destruct fs; [discriminate|]. now intros [= <-].
  - destruct fs as [d0|es]; [discriminate|].
    destruct (mkdir_all p _) as [c'|x] eqn:Hc; [|discriminate].
    intros [= <-]. destruct p' as [|k r]; [discriminate|]. simpl.
    destruct (String.eqb_spec e k) as [<-|Hne].
    + rewrite lookup_put_same. destruct (lookup e es) as [c|]; [|discriminate].
      now apply IH.
    + now rewrite lookup_put_other.
Qed.

Lemma mkdir_all_frame (p : list string) :
  forall (fs fs' : node) (p' : list string),
  mkdir_all p fs = Ok fs' ->
  (forall r, p <> p' ++ r) -> (forall r, p' <> p ++ r) ->
  find_node p' fs' = find_node p' fs.
Proof.
  induction p as [|e p IH]; intros fs fs' p' Hm H1 H2.
  - exfalso. now apply (H2 p').
  - simpl in Hm. destruct fs as [d0|es]; [discriminate|].
    destruct (mkdir_all p _) as [c'|x] eqn:Hc; [|discriminate].
    injection Hm as <-.
    destruct p' as [|k r]; [exfalso; now apply (H1 (e :: p))|]. simpl.
    destruct (String.eqb_spec e k) as [<-|Hne].
    + rewrite lookup_put_same.
      destruct (unrelated_cons e p r H1 H2) as [H1' H2'].
      rewrite (IH _ _ r Hc H1' H2').
      destruct (lookup e es) as [c|]; [reflexivity|].
      destruct r as [|k2 r]; [exfalso; now apply (H1' p)|reflexivity].
    + now rewrite lookup_put_other.
Qed.

(** A call that refuses every entry that exists (as [Mkdir] does)
    leaves the regular files as they are. *)
Lemma alter_new_keeps_files (f : option node -> result (option node))
    (p : list string) :
  (forall n, exists x, f (Some n) = Err x) ->
  forall (fs fs' : node) (p' : list string) (d : list byte),
  alter f p fs = Ok fs' -> find_node p' fs = Ok (File d) ->
  find_node p' fs' = Ok (File d).
Proof.
  intros Hf. induction p as [|e p IH]; intros fs fs' p' d Ha Hd.
  - simpl in Ha. destruct (f (Some fs)); discriminate.
  - destruct fs as [d0|es]; [discriminate|].
    destruct p' as [|k r]; [discriminate|]. simpl in Hd.
    destruct p as [|e2 p2].
    + rewrite alter_single in Ha.
      destruct (String.eqb_spec e k) as [<-|Hne].
      * destruct (lookup e es) as [c|]; [|discriminate].
        destruct (Hf c) as [x Hx]. rewrite Hx in Ha. discriminate.
      * destruct (f (lookup e es)) as [[c|]|]; try discriminate;
          injection Ha as <-; simpl.
        -- now rewrite lookup_put_other.
        -- now rewrite lookup_drop_other.
    + rewrite alter_cons in Ha by discriminate.
      destruct (lookup e es) as [c|] eqn:Hl; [|discriminate].
      destruct (alter f (e2 :: p2) c) as [c'|] eqn:Hc; [|discriminate].
      injection Ha as <-. simpl.
      destruct (String.eqb_spec e k) as [<-|Hne].
      * rewrite lookup_put_same. rewrite Hl in Hd. now apply (IH c).
      * now rewrite lookup_put_other.
Qed.

(** A call on an entry whose directory does not resolve fails as the
    resolution does. *)
Lemma alter_no_parent (f : option node -> result (option node)) (q : list string)
    (e : string) :
  forall (fs : node) (x : error),
  find_node q fs = Err x -> alter f (q ++ [e]) fs = Err x.
Proof.
  induction q as [|k q IH]; intros fs x; [discriminate|].
  simpl find_node. destruct fs as [d|es]; [now intros [= <-]|].
  change ((k :: q) ++ [e]) with (k :: (q ++ [e])).
  rewrite alter_cons by now destruct q.
  destruct (lookup k es) as [c|]; [|trivial].
  intros H. now rewrite (IH c x H).
Qed.

Lemma alter_parent_file (f : option node -> result (option node)) (q : list string)
    (e : string) :
  forall (fs : node) (d : list byte),
  find_node q fs = Ok (File d) -> alter f (q ++ [e]) fs = Err ENOTDIR.
Proof.
  induction q as [|k q IH]; intros fs d.
  - simpl. now intros [= ->].
  - simpl find_node. destruct fs as [d0|es]; [discriminate|].
    change ((k :: q) ++ [e]) with (k :: (q ++ [e])).
    rewrite alter_cons by now destruct q.
    destruct (lookup k es) as [c|]; [|discriminate].
    intros H. now rewrite (IH c d H).
Qed.

(** [Mkdir] where something exists. *)
Lemma Mkdir_existing (p : list string) :
  forall fs n : node, find_node p fs = Ok n -> alter mkdir_entry p fs = Err EEXIST.
Proof.
  intros fs n Hn. destruct p as [|k p] using rev_ind; [reflexivity|].
  destruct (find_node_last _ _ _ _ Hn) as (es & Hq & Hl).
  apply (alter_at_error _ _ _ _ es _ Hq). now rewrite Hl.
Qed.

End MakeDirectories.

(** X11: [createDirectory] never changes a regular file: with either
    flag and whatever the outcome, every path that holds a regular
    file holds the same file afterwards. *)
Theorem createDirectory_keeps_files
    (cfg : Server.Configuration) (fs : Os.filesystem) (name : string) (all : bool)
    (p' : list string) (d : list byte) :
  Os.find_node p' fs = Ok (Os.File d) ->
  Os.find_node p' (fst (Server.createDirectory cfg fs name all)) = Ok (Os.File d).
Proof.
  intros Hd. unfold Server.createDirectory, Os.MkdirAll, Os.Mkdir. destruct all.
  - destruct (Os.mkdir_all _ fs) as [fs'|x] eqn:Hm; [|exact Hd].
    exact (mkdir_all_keeps_files _ _ _ _ _ Hm Hd).
  - destruct (Os.alter Os.mkdir_entry _ fs) as [fs'|x] eqn:Ha.
    + refine (alter_new_keeps_files Os.mkdir_entry _ _ fs fs' p' d Ha Hd).
      intros n. now exists EEXIST.
    + now destruct (Os.IsExist x).
Qed.

Lemma createDirectory_keeps_files_witness :
  Os.find_node ["srv"; "data"; "a"; "f"]
    (fst (Server.createDirectory Sample.cfg Sample.nested "/a/f/g" true))
  = Ok (Os.File (Sample.bytes "inner")).
Proof.
  apply (createDirectory_keeps_files Sample.cfg Sample.nested "/a/f/g" true
           ["srv"; "data"; "a"; "f"] (Sample.bytes "inner")).
  reflexivity.
Defined.

(** X12: [createDirectory] with the flag [all] is idempotent: after a
    call that succeeds the path is a directory, and the same call again
    succeeds with the same answer and changes nothing. *)
Theorem createDirectory_all_idempotent
    (cfg : Server.Configuration) (fs fs' : Os.filesystem) (name : string)
    (dir : Server.Directory) :
  Server.createDirectory cfg fs name true = (fs', Server.Success dir) ->
  (exists es,
     Os.find_node (Os.elements (Server.prepareAbsolutePath cfg name)) fs'
     = Ok (Os.Dir es))
  /\ Server.createDirectory cfg fs' name true = (fs', Server.Success dir).
Proof.
  unfold Server.createDirectory, Os.MkdirAll.
  destruct (Os.mkdir_all _ fs) as [fs1|x] eqn:Hm; [|discriminate].
  intros [= <- <-]. destruct (mkdir_all_dir _ _ _ Hm) as [es Hes].
  split; [now exists es|]. now rewrite (mkdir_all_existing _ _ es Hes).
Qed.

Lemma createDirectory_all_idempotent_witness :
  (exists es,
     Os.find_node (Os.elements (Server.prepareAbsolutePath Sample.cfg "/x/y"))
       (fst (Server.createDirectory Sample.cfg Sample.empty_root "/x/y" true))
     = Ok (Os.Dir es))
  /\ Server.createDirectory Sample.cfg
       (fst (Server.createDirectory Sample.cfg Sample.empty_root "/x/y" true))
       "/x/y" true
     = (fst (Server.createDirectory Sample.cfg Sample.empty_root "/x/y" true),
        Server.Success (Server.mkDirectory "y" [] [])).
Proof.
  apply (createDirectory_all_idempotent Sample.cfg Sample.empty_root).
  reflexivity.
Defined.

(** X13: [createDirectory] without the flag [all] makes one directory:
    where anything exists under the name, a file or a directory, it
    answers [DirectoryAlreadyExists]; where the parent is not a
    directory it answers [CreatingDirectoryFailed]; in both cases
    nothing changes.  Where the parent is a directory and the name is
    free, the new directory is empty and the answer carries the name as
    it was given. *)
Theorem createDirectory_single
    (cfg : Server.Configuration) (fs : Os.filesystem) (name : string)
    (q : list string) (e : string) :
  Os.elements (Server.prepareAbsolutePath cfg name) = q ++ [e] ->
  (forall n, Os.find_node (q ++ [e]) fs = Ok n ->
     Server.createDirectory cfg fs name false
     = (fs, Server.Failure (Server.errorDto Server.errDirectoryAlreadyExists name)))
  /\ ((forall es, Os.find_node q fs <> Ok (Os.Dir es)) ->
      Server.createDirectory cfg fs name false
      = (fs, Server.Failure (Server.errorDto Server.errCreatingDirectoryFailed name)))
  /\ (forall es, Os.find_node q fs = Ok (Os.Dir es) -> Os.lookup e es = None ->
      exists fs' : Os.filesystem,
        Server.createDirectory cfg fs name false
        = (fs', Server.Success (Server.mkDirectory name [] []))
        /\ Os.find_node (q ++ [e]) fs' = Ok (Os.Dir [])).
Proof.
  intros Hp. unfold Server.createDirectory, Os.Mkdir. rewrite Hp.
  split; [|split].
  - intros n Hn. now rewrite (Mkdir_existing _ _ _ Hn).
  - intros Hq. destruct (Os.find_node q fs) as [[d|es]|x] eqn:Hn.
    + now rewrite (alter_parent_file _ _ _ _ _ Hn).
    + now elim (Hq es).
    + rewrite (alter_no_parent _ _ _ _ _ Hn).
      pose proof (find_node_errors _ _ _ Hn) as [->| ->]; reflexivity.
  - intros es Hq Hl.
    destruct (alter_at Os.mkdir_entry q e fs es (Some (Os.Dir [])) Hq)
      as (fs' & Ha & Hq'); [now rewrite Hl|].
    exists fs'. rewrite Ha. split; [reflexivity|].
    rewrite (find_node_entry _ _ _ _ Hq'). simpl. now rewrite lookup_put_same.
Qed.

Lemma createDirectory_single_witness :
  Server.createDirectory Sample.cfg Sample.nested "/f" false
    = (Sample.nested,
       Server.Failure (Server.errorDto Server.errDirectoryAlreadyExists "/f"))
  /\ Server.createDirectory Sample.cfg Sample.nested "/x/y" false
     = (Sample.nested,
        Server.Failure (Server.errorDto Server.errCreatingDirectoryFailed "/x/y"))
  /\ exists fs' : Os.filesystem,
       Server.createDirectory Sample.cfg Sample.empty_root "/x/" false
       = (fs', Server.Success (Server.mkDirectory "/x/" [] []))
       /\ Os.find_node (["srv"; "data"] ++ ["x"]) fs' = Ok (Os.Dir []).
Proof.
  split; [|split].
  - apply (proj1 (createDirectory_single Sample.cfg Sample.nested "/f"
                    ["srv"; "data"] "f" eq_refl) (Os.File (Sample.bytes "outer"))).
    reflexivity.
  - apply (proj1 (proj2 (createDirectory_single Sample.cfg Sample.nested "/x/y"
                           ["srv"; "data"; "x"] "y" eq_refl))).
    intros es. vm_compute. discriminate.
  - apply (proj2 (proj2 (createDirectory_single Sample.cfg Sample.empty_root "/x/"
                           ["srv"; "data"] "x" eq_refl)) []);
      reflexivity.
Defined.

(** X14: [deleteDirectory] without the flag [all], on a name that is
    not the root: an empty directory is removed, and so is a regular
    file, which the function does not tell from a directory; the answer
    carries the last element of the path, and the path does not exist
    afterwards. *)
Theorem deleteDirectory_single_removes
    (cfg : Server.Configuration) (fs : Os.filesystem) (name : string) (n : Os.node) :
  let fullName := Server.prepareAbsolutePath cfg name in
  fullName <> Server.RootDirectory cfg ->
  Os.elements fullName <> [] ->
  Os.find_node (Os.elements fullName) fs = Ok n ->
  n = Os.Dir [] \/ (exists d, n = Os.File d) ->
  exists fs' : Os.filesystem,
    Server.deleteDirectory cfg fs name false
    = (fs', Server.Success (Server.mkDirectory (Filepath.Base fullName) [] []))
    /\ Os.find_node (Os.elements fullName) fs' = Err ENOENT.
Proof.
  intros fullName Hroot Hp Hn Hkind.
  assert (Hrm : Os.remove_entry (Some n) = Ok None)
    by (destruct Hkind as [->|[d ->]]; reflexivity).
  destruct (alter_succeeds Os.remove_entry _ fs n None Hp Hn Hrm) as (fs' & Ha).
  destruct (alter_existing _ _ _ _ _ Ha Hn) as (o & Ho & Hgone).
  rewrite Hrm in Ho. injection Ho as <-.
  exists fs'. split; [|exact Hgone].
  unfold Server.deleteDirectory, Os.Remove. fold fullName.
  apply String.eqb_neq in Hroot. rewrite Hroot, Ha. reflexivity.
Qed.

Lemma deleteDirectory_single_removes_witness :
  exists fs' : Os.filesystem,
    Server.deleteDirectory Sample.cfg Sample.tree "/a/f.txt" false
    = (fs', Server.Success
              (Server.mkDirectory
                 (Filepath.Base (Server.prepareAbsolutePath Sample.cfg "/a/f.txt"))
                 [] []))
    /\ Os.find_node (Os.elements (Server.prepareAbsolutePath Sample.cfg "/a/f.txt"))
         fs' = Err ENOENT.
Proof.
  apply (deleteDirectory_single_removes Sample.cfg Sample.tree "/a/f.txt"
           (Os.File (Sample.bytes "x"))).
  - vm_compute. discriminate.
  - vm_compute. discriminate.
  - reflexivity.
  - right. now exists (Sample.bytes "x").
Defined.

(** X15: [deleteDirectory] without the flag [all] never removes a
    directory that has entries, and none at all when it fails: on such
    a directory and on a name that does not exist it answers
    [DeletingDirectoryFailed], and after any failure the file system is
    as it was. *)
Theorem deleteDirectory_single_refuses
    (cfg : Server.Configuration) (fs : Os.filesystem) (name : string) :
  let fullName := Server.prepareAbsolutePath cfg name in
  fullName <> Server.RootDirectory cfg ->
  (forall fs' e,
     Server.deleteDirectory cfg fs name false = (fs', Server.Failure e) -> fs' = fs)
  /\ (forall x es, Os.find_node (Os.elements fullName) fs = Ok (Os.Dir (x :: es)) ->
      Server.deleteDirectory cfg fs name false
      = (fs, Server.Failure (Server.errorDto Server.errDeletingDirectoryFailed name)))
  /\ (Os.find_node (Os.elements fullName) fs = Err ENOENT ->
      Server.deleteDirectory cfg fs name false
      = (fs, Server.Failure (Server.errorDto Server.errDeletingDirectoryFailed name))).
Proof.
  intros fullName Hroot. apply String.eqb_neq in Hroot.
  unfold Server.deleteDirectory, Os.Remove. fold fullName. rewrite Hroot.
  split; [|split].
  - intros fs' e.
    destruct (Os.alter Os.remove_entry _ fs); [discriminate|now intros [= <- _]].
  - intros x es Hn.
    destruct (Os.alter Os.remove_entry _ fs) as [fs'|err] eqn:Ha; [|reflexivity].
    destruct (alter_existing _ _ _ _ _ Ha Hn) as (o & Ho & _). discriminate.
  - intros Hn.
    destruct (Os.alter Os.remove_entry _ fs) as [fs'|err] eqn:Ha; [|reflexivity].
    destruct (alter_Ok _ _ _ _ Ha) as (q & e & es & o & Hp & Hq & Hf & _).
    rewrite Hp, (find_node_entry _ _ _ _ Hq) in Hn.
    destruct (Os.lookup e es); [discriminate|]. discriminate.
Qed.

Lemma deleteDirectory_single_refuses_witness :
  fst (Server.deleteDirectory Sample.cfg Sample.tree "/a" false) = Sample.tree
  /\ Server.deleteDirectory Sample.cfg Sample.tree "/a" false
     = (Sample.tree,
        Server.Failure (Server.errorDto Server.errDeletingDirectoryFailed "/a"))
  /\ Server.deleteDirectory Sample.cfg Sample.tree "/b" false
     = (Sample.tree,
        Server.Failure (Server.errorDto Server.errDeletingDirectoryFailed "/b")).
Proof.
  split; [|split].
  - apply (proj1 (deleteDirectory_single_refuses Sample.cfg Sample.tree "/a"
                    ltac:(vm_compute; discriminate))
             _ (Server.errorDto Server.errDeletingDirectoryFailed "/a")).
    reflexivity.
  - apply (proj1 (proj2 (deleteDirectory_single_refuses Sample.cfg Sample.tree "/a"
                           ltac:(vm_compute; discriminate)))
             ("f.txt", Os.File (Sample.bytes "x")) [("sub", Os.Dir [])]).
    reflexivity.
  - apply (proj2 (proj2 (deleteDirectory_single_refuses Sample.cfg Sample.tree "/b"
                           ltac:(vm_compute; discriminate)))).
    reflexivity.
Defined.

Section DirectoryFrame.

Import Os Server.

Variable cfg : Configuration.
Variable name : string.
Variable p' : list string.
Hypothesis not_above : forall x, elements (prepareAbsolutePath cfg name) <> p' ++ x.
Hypothesis not_below : forall x, p' <> elements (prepareAbsolutePath cfg name) ++ x.

Lemma createDirectory_frame (fs : filesystem) (all : bool) :
  find_node p' (fst (createDirectory cfg fs name all)) = find_node p' fs.
Proof.
  unfold createDirectory, MkdirAll, Mkdir. destruct all.
  - destruct (mkdir_all _ fs) as [fs'|x] eqn:Hm; [|reflexivity].
    now apply (mkdir_all_frame _ _ _ _ Hm).
  - destruct (alter mkdir_entry _ fs) as [fs'|x] eqn:Ha.
    + now apply (alter_frame _ _ _ _ _ Ha).
    + now destruct (IsExist x).
Qed.

Lemma deleteDirectory_frame (fs : filesystem) :
  find_node p' (fst (deleteDirectory cfg fs name false)) = find_node p' fs.
Proof.
  unfold deleteDirectory.
  destruct (String.eqb _ _); [reflexivity|].
  rewrite <- (Remove_frame fs (prepareAbsolutePath cfg name) p' not_above not_below).
  now destruct (Remove fs (prepareAbsolutePath cfg name)) as [fs' [x|]].
Qed.

End DirectoryFrame.

(** X16: [createDirectory], with either flag, and [deleteDirectory]
    without the flag [all] touch the named path and the directories
    that lead to it only: every path that neither leads to the
    resolved path nor lies below it resolves afterwards to what it
    resolved to before. *)
Theorem directory_changes_stay_local
    (cfg : Server.Configuration) (fs : Os.filesystem) (name : string) (all : bool)
    (p' : list string) :
  (forall x, Os.elements (Server.prepareAbsolutePath cfg name) <> p' ++ x) ->
  (forall x, p' <> Os.elements (Server.prepareAbsolutePath cfg name) ++ x) ->
  Os.find_node p' (fst (Server.createDirectory cfg fs name all)) = Os.find_node p' fs
  /\ Os.find_node p' (fst (Server.deleteDirectory cfg fs name false))
     = Os.find_node p' fs.
Proof.
  intros H1 H2. split.
  - now apply createDirectory_frame.
  - now apply deleteDirectory_frame.
Qed.

Lemma directory_changes_stay_local_witness :
  Os.find_node ["srv"; "data"; "f"]
    (fst (Server.createDirectory Sample.cfg Sample.nested "/a/b/c" true))
  = Os.find_node ["srv"; "data"; "f"] Sample.nested
  /\ Os.find_node ["srv"; "data"; "f"]
       (fst (Server.deleteDirectory Sample.cfg Sample.nested "/a/b/c" false))
     = Os.find_node ["srv"; "data"; "f"] Sample.nested.
Proof.
  apply (directory_changes_stay_local Sample.cfg Sample.nested "/a/b/c" true
           ["srv"; "data"; "f"]).
  - intros x. vm_compute. discriminate.
  - intros x. vm_compute. discriminate.
Defined.

(** ** Listing a directory *)

Section Listing.

Import Os Server.



End Listing.



(** X18: [directoryContent] and [directoryList] on what is no
    directory: [directoryContent] answers
    [ReadingDirectoryContentFailed] for a regular file as for a name
    that does not resolve, whereas [directoryList] answers for a
    regular file as for an empty directory, with the list of [/]
    alone. *)
Theorem listing_a_regular_file
    (cfg : Server.Configuration) (fs : Os.filesystem) (name : string)
    (d : list byte) :
  Os.find_node (Os.elements (Server.prepareAbsolutePath cfg name)) fs
    = Ok (Os.File d) ->
  Server.directoryContent cfg fs name
    = Server.Failure (Server.errorDto Server.errReadingDirectoryContentFailed name)
  /\ Server.directoryList cfg fs name = Server.Success ["/"].
Proof.
  intros Hn. split.
  - unfold Server.directoryContent, Os.ReadDir. now rewrite Hn.
  - unfold Server.directoryList, Os.Walk. rewrite Hn. simpl Os.sort_tree.
    rewrite walk_directoryList. simpl. unfold Server.listed. simpl.
    now rewrite String.eqb_refl.
Qed.

Lemma listing_a_regular_file_witness :
  Server.directoryContent Sample.cfg Sample.nested "/a/f"
    = Server.Failure
        (Server.errorDto Server.errReadingDirectoryContentFailed "/a/f")
  /\ Server.directoryList Sample.cfg Sample.nested "/a/f" = Server.Success ["/"].
Proof.
  apply (listing_a_regular_file Sample.cfg Sample.nested "/a/f"
           (Sample.bytes "inner")).
  reflexivity.
Defined.

(** ** The names of a path *)

(** X19: two names the transport layer accepts designate the same path
    exactly when they clean to the same name: [prepareAbsolutePath]
    tells apart all cleaned names, and only them. *)
Theorem prepareAbsolutePath_same_path
    (cfg : Server.Configuration) (name1 name2 : string) :
  Server.RootDirectory cfg <> "" ->
  Server.acceptedName name1 = true -> Server.acceptedName name2 = true ->
  (Server.prepareAbsolutePath cfg name1 = Server.prepareAbsolutePath cfg name2
   <-> Filepath.Clean name1 = Filepath.Clean name2).
Proof.
  intros Hroot H1 H2. apply acceptedName_rooted in H1, H2. split.
  - destruct (prepareAbsolutePath_slash cfg Hroot name1 H1) as [-> Hr1].
    destruct (prepareAbsolutePath_slash cfg Hroot name2 H2) as [-> Hr2].
    intros Heq. apply render_inj in Heq.
    + apply app_inv_head in Heq. unfold Filepath.Clean. now rewrite H1, H2, Heq.
    + apply canonical_app; [apply root_elems_canonical|assumption].
    + apply canonical_app; [apply root_elems_canonical|assumption].
  - unfold Server.prepareAbsolutePath. now intros ->.
Qed.

Lemma prepareAbsolutePath_same_path_witness :
  Server.prepareAbsolutePath Sample.cfg "/a/../b//c"
    = Server.prepareAbsolutePath Sample.cfg "/b/c/"
  <-> Filepath.Clean "/a/../b//c" = Filepath.Clean "/b/c/".
Proof.
  apply (prepareAbsolutePath_same_path Sample.cfg "/a/../b//c" "/b/c/").
  - discriminate.
  - reflexivity.
  - reflexivity.
Defined.

(** ** The checksum of a file *)

Section ChecksumFacts.

Import Os Server.

Lemma bytes_of_hex_hex (b : byte) (s : string) :
  Fmt.bytes_of_hex (Fmt.hex b ++ s)
  = match Fmt.bytes_of_hex s with
    | Some bs => Some (b :: bs)
    | None => None
    end.
Proof.
  destruct b; cbn -[Fmt.bytes_of_hex];
    change (Fmt.bytes_of_hex (String ?h (String ?l s)))
      with (match Fmt.digit_value h, Fmt.digit_value l, Fmt.bytes_of_hex s with
            | Some h', Some l', Some bs =>
                match Byte.of_nat (16 * h' + l') with
                | Some b' => Some (b' :: bs)
                | None => None
                end
            | _, _, _ => None
            end);
    destruct (Fmt.bytes_of_hex s); reflexivity.
Qed.

(** The digits of [%x] spell the bytes. *)
Lemma bytes_of_hex_Sprintf_x (bs : list byte) :
  Fmt.bytes_of_hex (Fmt.Sprintf_x bs) = Some bs.
Proof.
  induction bs as [|b bs IH]; [reflexivity|].
  cbn [Fmt.Sprintf_x fold_right]. fold (Fmt.Sprintf_x bs).
  now rewrite bytes_of_hex_hex, IH.
Qed.

Lemma Sprintf_x_length (bs : list byte) :
  String.length (Fmt.Sprintf_x bs) = 2 * List.length bs.
Proof.
  induction bs as [|b bs IH]; [reflexivity|].
  cbn [Fmt.Sprintf_x fold_right]. fold (Fmt.Sprintf_x bs).
  unfold Fmt.hex. cbn [String.append String.length List.length]. rewrite IH. lia.
Qed.

Variable sha256_Sum : list byte -> list byte.

Lemma fileChecksum_regular (cfg : Configuration) (fs : filesystem) (name : string)
    (d : list byte) :
  find_node (elements (prepareAbsolutePath cfg name)) fs = Ok (Os.File d) ->
  Checksum.fileChecksum sha256_Sum cfg fs name
  = Success (mkFile (Some name) (Some (Z.of_nat (List.length d)))
               (Some (Fmt.Sprintf_x (sha256_Sum d))) None).
Proof.
  intros Hn. unfold Checksum.fileChecksum, Open, OpenFile, reader, stat_size, FStat.
  rewrite Hn. cbn [snd has existsb flag_eqb orb f_path f_pos skipn].
  rewrite Hn. unfold Io.Copy, Checksum.hash_Write. cbn [fst snd].
  destruct d as [|b d]; reflexivity.
Qed.

End ChecksumFacts.

(** X20: [fileChecksum] of a regular file, the empty one included,
    answers with its size and the digest of its whole content, written
    as two lower-case hexadecimal digits per byte, from which the
    digest can be read back.  A directory gives
    [CalculatingChecksumFailed] and a name that does not exist
    [FileNotFound]. *)
Theorem fileChecksum_cases
    (sha256_Sum : list byte -> list byte)
    (cfg : Server.Configuration) (fs : Os.filesystem) (name : string) :
  let p := Os.elements (Server.prepareAbsolutePath cfg name) in
  (forall d, Os.find_node p fs = Ok (Os.File d) ->
     exists checksum,
       Checksum.fileChecksum sha256_Sum cfg fs name
       = Server.Success
           (Server.mkFile (Some name) (Some (Z.of_nat (List.length d)))
              (Some checksum) None)
       /\ checksum = Fmt.Sprintf_x (sha256_Sum d)
       /\ String.length checksum = 2 * List.length (sha256_Sum d)
       /\ Fmt.bytes_of_hex checksum = Some (sha256_Sum d))
  /\ (forall es, Os.find_node p fs = Ok (Os.Dir es) ->
      Checksum.fileChecksum sha256_Sum cfg fs name
      = Server.Failure
          (Server.errorDto Checksum.errCalculatingChecksumFailed name))
  /\ (Os.find_node p fs = Err ENOENT ->
      Checksum.fileChecksum sha256_Sum cfg fs name
      = Server.Failure (Server.errorDto Server.errFileNotFound name)).
Proof.
  intros p. split; [|split].
  - intros d Hn. eexists. split; [now apply fileChecksum_regular|].
    split; [reflexivity|]. split.
    + apply Sprintf_x_length.
    + apply bytes_of_hex_Sprintf_x.
  - intros es Hn.
    unfold Checksum.fileChecksum, Os.Open, Os.OpenFile, Os.reader. fold p.
    rewrite Hn. cbn [snd Os.has existsb Os.flag_eqb orb Os.f_path]. fold p.
    now rewrite Hn.
  - intros Hn. unfold Checksum.fileChecksum, Os.Open, Os.OpenFile. fold p.
    now rewrite Hn.
Qed.

Lemma fileChecksum_cases_witness :
  (exists checksum,
     Checksum.fileChecksum (fun d => firstn 2 d) Sample.cfg Sample.nested "/f"
     = Server.Success (Server.mkFile (Some "/f") (Some 5%Z) (Some checksum) None)
     /\ checksum = "6f75"
     /\ String.length checksum = 4
     /\ Fmt.bytes_of_hex checksum = Some (Sample.bytes "ou"))
  /\ Checksum.fileChecksum (fun d => firstn 2 d) Sample.cfg Sample.nested "/a"
     = Server.Failure
         (Server.errorDto Checksum.errCalculatingChecksumFailed "/a")
  /\ Checksum.fileChecksum (fun d => firstn 2 d) Sample.cfg Sample.nested "/b"
     = Server.Failure (Server.errorDto Server.errFileNotFound "/b").
Proof.
  split; [|split].
  - apply (proj1 (fileChecksum_cases (fun d => firstn 2 d) Sample.cfg Sample.nested
                    "/f") (Sample.bytes "outer")).
    reflexivity.
  - apply (proj1 (proj2 (fileChecksum_cases (fun d => firstn 2 d) Sample.cfg
                           Sample.nested "/a"))
             [("f", Os.File (Sample.bytes "inner"))]).
    reflexivity.
  - apply (proj2 (proj2 (fileChecksum_cases (fun d => firstn 2 d) Sample.cfg
                           Sample.nested "/b"))).
    reflexivity.
Defined.

(** X21: the checksum follows the writes: after [fileWrite] of a body
    that decodes to [data] the checksum of the name is the digest of
    [data] followed by what the old content had beyond it, and after
    [fileAppend] it is the digest of the old content followed by
    [data]; the sizes are those of these contents. *)
Theorem fileChecksum_after_write
    (sha256_Sum : list byte -> list byte)
    (cfg : Server.Configuration) (fs : Os.filesystem) (name : string)
    (q : list string) (e : string) (es : list (string * Os.node))
    (reqBody data : list byte) :
  Os.elements (Server.prepareAbsolutePath cfg name) = q ++ [e] ->
  Os.find_node q fs = Ok (Os.Dir es) ->
  (forall c, Os.lookup e es = Some c -> exists old, c = Os.File old) ->
  Base64.NewDecoder reqBody = (data, None) ->
  let old := match Os.find_node (q ++ [e]) fs with Ok (Os.File o) => o | _ => [] end in
  let checksum_of (content : list byte) :=
    Server.Success
      (Server.mkFile (Some name) (Some (Z.of_nat (List.length content)))
         (Some (Fmt.Sprintf_x (sha256_Sum content))) None) in
  Checksum.fileChecksum sha256_Sum cfg
    (fst (Server.fileWrite cfg fs reqBody name)) name
    = checksum_of (data ++ skipn (List.length data) old)
  /\ Checksum.fileChecksum sha256_Sum cfg
       (fst (Server.fileAppend cfg fs reqBody name)) name
     = checksum_of (old ++ data).
Proof.
  intros Hp Hq Hfree Hdec old checksum_of. split.
  - destruct (fileWrite_result cfg fs name q e es Hp Hq Hfree reqBody data None Hdec)
      as (fs' & -> & Hfind).
    cbn [fst]. apply fileChecksum_regular. now rewrite Hp.
  - destruct (fileAppend_result cfg fs name q e es Hp Hq Hfree reqBody data None Hdec)
      as (fs' & -> & Hfind).
    cbn [fst]. apply fileChecksum_regular. now rewrite Hp.
Qed.

Lemma fileChecksum_after_write_witness :
  Checksum.fileChecksum (fun d => d) Sample.cfg
    (fst (Server.fileWrite Sample.cfg (Sample.one_file "f" (Sample.bytes "hello"))
            (Sample.bytes "eHl6") "/f")) "/f"
    = Server.Success
        (Server.mkFile (Some "/f") (Some 5%Z) (Some "78797a6c6f") None)
  /\ Checksum.fileChecksum (fun d => d) Sample.cfg
       (fst (Server.fileAppend Sample.cfg (Sample.one_file "f" (Sample.bytes "hello"))
               (Sample.bytes "eHl6") "/f")) "/f"
     = Server.Success
         (Server.mkFile (Some "/f") (Some 8%Z) (Some "68656c6c6f78797a") None).
Proof.
  apply (fileChecksum_after_write (fun d => d) Sample.cfg
           (Sample.one_file "f" (Sample.bytes "hello")) "/f" ["srv"; "data"] "f"
           [("f", Os.File (Sample.bytes "hello"))] (Sample.bytes "eHl6")
           (Sample.bytes "xyz")).
  - reflexivity.
  - reflexivity.
  - intros c [= <-]. now exists (Sample.bytes "hello").
  - reflexivity.
Defined.

(** ** The shared files *)

Section SharedFacts.

Import Os Server.

Lemma sharedName_accepted (cfg : Configuration) (requestURI : string) :
  acceptedName (Handlers.sharedName cfg requestURI) = true.
Proof. reflexivity. Qed.

End SharedFacts.

(** X22: [handlerFileShared] cannot be led out of the root directory:
    whatever the request URI, the name it makes of it begins with a
    slash, as the names of the other routes must, and resolves to a
    path within the root. *)
Theorem handlerFileShared_within_root
    (cfg : Server.Configuration) (requestURI : string) :
  Server.RootDirectory cfg <> "" ->
  Server.acceptedName (Handlers.sharedName cfg requestURI) = true
  /\ Filepath.within (Server.RootDirectory cfg)
       (Server.prepareAbsolutePath cfg (Handlers.sharedName cfg requestURI))
     = true.
Proof.
  intros Hroot. split; [apply sharedName_accepted|].
  pose proof (acceptedName_rooted _ (sharedName_accepted cfg requestURI)) as Hname.
  destruct (prepareAbsolutePath_slash cfg Hroot _ Hname) as [-> Hreal].
  now apply within_render.
Qed.

Lemma handlerFileShared_within_root_witness :
  Server.acceptedName (Handlers.sharedName Sample.cfg "/shared/../../etc/passwd")
    = true
  /\ Filepath.within "/srv/data"
       (Server.prepareAbsolutePath Sample.cfg
          (Handlers.sharedName Sample.cfg "/shared/../../etc/passwd"))
     = true.
Proof.
  apply (handlerFileShared_within_root Sample.cfg "/shared/../../etc/passwd").
  discriminate.
Defined.

(** X23: a request for the URL prefix, [/shared/] and a relative path
    is answered from the file of that path below the root: for a
    regular file that is not empty the response has the status 200 and
    the whole content as its body; and when the shared read fails with
    an error other than [ReadingFileFailed], the answer is the error
    alone, written to the response as it was before. *)
Theorem handlerFileShared_serves_link
    (DetectContentType : list byte -> string)
    (writeResultError : Http.ResponseWriter -> Server.ErrorDto -> Http.ResponseWriter)
    (cfg : Server.Configuration) (fs : Os.filesystem) (rel : string) :
  let requestURI := (Server.UrlPrefix cfg ++ "/shared/" ++ rel)%string in
  let name := ("/" ++ rel)%string in
  (forall d,
     Os.find_node (Os.elements (Server.prepareAbsolutePath cfg name)) fs
       = Ok (Os.File d) ->
     d <> [] ->
     let w' := Handlers.handlerFileShared DetectContentType writeResultError cfg fs
                 Http.NewResponseWriter requestURI in
     Http.status w' = Some 200%Z /\ Http.body w' = d)
  /\ (forall w w' e,
        Server.writeSharedFileContent DetectContentType cfg fs w name = (w', Some e) ->
        e <> Server.errorDto Server.errReadingFileFailed name ->
        Handlers.handlerFileShared DetectContentType writeResultError cfg fs w
          requestURI
        = writeResultError w e).
Proof.
  intros requestURI name.
  assert (Hname : Handlers.sharedName cfg requestURI = name).
  { unfold Handlers.sharedName, requestURI, Handlers.routeFileShared.
    rewrite <- append_assoc. now rewrite TrimPrefix_app. }
  unfold Handlers.handlerFileShared. rewrite Hname. split.
  - intros d Hn Hd.
    destruct (writeSharedFileContent_serves DetectContentType cfg fs name d Hn Hd)
      as (w1 & Heq & Hstatus & Hbody).
    cbv zeta. rewrite Heq. now split.
  - intros w w' e H He. rewrite H.
    now rewrite (writeSharedFileContent_failure _ _ _ _ _ _ _ He H).
Qed.

Lemma handlerFileShared_serves_link_witness :
  (Http.status
     (Handlers.handlerFileShared (fun _ => "text/plain; charset=utf-8")
        (fun w e => Http.WriteHeader w 400) Sample.cfg Sample.nested
        Http.NewResponseWriter "/shared/a/f") = Some 200%Z
   /\ Http.body
        (Handlers.handlerFileShared (fun _ => "text/plain; charset=utf-8")
           (fun w e => Http.WriteHeader w 400) Sample.cfg Sample.nested
           Http.NewResponseWriter "/shared/a/f") = Sample.bytes "inner")
  /\ Handlers.handlerFileShared (fun _ => "text/plain; charset=utf-8")
       (fun w e => Http.WriteHeader w 400) Sample.cfg Sample.nested
       Http.NewResponseWriter "/shared/a"
     = Http.WriteHeader Http.NewResponseWriter 400.
Proof.
  split.
  - apply (proj1 (handlerFileShared_serves_link (fun _ => "text/plain; charset=utf-8")
                    (fun w e => Http.WriteHeader w 400) Sample.cfg Sample.nested
                    "a/f") (Sample.bytes "inner")).
    + reflexivity.
    + discriminate.
  - apply (proj2 (handlerFileShared_serves_link (fun _ => "text/plain; charset=utf-8")
                    (fun w e => Http.WriteHeader w 400) Sample.cfg Sample.nested
                    "a") Http.NewResponseWriter Http.NewResponseWriter
             (Server.errorDto Server.errNotAFile "/a")).
    + reflexivity.
    + discriminate.
Defined.

(** ** The directory tree *)

(** The examples of the documentation of [filepath.Dir]. *)
Example Dir_tests :
  map FilepathDir.Dir
    ["/foo/bar/baz.js"; "/foo/bar/baz"; "/foo/bar/baz/"; "/dirty//path///";
     "dev.txt"; "../todo.txt"; ".."; "."; "/"; ""]
  = ["/foo/bar"; "/foo/bar"; "/foo/bar/baz"; "/dirty/path";
     "."; ".."; "."; "."; "/"; "."].
Proof. reflexivity. Qed.

Section DirFacts.

Import Filepath.

Lemma clean_elems_snoc_empty (ns : list string) :
  Forall (fun e => real e = true) ns -> clean_elems true (ns ++ [""]) = ns.
Proof.
  intros H. unfold clean_elems. rewrite fold_left_app.
  rewrite (fold_real true ns [] H).
  cbn [fold_left]. unfold clean_step. cbn [String.eqb].
  now rewrite app_nil_r, rev_involutive.
Qed.

(** The directory of an entry of a cleaned absolute path is that
    path. *)
Lemma Dir_entry (cs : list string) (nm : string) :
  Forall (fun e => real e = true) cs -> real nm = true ->
  FilepathDir.Dir (render true (cs ++ [nm])) = render true cs.
Proof.
  intros Hcs Hnm. unfold FilepathDir.Dir.
  assert (Hall : Forall (fun e => no_slash e = true) (cs ++ [nm])).
  { apply Forall_app. split.
    - eapply Forall_impl; [|exact Hcs]. intros e He. now apply real_inv in He.
    - constructor; [|constructor]. now apply real_inv in Hnm. }
  assert (Hsplit : Strings.Split (render true (cs ++ [nm])) = "" :: cs ++ [nm]).
  { unfold render. cbn [Strings.Split Ascii.eqb Bool.eqb].
    rewrite Split_Join; [reflexivity| |assumption]. destruct cs; discriminate. }
  rewrite Hsplit. change ("" :: cs ++ [nm]) with (("" :: cs) ++ [nm]).
  rewrite removelast_last.
  cbn [app]. rewrite Join_cons by (destruct cs; discriminate).
  change ("" ++ String "/" (Strings.Join (cs ++ [""])))%string
    with (render true (cs ++ [""])).
  unfold Clean. change (rooted (render true (cs ++ [""]))) with true.
  rewrite clean_Split_render.
  - now rewrite clean_elems_snoc_empty.
  - apply Forall_app. split; [|now repeat constructor].
    eapply Forall_impl; [|exact Hcs]. intros e He. now apply real_inv in He.
Qed.

End DirFacts.

Section HeapFacts.

Import Os Server Tree.

Lemma store_length (a : nat) (o : object) (h : heap) :
  List.length (store a o h) = List.length h.
Proof.
  revert a. induction h as [|x h IH]; intros [|a]; simpl; try reflexivity.
  now rewrite IH.
Qed.

Lemma store_app (a : nat) (o : object) (h x : heap) :
  a < List.length h -> store a o (h ++ x) = store a o h ++ x.
Proof.
  revert a. induction h as [|y h IH]; intros [|a] H; simpl in *; try lia.
  - reflexivity.
  - rewrite IH by lia. reflexivity.
Qed.

Lemma store_last (o x : object) (h : heap) :
  store (List.length h) o (h ++ [x]) = h ++ [o].
Proof. induction h as [|y h IH]; simpl; [reflexivity|now rewrite IH]. Qed.

Lemma store_store (a : nat) (o1 o2 : object) (h : heap) :
  store a o2 (store a o1 h) = store a o2 h.
Proof.
  revert a. induction h as [|y h IH]; intros [|a]; simpl; try reflexivity.
  now rewrite IH.
Qed.

Lemma store_same (a : nat) (o : object) (h : heap) :
  nth_error h a = Some o -> store a o h = h.
Proof.
  revert a. induction h as [|y h IH]; intros [|a]; simpl; try discriminate.
  - now intros [= ->].
  - intros H. now rewrite IH.
Qed.

Lemma nth_error_store (a : nat) (o : object) (h : heap) :
  a < List.length h -> nth_error (store a o h) a = Some o.
Proof.
  revert a. induction h as [|y h IH]; intros [|a] H; simpl in *; try lia.
  - reflexivity.
  - apply IH. lia.
Qed.

Lemma nth_error_length (a : nat) (o : object) (h : heap) :
  nth_error h a = Some o -> a < List.length h.
Proof. intros H. apply nth_error_Some. now rewrite H. Qed.

Lemma layout_Dir (a : nat) (name : string) (es : list (string * node)) :
  layout a name (Dir es)
  = mkobject name (addresses (S a) es) (flat_map file_of es)
    :: layout_entries (S a) es.
Proof. reflexivity. Qed.

Lemma layout_entries_cons (b : nat) (e : string * node) (r : list (string * node)) :
  layout_entries b (e :: r)
  = layout b (fst e) (snd e) ++ layout_entries (b + size (snd e)) r.
Proof. reflexivity. Qed.

Lemma layout_length (n : node) :
  forall (a : nat) (name : string), List.length (layout a name n) = size n.
Proof.
  induction n as [d|es IH] using node_tree_ind; intros a name; [reflexivity|].
  rewrite layout_Dir. cbn [List.length size]. f_equal.
  generalize (S a). induction IH as [|e es He _ IHes]; intros b; [reflexivity|].
  rewrite layout_entries_cons, length_app, He, IHes. reflexivity.
Qed.

Lemma layout_entries_length (es : list (string * node)) (b : nat) :
  List.length (layout_entries b es) = list_sum (map (fun e => size (snd e)) es).
Proof.
  revert b. induction es as [|e es IH]; intros b; [reflexivity|].
  rewrite layout_entries_cons, length_app, layout_length, IH. reflexivity.
Qed.

Lemma walk_Dir {S : Type}
    (fn : string -> FileInfo -> option error -> S -> S * option error)
    (path name : string) (es : list (string * node)) (s : S) :
  walk fn path name (Dir es) s
  = match fn path (info_of name (Dir es)) None s with
    | (s1, Some e) => (s1, Some e)
    | (s1, None) => walk_entries fn path es s1
    end.
Proof. reflexivity. Qed.

Lemma walk_entries_cons {S : Type}
    (fn : string -> FileInfo -> option error -> S -> S * option error)
    (path : string) (e : string * node) (rest : list (string * node)) (s : S) :
  walk_entries fn path (e :: rest) s
  = match walk fn (Filepath.Join [path; fst e]) (fst e) (snd e) s with
    | (s2, Some x) => (s2, Some x)
    | (s2, None) => walk_entries fn path rest s2
    end.
Proof. now destruct e. Qed.

End HeapFacts.

Section TreeWalk.

Import Os Server Tree.

Variable root : string.
Variable rs : list string.
Hypothesis root_clean : root = Filepath.render true rs.
Hypothesis rs_real : Forall (fun e => Filepath.real e = true) rs.

Lemma below_root (ns : list string) (nm : string) :
  Forall (fun e => Filepath.real e = true) (rs ++ ns) -> Filepath.real nm = true ->
  String.eqb (Filepath.render true ((rs ++ ns) ++ [nm])) root = false.
Proof.
  intros Hns Hnm. apply String.eqb_neq. rewrite root_clean. intros Heq.
  apply render_inj in Heq.
  - rewrite <- app_assoc in Heq. rewrite <- (app_nil_r rs) in Heq at 2.
    apply app_inv_head in Heq. now destruct ns.
  - apply canonical_real, Forall_app. split; [assumption|now constructor].
  - now apply canonical_real.
Qed.

Lemma render_below (cs r : list string) :
  Forall (fun e => Filepath.real e = true) cs -> r <> [] ->
  Forall (fun e => Filepath.real e = true) r ->
  Filepath.render true cs <> Filepath.render true (cs ++ r).
Proof.
  intros Hcs Hr Hreal Heq. apply render_inj in Heq.
  - rewrite <- (app_nil_r cs) in Heq at 1. apply app_inv_head in Heq. congruence.
  - now apply canonical_real.
  - apply canonical_real, Forall_app. now split.
Qed.

(** The call of the walk function on a directory below the root. *)
Lemma directoryTree_fn_dir (ns : list string) (nm : string) (es : list (string * node))
    (h : heap) (m : table) (d : nat) (o : object) :
  Forall (fun e => Filepath.real e = true) (rs ++ ns) -> Filepath.real nm = true ->
  map_get (Filepath.render true (rs ++ ns)) m = Some d ->
  nth_error h d = Some o ->
  directoryTree_fn root (Filepath.render true ((rs ++ ns) ++ [nm]))
    (info_of nm (Dir es)) None (h, m)
  = ((store d (mkobject (o_name o) (o_directories o ++ [List.length h]) (o_files o)) h
        ++ [mkobject nm [] []],
      map_set (Filepath.render true ((rs ++ ns) ++ [nm])) (List.length h) m),
     None).
Proof.
  intros Hns Hnm Hm Hd. unfold directoryTree_fn.
  rewrite (below_root ns nm Hns Hnm). cbn [negb IsDir info_of node_is_dir Name].
  rewrite (Dir_entry _ _ Hns Hnm), Hm. unfold AddDirectory.
  pose proof (nth_error_length _ _ _ Hd) as Hlt.
  rewrite nth_error_app1, Hd by assumption.
  now rewrite store_app.
Qed.

(** The call of the walk function on a regular file below the root. *)
Lemma directoryTree_fn_file (ns : list string) (nm : string) (c : list byte)
    (h : heap) (m : table) (d : nat) (o : object) :
  Forall (fun e => Filepath.real e = true) (rs ++ ns) -> Filepath.real nm = true ->
  map_get (Filepath.render true (rs ++ ns)) m = Some d ->
  nth_error h d = Some o ->
  directoryTree_fn root (Filepath.render true ((rs ++ ns) ++ [nm]))
    (info_of nm (Os.File c)) None (h, m)
  = ((store d (mkobject (o_name o) (o_directories o)
                 (o_files o ++ file_of (nm, Os.File c))) h,
      map_set (Filepath.render true (rs ++ ns)) d m),
     None).
Proof.
  intros Hns Hnm Hm Hd. unfold directoryTree_fn.
  rewrite (below_root ns nm Hns Hnm).
  cbn [negb IsDir info_of node_is_dir Name Size node_size].
  rewrite (Dir_entry _ _ Hns Hnm), Hm. unfold AddFile. now rewrite Hd.
Qed.

Lemma grown_nil (o : object) (a : nat) : grown o a [] = o.
Proof. destruct o. unfold grown. simpl. now rewrite !app_nil_r. Qed.

Lemma grown_cons (o : object) (a : nat) (e : string * node)
    (es : list (string * node)) :
  grown (grown o a [e]) (a + size (snd e)) es = grown o a (e :: es).
Proof.
  unfold grown.
  cbn [o_name o_directories o_files addresses flat_map].
  now rewrite !app_nil_r, <- !app_assoc.
Qed.

Lemma store_end (a : nat) (o x : object) (h : heap) :
  List.length h = a -> store a o (h ++ [x]) = h ++ [o].
Proof. intros <-. apply store_last. Qed.

(** The walk of the entries of a directory below the root. *)
Lemma entries_walked (es : list (string * node)) :
  Forall (fun e => entry_walked root rs (snd e)) es ->
  forall (ns : list string) (h : heap) (m : table) (d : nat) (o : object),
  Forall (fun e => Filepath.real e = true) (rs ++ ns) ->
  Forall (fun e => Filepath.real (fst e) = true) es ->
  Forall (fun e => wf_tree (snd e) = true) es ->
  map_get (Filepath.render true (rs ++ ns)) m = Some d ->
  nth_error h d = Some o ->
  walked (walk_entries (directoryTree_fn root) (Filepath.render true (rs ++ ns)) es
            (h, m))
    (store d (grown o (List.length h) es) h ++ layout_entries (List.length h) es)
    m
    (fun k => forall r, r <> [] -> Forall (fun e => Filepath.real e = true) r ->
                        k <> Filepath.render true ((rs ++ ns) ++ r)).
Proof.
  induction 1 as [|[nm c] es He _ IH]; intros ns h m d o Hns Hnames Hwf Hm Hd.
  - exists m. split; [|reflexivity].
    cbn [walk_entries]. rewrite grown_nil, (store_same _ _ _ Hd).
    now rewrite app_nil_r.
  - inversion Hnames as [|? ? Hnm Hnames']; subst.
    inversion Hwf as [|? ? Hc Hwf']; subst. cbn [fst snd] in *.
    rewrite walk_entries_cons. cbn [fst snd].
    rewrite (Join_entry _ _ Hns Hnm).
    destruct (He ns nm h m d o Hns Hnm Hc Hm Hd) as (m1 & -> & Hframe1).
    pose proof (nth_error_length _ _ _ Hd) as Hlt.
    set (o1 := grown o (List.length h) [(nm, c)]).
    set (h1 := store d o1 h ++ layout (List.length h) nm c).
    assert (Hm1 : map_get (Filepath.render true (rs ++ ns)) m1 = Some d).
    { rewrite Hframe1; [assumption|]. intros r Hr.
      apply render_below; [assumption|discriminate|now constructor]. }
    assert (Hd1 : nth_error h1 d = Some o1).
    { unfold h1. rewrite nth_error_app1 by now rewrite store_length.
      now apply nth_error_store. }
    destruct (IH ns h1 m1 d o1 Hns Hnames' Hwf' Hm1 Hd1) as (m2 & -> & Hframe2).
    exists m2. split.
    + f_equal. f_equal. unfold h1 at 1 2.
      rewrite store_app by now rewrite store_length.
      rewrite store_store. unfold h1.
      rewrite length_app, store_length, layout_length.
      unfold o1. pose proof (grown_cons o (List.length h) (nm, c) es) as Hg.
      cbn [snd] in Hg. rewrite Hg.
      rewrite layout_entries_cons. cbn [fst snd]. now rewrite <- app_assoc.
    + intros k Hk. rewrite Hframe2 by assumption. apply Hframe1.
      intros r Hr. apply Hk; [discriminate|now constructor].
Qed.

(** The walk of any entry below the root. *)
Lemma every_entry_walked (c : node) : entry_walked root rs c.
Proof.
  induction c as [c0|es IH] using node_tree_ind;
    intros ns nm h m d o Hns Hnm Hwf Hm Hd.
  - cbn [walk]. rewrite (directoryTree_fn_file ns nm c0 h m d o Hns Hnm Hm Hd).
    eexists. split.
    + f_equal. f_equal. unfold grown.
      cbn [layout addresses flat_map node_is_dir snd].
      now rewrite !app_nil_r.
    + intros k _. unfold map_set. cbn [map_get].
      destruct (String.eqb_spec (Filepath.render true (rs ++ ns)) k) as [<-|_];
        [now rewrite Hm|reflexivity].
  - rewrite walk_Dir, (directoryTree_fn_dir ns nm es h m d o Hns Hnm Hm Hd).
    apply wf_tree_Dir in Hwf as (Hnames & _ & Hwf).
    pose proof (nth_error_length _ _ _ Hd) as Hlt.
    set (a := List.length h) in *.
    set (y := mkobject (o_name o) (o_directories o ++ [a]) (o_files o)).
    set (p := Filepath.render true ((rs ++ ns) ++ [nm])).
    assert (Hns' : Forall (fun e => Filepath.real e = true) (rs ++ ns ++ [nm])).
    { rewrite app_assoc. apply Forall_app. split; [assumption|now constructor]. }
    assert (Hlen : List.length (store d y h) = a) by apply store_length.
    destruct (entries_walked es IH (ns ++ [nm]) (store d y h ++ [mkobject nm [] []])
                (map_set p a m) a (mkobject nm [] []) Hns' Hnames Hwf)
      as (m2 & Heq & Hframe2).
    { unfold map_set, p. cbn [map_get]. rewrite app_assoc.
      now rewrite String.eqb_refl. }
    { rewrite nth_error_app2 by lia. now rewrite Hlen, Nat.sub_diag. }
    rewrite (app_assoc rs ns [nm]) in Heq, Hframe2. fold p in Heq.
    exists m2. split.
    + eapply eq_trans; [exact Heq|].
      f_equal. f_equal. rewrite length_app, Hlen. cbn [List.length].
      rewrite Nat.add_1_r, (store_end a _ _ _ Hlen), layout_Dir.
      unfold grown, y.
      cbn [o_name o_directories o_files addresses flat_map node_is_dir snd file_of].
      rewrite !app_nil_r, <- app_assoc. reflexivity.
    + intros k Hk. rewrite Hframe2.
      * unfold map_set. cbn [map_get].
        destruct (String.eqb_spec p k) as [<-|_]; [|reflexivity].
        exfalso. now apply (Hk []).
      * intros r Hr Hreal. rewrite <- (app_assoc (rs ++ ns) [nm] r).
        now apply Hk.
Qed.

End TreeWalk.

Section TreeValue.

Import Os Server Tree.

(** The directories laid out for the entries of a directory have the
    values of the subdirectories. *)
Lemma values_layout (k : nat) (h : heap) (es : list (string * node)) :
  Forall (fun e =>
            node_is_dir (snd e) = true ->
            forall (name : string) (a : nat) (pre post : heap) (fuel : nat),
            List.length pre = a -> size (snd e) <= fuel ->
            value fuel (pre ++ layout a name (snd e) ++ post) a
            = mirror name (snd e)) es ->
  forall (b : nat) (pre post : heap),
  List.length pre = b -> h = pre ++ layout_entries b es ++ post ->
  list_sum (map (fun e => size (snd e)) es) <= k ->
  map (value k h) (addresses b es)
  = flat_map (fun e => match snd e with
                       | Dir _ => [mirror (fst e) (snd e)]
                       | Os.File _ => []
                       end) es.
Proof.
  induction 1 as [|[nm c] es He _ IH]; intros b pre post Hpre Hh Hk;
    [reflexivity|].
  rewrite layout_entries_cons in Hh. cbn [fst snd map list_sum] in *.
  cbn [addresses flat_map snd fst]. destruct c as [c0|es2].
  - cbn [node_is_dir size app] in *. rewrite Nat.add_0_r in *.
    now apply (IH b pre post).
  - cbn [node_is_dir app map]. change (list_sum (?x :: ?l)) with (x + list_sum l) in Hk.
    f_equal.
    + rewrite Hh, <- app_assoc. apply He; [reflexivity|assumption|lia].
    + apply (IH (b + size (Dir es2)) (pre ++ layout b nm (Dir es2)) post).
      * rewrite length_app, layout_length. lia.
      * rewrite Hh. now rewrite <- !app_assoc.
      * lia.
Qed.

(** The value at the address of a directory that has been laid out. *)
Lemma value_layout (n : node) :
  node_is_dir n = true ->
  forall (name : string) (a : nat) (pre post : heap) (fuel : nat),
  List.length pre = a -> size n <= fuel ->
  value fuel (pre ++ layout a name n ++ post) a = mirror name n.
Proof.
  induction n as [c0|es IH] using node_tree_ind; [discriminate|].
  intros _ name a pre post fuel Hpre Hfuel.
  destruct fuel as [|k]; [cbn [size] in Hfuel; lia|].
  rewrite layout_Dir. cbn [value].
  rewrite nth_error_app2 by lia. rewrite Hpre, Nat.sub_diag. cbn [nth_error app].
  cbn [o_name o_directories o_files mirror]. f_equal.
  apply (values_layout k _ es IH (S a)
           (pre ++ [mkobject name (addresses (S a) es) (flat_map file_of es)]) post).
  - rewrite length_app. cbn [List.length]. lia.
  - now rewrite <- app_assoc.
  - cbn [size] in Hfuel. lia.
Qed.

End TreeValue.

(** X24: for a root directory given as a cleaned absolute path that
    resolves to a well-formed tree, [directoryTree] returns no error
    and the whole tree: under the last element of the root, every
    directory with its subdirectories and its files with their sizes,
    each list in the order of the names. *)
Theorem directoryTree_mirrors
    (cfg : Server.Configuration) (fs : Os.filesystem) (rs : list string)
    (n : Os.node) :
  Server.RootDirectory cfg = Filepath.render true rs ->
  Forall (fun e => Filepath.real e = true) rs ->
  Os.find_node rs fs = Ok n ->
  Os.wf_tree n = true ->
  Tree.directoryTree cfg fs
  = (Tree.mirror (Filepath.Base (Server.RootDirectory cfg)) (Os.sort_tree n), None).
Proof.
  intros Hroot Hrs Hn Hwf. unfold Tree.directoryTree, Os.Walk.
  assert (Helems : Os.elements (Server.RootDirectory cfg) = rs).
  { unfold Os.elements. rewrite Hroot, clean_Split_render.
    - now apply clean_elems_fixed, canonical_real.
    - eapply Forall_impl; [|exact Hrs]. intros e He. now apply real_inv in He. }
  rewrite Helems, Hn.
  set (root := Server.RootDirectory cfg) in *.
  set (name := Filepath.Base root).
  pose proof (wf_sort_tree n Hwf) as Hsorted.
  destruct (Os.sort_tree n) as [c0|es].
  - cbn [Os.walk]. unfold Tree.directoryTree_fn. rewrite String.eqb_refl.
    reflexivity.
  - rewrite walk_Dir. unfold Tree.directoryTree_fn at 1. rewrite String.eqb_refl.
    cbn [negb]. apply wf_tree_Dir in Hsorted as (Hnames & _ & Hwfs).
    destruct (entries_walked root rs Hroot es) with
      (ns := @nil string) (h := [Tree.mkobject name [] []])
      (m := Tree.map_set root 0 []) (d := 0) (o := Tree.mkobject name [] [])
      as (m' & Heq & _).
    + apply Forall_forall. intros e _. now apply every_entry_walked.
    + now rewrite app_nil_r.
    + assumption.
    + assumption.
    + rewrite app_nil_r, <- Hroot. unfold Tree.map_set. cbn [Tree.map_get].
      now rewrite String.eqb_refl.
    + reflexivity.
    + rewrite app_nil_r, <- Hroot in Heq. rewrite Heq. f_equal.
      cbn [Tree.store List.length app].
      pose proof (value_layout (Os.Dir es) eq_refl name 0 [] []
                    (S (List.length (Tree.layout_entries 1 es))) eq_refl) as Hv.
      rewrite app_nil_r in Hv. apply Hv.
      cbn [Tree.size]. now rewrite layout_entries_length.
Qed.

Lemma directoryTree_mirrors_witness :
  Tree.directoryTree Sample.cfg Sample.nested
  = (Server.mkDirectory "data"
       [Server.mkDirectory "a" []
          [Server.mkFile (Some "f") (Some 5%Z) None None]]
       [Server.mkFile (Some "f") (Some 5%Z) None None],
     None).
Proof.
  apply (directoryTree_mirrors Sample.cfg Sample.nested ["srv"; "data"]
           (Os.Dir [("a", Os.Dir [("f", Os.File (Sample.bytes "inner"))]);
                    ("f", Os.File (Sample.bytes "outer"))])).
  - reflexivity.
  - repeat constructor.
  - reflexivity.
  - reflexivity.
Defined.

Section TreeNotWalked.

Import Os Server Tree.

Variable root : string.
Hypothesis root_not_clean : Filepath.Clean root <> root.




End TreeNotWalked.



(** ** The parameters of a request *)

Section ParamFacts.

Import Os Server Transport.

Variable TrimSpace : string -> string.
Variable writeResultError : Http.ResponseWriter -> ErrorDto -> Http.ResponseWriter.

(** What [requiredSingleParam] lets through. *)
Lemma requiredSingleParam_ok (w w' : Http.ResponseWriter) (query : Values)
    (name value : string) :
  requiredSingleParam TrimSpace writeResultError w query name = (w', (value, true)) ->
  w' = w /\ value <> ""
  /\ exists first, values_get name query = Some (first, [])
                   /\ value = TrimSpace first.
Proof.
  unfold requiredSingleParam.
  destruct (values_get name query) as [[first rest]|]; [|discriminate].
  destruct rest as [|second rest]; [|discriminate]. cbn [List.length Nat.ltb Nat.leb].
  destruct (String.eqb_spec (TrimSpace first) ""); [discriminate|].
  intros [= <- <-]. repeat split; [assumption|]. now exists first.
Qed.

(** What [requiredSingleParam] refuses is answered with an error. *)
Lemma requiredSingleParam_refused (w w' : Http.ResponseWriter) (query : Values)
    (name value : string) :
  requiredSingleParam TrimSpace writeResultError w query name = (w', (value, false)) ->
  value = "" /\ exists e, w' = writeResultError w (errorDto e name).
Proof.
  unfold requiredSingleParam.
  destruct (values_get name query) as [[first rest]|].
  - destruct (Nat.ltb 1 (List.length (first :: rest))).
    + intros [= <- <-]. split; [reflexivity|]. now eexists.
    + destruct (String.eqb (TrimSpace first) ""); [|discriminate].
      intros [= <- <-]. split; [reflexivity|]. now eexists.
  - intros [= <- <-]. split; [reflexivity|]. now eexists.
Qed.

End ParamFacts.

(** X26: [requiredNameParam] is the gate of the engine: a name it lets
    through is the single value of the parameter [name], trimmed,
    begins with a slash and resolves to a path within the root, and
    nothing has been written to the response; whenever it refuses, it
    returns the empty name and has answered with one error. *)
Theorem requiredNameParam_gate
    (TrimSpace : string -> string)
    (writeResultError : Http.ResponseWriter -> Server.ErrorDto -> Http.ResponseWriter)
    (cfg : Server.Configuration) (w w' : Http.ResponseWriter)
    (query : Transport.Values) (name : string) :
  Server.RootDirectory cfg <> "" ->
  (Transport.requiredNameParam TrimSpace writeResultError w query
     = (w', (name, true)) ->
   w' = w
   /\ (exists first, Transport.values_get "name" query = Some (first, [])
                     /\ name = TrimSpace first)
   /\ Server.acceptedName name = true
   /\ Filepath.within (Server.RootDirectory cfg)
        (Server.prepareAbsolutePath cfg name) = true)
  /\ (Transport.requiredNameParam TrimSpace writeResultError w query
        = (w', (name, false)) ->
      name = "" /\ exists e detail, w' = writeResultError w (Server.errorDto e detail)).
Proof.
  intros Hroot. unfold Transport.requiredNameParam.
  destruct (Transport.requiredSingleParam TrimSpace writeResultError w query "name")
    as [w1 [value [|]]] eqn:Hsingle.
  - destruct (requiredSingleParam_ok _ _ _ _ _ _ _ Hsingle) as (-> & Hne & Hfirst).
    destruct (Strings.HasPrefix value "/") eqn:Hslash; cbn [negb]; split.
    + intros [= <- <-]. repeat split; try assumption.
      pose proof (acceptedName_rooted _ Hslash) as Hrooted.
      destruct (prepareAbsolutePath_slash cfg Hroot _ Hrooted) as [-> Hreal].
      now apply within_render.
    + discriminate.
    + discriminate.
    + intros [= <- <-]. split; [reflexivity|]. now eexists _, _.
  - destruct (requiredSingleParam_refused _ _ _ _ _ _ _ Hsingle) as (_ & e & ->).
    split; [discriminate|].
    intros [= <- <-]. split; [reflexivity|]. now exists e, "name".
Qed.

Lemma requiredNameParam_gate_witness :
  (Http.NewResponseWriter = Http.NewResponseWriter
   /\ (exists first,
         Transport.values_get "name" [("name", ("/a/../../b", []))]
           = Some (first, [])
         /\ "/a/../../b" = (fun s => s) first)
   /\ Server.acceptedName "/a/../../b" = true
   /\ Filepath.within "/srv/data"
        (Server.prepareAbsolutePath Sample.cfg "/a/../../b") = true)
  /\ ("" = ""
      /\ exists e detail,
           Http.WriteHeader Http.NewResponseWriter 400
           = (fun w _ => Http.WriteHeader w 400) Http.NewResponseWriter
               (Server.errorDto e detail)).
Proof.
  split.
  - apply (proj1 (requiredNameParam_gate (fun s => s)
                    (fun w _ => Http.WriteHeader w 400) Sample.cfg
                    Http.NewResponseWriter Http.NewResponseWriter
                    [("name", ("/a/../../b", []))] "/a/../../b"
                    ltac:(discriminate))).
    reflexivity.
  - apply (proj2 (requiredNameParam_gate (fun s => s)
                    (fun w _ => Http.WriteHeader w 400) Sample.cfg
                    Http.NewResponseWriter
                    (Http.WriteHeader Http.NewResponseWriter 400)
                    [("name", ("a/b", []))] ""
                    ltac:(discriminate))).
    reflexivity.
Defined.

(** X27: [optionalSingleParam] agrees with [requiredSingleParam]
    wherever that one lets a value through, whatever the default; where
    the parameter is missing or blank it returns the default and
    writes nothing, and it fails, as [requiredSingleParam] does with
    the same answer, only when the parameter is given more than
    once. *)
Theorem optionalSingleParam_agrees
    (TrimSpace : string -> string)
    (writeResultError : Http.ResponseWriter -> Server.ErrorDto -> Http.ResponseWriter)
    (w : Http.ResponseWriter) (query : Transport.Values)
    (name defaultValue : string) :
  let required := Transport.requiredSingleParam TrimSpace writeResultError w query name in
  let optional :=
    Transport.optionalSingleParam TrimSpace writeResultError w query name
      defaultValue in
  (snd (snd required) = true -> optional = required)
  /\ (snd (snd optional) = false ->
      optional = required
      /\ exists first second rest,
           Transport.values_get name query = Some (first, second :: rest))
  /\ (snd (snd required) = false -> snd (snd optional) = true ->
      optional = (w, (defaultValue, true))).
Proof.
  unfold Transport.requiredSingleParam, Transport.optionalSingleParam.
  destruct (Transport.values_get name query) as [[first [|second rest]]|];
    cbn [List.length Nat.ltb Nat.leb snd].
  - destruct (String.eqb (TrimSpace first) ""); cbn [snd];
      repeat split; try discriminate; trivial.
  - repeat split; try discriminate; trivial. now exists first, second, rest.
  - repeat split; try discriminate; trivial.
Qed.

Lemma optionalSingleParam_agrees_witness :
  Transport.optionalSingleParam (fun s => s) (fun w _ => Http.WriteHeader w 400)
    Http.NewResponseWriter [("all", ("true", []))] "all" "false"
  = Transport.requiredSingleParam (fun s => s) (fun w _ => Http.WriteHeader w 400)
      Http.NewResponseWriter [("all", ("true", []))] "all"
  /\ (Transport.optionalSingleParam (fun s => s) (fun w _ => Http.WriteHeader w 400)
        Http.NewResponseWriter [("all", ("true", ["false"]))] "all" "false"
      = Transport.requiredSingleParam (fun s => s) (fun w _ => Http.WriteHeader w 400)
          Http.NewResponseWriter [("all", ("true", ["false"]))] "all"
      /\ exists first second rest,
           Transport.values_get "all" [("all", ("true", ["false"]))]
           = Some (first, second :: rest))
  /\ Transport.optionalSingleParam (fun s => s) (fun w _ => Http.WriteHeader w 400)
       Http.NewResponseWriter [] "all" "false"
     = (Http.NewResponseWriter, ("false", true)).
Proof.
  split; [|split].
  - apply (proj1 (optionalSingleParam_agrees (fun s => s)
                    (fun w _ => Http.WriteHeader w 400) Http.NewResponseWriter
                    [("all", ("true", []))] "all" "false")).
    reflexivity.
  - apply (proj1 (proj2 (optionalSingleParam_agrees (fun s => s)
                           (fun w _ => Http.WriteHeader w 400) Http.NewResponseWriter
                           [("all", ("true", ["false"]))] "all" "false"))).
    reflexivity.
  - apply (proj2 (proj2 (optionalSingleParam_agrees (fun s => s)
                           (fun w _ => Http.WriteHeader w 400) Http.NewResponseWriter
                           [] "all" "false"))); reflexivity.
Defined.

(** ** Refusals that change nothing *)

Section Refusals.

Import Os Server.

(** [OpenFile] that fails has changed nothing. *)
Lemma OpenFile_error (fs fs1 : filesystem) (name : string) (flags : list flag)
    (x : error) :
  OpenFile fs name flags = (fs1, Err x) -> fs1 = fs.
Proof.
  unfold OpenFile.
  destruct (find_node (elements name) fs) as [[d|es]|e].
  - destruct (has O_TRUNC flags); [|discriminate].
    destruct (alter _ (elements name) fs); [discriminate|now intros [= <- _]].
  - destruct (has O_WRONLY flags); [now intros [= <- _]|discriminate].
  - destruct e; try (now intros [= <- _]).
    destruct (has O_CREATE flags); [|now intros [= <- _]].
    destruct (alter _ (elements name) fs); [discriminate|now intros [= <- _]].
Qed.

(** [OpenFile] for writing on a directory, and on a name whose
    directory is none. *)
Lemma OpenFile_refused (fs : filesystem) (name : string) (flags : list flag)
    (q : list string) (e : string) :
  has O_WRONLY flags = true ->
  elements name = q ++ [e] ->
  (exists es, find_node (q ++ [e]) fs = Ok (Dir es))
  \/ (forall es, find_node q fs <> Ok (Dir es)) ->
  exists x, OpenFile fs name flags = (fs, Err x).
Proof.
  intros Hw Hp [[es Hn]|Hq]; unfold OpenFile; rewrite Hp.
  - rewrite Hn, Hw. now eexists.
  - rewrite find_node_app.
    destruct (find_node q fs) as [[d|es]|x] eqn:Hn.
    + cbn [find_node]. now eexists.
    + now elim (Hq es).
    + destruct x; try (now eexists).
      destruct (has O_CREATE flags); [|now eexists].
      rewrite (alter_no_parent _ _ _ _ _ Hn). now eexists.
Qed.

End Refusals.

(** X28: [fileWrite] and [fileAppend] on a directory, or on a name
    whose parent is not a directory, answer
    [OpeningFileForWritingFailed] and [OpeningFileForAppendFailed],
    and create nothing: the file system is as it was. *)
Theorem file_not_opened_changes_nothing
    (cfg : Server.Configuration) (fs : Os.filesystem) (reqBody : list byte)
    (name : string) (q : list string) (e : string) :
  Os.elements (Server.prepareAbsolutePath cfg name) = q ++ [e] ->
  (exists es, Os.find_node (q ++ [e]) fs = Ok (Os.Dir es))
  \/ (forall es, Os.find_node q fs <> Ok (Os.Dir es)) ->
  Server.fileWrite cfg fs reqBody name
    = (fs, Server.Failure
             (Server.errorDto Server.errOpeningFileForWritingFailed name))
  /\ Server.fileAppend cfg fs reqBody name
     = (fs, Server.Failure
              (Server.errorDto Server.errOpeningFileForAppendFailed name)).
Proof.
  intros Hp Hcase. unfold Server.fileWrite, Server.fileAppend. split.
  - destruct (OpenFile_refused fs _ [Os.O_CREATE; Os.O_WRONLY] q e eq_refl Hp Hcase)
      as [x ->].
    reflexivity.
  - destruct (OpenFile_refused fs _ [Os.O_APPEND; Os.O_CREATE; Os.O_WRONLY] q e
                eq_refl Hp Hcase) as [x ->].
    reflexivity.
Qed.

Lemma file_not_opened_changes_nothing_witness :
  Server.fileWrite Sample.cfg Sample.nested (Sample.bytes "eHl6") "/f/g"
    = (Sample.nested,
       Server.Failure
         (Server.errorDto Server.errOpeningFileForWritingFailed "/f/g"))
  /\ Server.fileAppend Sample.cfg Sample.nested (Sample.bytes "eHl6") "/f/g"
     = (Sample.nested,
        Server.Failure
          (Server.errorDto Server.errOpeningFileForAppendFailed "/f/g")).
Proof.
  apply (file_not_opened_changes_nothing Sample.cfg Sample.nested
           (Sample.bytes "eHl6") "/f/g" ["srv"; "data"; "f"] "g").
  - reflexivity.
  - right. intros es. vm_compute. discriminate.
Defined.

(** X29: [deleteDirectory] with the flag [all] on a name that is not
    the root: a regular file is refused with
    [ReadingDirectoryContentFailed] and stays, where the call without
    the flag removes it; an empty directory is removed. *)
Theorem deleteDirectory_all_edges
    (cfg : Server.Configuration) (fs : Os.filesystem) (name : string) :
  let fullName := Server.prepareAbsolutePath cfg name in
  fullName <> Server.RootDirectory cfg ->
  Os.elements fullName <> [] ->
  (forall d, Os.find_node (Os.elements fullName) fs = Ok (Os.File d) ->
     Server.deleteDirectory cfg fs name true
     = (fs, Server.Failure
              (Server.errorDto Server.errReadingDirectoryContentFailed name)))
  /\ (Os.find_node (Os.elements fullName) fs = Ok (Os.Dir []) ->
      exists fs' : Os.filesystem,
        Server.deleteDirectory cfg fs name true
        = (fs', Server.Success (Server.mkDirectory (Filepath.Base fullName) [] []))
        /\ Os.find_node (Os.elements fullName) fs' = Err ENOENT).
Proof.
  intros fullName Hroot Hp. apply String.eqb_neq in Hroot. split.
  - intros d Hn. unfold Server.deleteDirectory, Os.ReadDir. fold fullName.
    now rewrite Hn.
  - intros Hn.
    destruct (alter_succeeds Os.remove_entry _ fs (Os.Dir []) None Hp Hn eq_refl)
      as (fs' & Ha).
    destruct (alter_existing _ _ _ _ _ Ha Hn) as (o & Ho & Hgone).
    injection Ho as <-. exists fs'. split; [|exact Hgone].
    unfold Server.deleteDirectory, Os.ReadDir, Os.Remove. fold fullName.
    rewrite Hn. cbn [map Os.sort_infos fold_right Server.deleteDirectory_entries].
    now rewrite Hroot, Ha.
Qed.

Lemma deleteDirectory_all_edges_witness :
  Server.deleteDirectory Sample.cfg Sample.tree "/a/f.txt" true
    = (Sample.tree,
       Server.Failure
         (Server.errorDto Server.errReadingDirectoryContentFailed "/a/f.txt"))
  /\ exists fs' : Os.filesystem,
       Server.deleteDirectory Sample.cfg Sample.tree "/a/sub" true
       = (fs', Server.Success
                 (Server.mkDirectory
                    (Filepath.Base (Server.prepareAbsolutePath Sample.cfg "/a/sub"))
                    [] []))
       /\ Os.find_node (Os.elements (Server.prepareAbsolutePath Sample.cfg "/a/sub"))
            fs' = Err ENOENT.
Proof.
  split.
  - apply (proj1 (deleteDirectory_all_edges Sample.cfg Sample.tree "/a/f.txt"
                    ltac:(vm_compute; discriminate) ltac:(vm_compute; discriminate))
             (Sample.bytes "x")).
    reflexivity.
  - apply (proj2 (deleteDirectory_all_edges Sample.cfg Sample.tree "/a/sub"
                    ltac:(vm_compute; discriminate) ltac:(vm_compute; discriminate))).
    reflexivity.
Defined.
